(** * mjml-builder: the build orchestration scripts

    A shallow embedding of the build, hash verification, packaging
    and clean scripts of the repository, and the properties of the
    planner, the build executor, the hasher, the manifest writer, the
    verifier, the packager and the cleaner.

    Conventions.
    - A JavaScript string is a [string], the bytes of its UTF-8 form;
      a file's content is the [string] of its bytes, and a text
      decoded from a file is the list of its code points.
    - A JavaScript object used as an ordered mapping (the [platforms]
      and [nodeVersions] tables of build-config.json) is the list of its
      own properties in creation order; [Object_entries] enumerates it
      the way the language does.
    - The file system is a finite map from paths to nodes; the [fs]
      calls the scripts make are functions on it, returning [Throw]
      where the call raises. The root and the working directory are
      always there and are not entries of the map.
    - The external packaging tool and the digest primitive are
      parameters. *)

From Stdlib Require Import List String Ascii NArith ZArith Bool Lia Permutation Sorted.
From stdpp Require Import base option list gmap strings.

Local Open Scope string_scope.
Local Open Scope list_scope.

(* ===================================================================== *)
(** ** JavaScript strings                                                 *)
(* ===================================================================== *)

Module Js.

(** [a === b] on strings. *)
Definition str_eq (a b : string) : bool := String.eqb a b.

(** Truthiness of a value that is [null]/[undefined] or a string: only
    a non-empty string is truthy. *)
Definition truthy (v : option string) : bool :=
  match v with
  | Some s => negb (str_eq s "")
  | None => false
  end.

(** [v || ''] for a value that is [undefined] or a string. *)
Definition or_empty (v : option string) : string :=
  match v with
  | Some s => s
  | None => ""
  end.

Fixpoint chars (s : string) : list ascii :=
  match s with
  | EmptyString => []
  | String c s' => c :: chars s'
  end.

Fixpoint of_chars (l : list ascii) : string :=
  match l with
  | [] => EmptyString
  | c :: l' => String c (of_chars l')
  end.

(** [s.endsWith(suffix)]. *)
Fixpoint startsWith_chars (s p : list ascii) : bool :=
  match p, s with
  | [], _ => true
  | _ :: _, [] => false
  | c :: p', d :: s' => Ascii.eqb c d && startsWith_chars s' p'
  end.

Definition endsWith (s suffix : string) : bool :=
  startsWith_chars (rev (chars s)) (rev (chars suffix)).

(** *** Text read from a file

    [fs.readFileSync(path, 'utf8')] decodes the bytes of the file as
    UTF-8. The decoded text is the list of its code points, each held
    as the bytes of its UTF-8 form; an ill-formed sequence becomes one
    U+FFFD for each maximal subpart, as the WHATWG decoder of the
    runtime does. A byte order mark is kept. *)
Definition Text : Type := list (list ascii).

Definition within (lo hi : N) (b : ascii) : bool :=
  ((lo <=? N_of_ascii b) && (N_of_ascii b <=? hi))%N.

(** A continuation byte, 80..BF. *)
Definition continuation (b : ascii) : bool := within 128 191 b.

(** The second byte that may follow a lead byte E0..EF: no overlong form after
    E0, no surrogate after ED. *)
Definition second_of_three (b b1 : ascii) : bool :=
  if (N_of_ascii b =? 224)%N then within 160 191 b1
  else if (N_of_ascii b =? 237)%N then within 128 159 b1
  else continuation b1.

(** The second byte that may follow a lead byte F0..F4: no overlong form after
    F0, nothing above U+10FFFF after F4. *)
Definition second_of_four (b b1 : ascii) : bool :=
  if (N_of_ascii b =? 240)%N then within 144 191 b1
  else if (N_of_ascii b =? 244)%N then within 128 143 b1
  else continuation b1.

(** U+FFFD *)
Definition replacement : list ascii := ["239"; "191"; "189"]%char.

Fixpoint utf8_chars (bytes : list ascii) : Text :=
  match bytes with
  | [] => []
  | b :: rest =>
      if within 0 127 b then [b] :: utf8_chars rest
      else if within 194 223 b then
        match rest with
        | b1 :: rest1 =>
            if continuation b1 then [b; b1] :: utf8_chars rest1
            else replacement :: utf8_chars rest
        | [] => [replacement]
        end
      else if within 224 239 b then
        match rest with
        | b1 :: rest1 =>
            if second_of_three b b1 then
              match rest1 with
              | b2 :: rest2 =>
                  if continuation b2 then [b; b1; b2] :: utf8_chars rest2
                  else replacement :: utf8_chars rest1
              | [] => [replacement]
              end
            else replacement :: utf8_chars rest
        | [] => [replacement]
        end
      else if within 240 244 b then
        match rest with
        | b1 :: rest1 =>
            if second_of_four b b1 then
              match rest1 with
              | b2 :: rest2 =>
                  if continuation b2 then
                    match rest2 with
                    | b3 :: rest3 =>
                        if continuation b3
                        then [b; b1; b2; b3] :: utf8_chars rest3
                        else replacement :: utf8_chars rest2
                    | [] => [replacement]
                    end
                  else replacement :: utf8_chars rest1
              | [] => [replacement]
              end
            else replacement :: utf8_chars rest
        | [] => [replacement]
        end
      else replacement :: utf8_chars rest
  end.

(** The text of a file read with the encoding ['utf8']. *)
Definition utf8 (bytes : string) : Text := utf8_chars (chars bytes).

(** A piece of a text as a string. *)
Definition of_text (t : Text) : string := of_chars (concat t).

(** The code points the regular expression class [\s] and [trim] treat
    as white space: TAB, LF, VT, FF, CR, SPACE, U+00A0, U+1680,
    U+2000..U+200A, U+2028, U+2029, U+202F, U+205F, U+3000 and
    U+FEFF. *)
Definition is_space (c : list ascii) : bool :=
  match map N_of_ascii c with
  | [n] => ((9 <=? n) && (n <=? 13)) || (n =? 32)
  | [194; 160] => true
  | [225; 154; 128] => true
  | [226; 128; n] =>
      ((128 <=? n) && (n <=? 138)) || (n =? 168) || (n =? 169) || (n =? 175)
  | [226; 129; 159] => true
  | [227; 128; 128] => true
  | [239; 187; 191] => true
  | _ => false
  end%N.

Fixpoint dropSpaces (l : Text) : Text :=
  match l with
  | [] => []
  | c :: l' => if is_space c then dropSpaces l' else l
  end.

(** [s.trim()]. *)
Definition trim (l : Text) : Text :=
  rev (dropSpaces (rev (dropSpaces l))).

(** [s.split(/\s+/)]: the pieces between maximal runs of white space.
    [cur] is the piece being read, reversed; [in_gap] tells that the
    previous code point was white space. *)
Fixpoint split_ws_go (l : Text) (cur : Text) (in_gap : bool) : list Text :=
  match l with
  | [] => [rev cur]
  | c :: l' =>
      if is_space c
      then (if in_gap then split_ws_go l' cur true
            else rev cur :: split_ws_go l' [] true)
      else split_ws_go l' (c :: cur) false
  end.

Definition split_ws (s : Text) : list string :=
  map of_text (split_ws_go s [] false).

(** [s.split(/\s+/)[0]]; the array [split] returns is never empty. *)
Definition first_token (s : Text) : string :=
  match split_ws s with
  | t :: _ => t
  | [] => ""
  end.

(** *** Array-index property keys

    A property key is an array index when it is the canonical decimal
    form of an integer in [0, 2^32 - 2]. *)

Definition is_digit (c : ascii) : bool :=
  let n := nat_of_ascii c in (48 <=? n)%nat && (n <=? 57)%nat.

Definition digit_value (c : ascii) : N := N.of_nat (nat_of_ascii c - 48).

Definition decimal_value (l : list ascii) : N :=
  fold_left (fun acc c => (10 * acc + digit_value c)%N) l 0%N.

Definition array_index (k : string) : option N :=
  match chars k with
  | [] => None
  | c :: rest =>
      if forallb is_digit (c :: rest)
         && implb (Ascii.eqb c "0") (match rest with [] => true | _ => false end)
         && (decimal_value (c :: rest) <? 4294967295)%N
      then Some (decimal_value (c :: rest))
      else None
  end.

End Js.

(* ===================================================================== *)
(** ** JavaScript objects as ordered mappings                             *)
(* ===================================================================== *)

Module JsObject.

(** The own properties of an object, in creation order. *)
Definition t (V : Type) : Type := list (string * V).

(** Defining a property: an existing key keeps its place and takes the
    new value, a new key goes last. *)
Fixpoint define {V} (o : t V) (k : string) (v : V) : t V :=
  match o with
  | [] => [(k, v)]
  | (k', v') :: o' =>
      if Js.str_eq k' k then (k, v) :: o' else (k', v') :: define o' k v
  end.

(** [JSON.parse] of an object literal with the given members, in the
    order of the text. *)
Definition of_members {V} (members : list (string * V)) : t V :=
  fold_left (fun o kv => define o kv.1 kv.2) members [].

(** Stable insertion of an indexed entry among entries sorted by
    index. *)
Fixpoint insert_sorted {V} (e : N * (string * V)) (l : list (N * (string * V)))
  : list (N * (string * V)) :=
  match l with
  | [] => [e]
  | e' :: l' =>
      if (e.1 <? e'.1)%N then e :: e' :: l' else e' :: insert_sorted e l'
  end.

Definition sort_by_index {V} (l : list (N * (string * V)))
  : list (N * (string * V)) :=
  fold_right insert_sorted [] l.

(** The properties whose key is an array index, tagged with it. *)
Fixpoint indexed {V} (o : t V) : list (N * (string * V)) :=
  match o with
  | [] => []
  | (k, v) :: o' =>
      match Js.array_index k with
      | Some n => (n, (k, v)) :: indexed o'
      | None => indexed o'
      end
  end.

(** The properties whose key is not an array index. *)
Definition named {V} (o : t V) : t V :=
  List.filter (fun kv => match Js.array_index kv.1 with
                         | Some _ => false
                         | None => true
                         end) o.

(** [Object.entries(o)]: array-index keys first, in ascending numeric
    order, then the other keys in creation order. *)
Definition Object_entries {V} (o : t V) : list (string * V) :=
  map snd (sort_by_index (indexed o)) ++ named o.

End JsObject.

Abbreviation Object_entries := JsObject.Object_entries.

(* ===================================================================== *)
(** ** build-config.json                                                  *)
(* ===================================================================== *)

Module Platform.
Record t := {
  enabled : bool;
  pkgTarget : string;
  artifactName : string;
  extension : option string   (* may be absent *)
}.
End Platform.

Module NodeVersion.
Record t := {
  enabled : bool;
  supported : bool;
  pkgTarget : string
}.
End NodeVersion.

Module Output.
Record t := {
  directory : string;
  binaryPrefix : string;
  hashAlgorithm : string;
  compressionLevel : nat
}.
End Output.

Module Build.
(** [maxConcurrency] is a count. *)
Record t := {
  cleanBeforeBuild : bool;
  parallel : bool;
  maxConcurrency : nat
}.
End Build.

Record Config := {
  platforms : JsObject.t Platform.t;
  nodeVersions : JsObject.t NodeVersion.t;
  output : Output.t;
  build : Build.t
}.

(* ===================================================================== *)
(** ** Command line                                                       *)
(* ===================================================================== *)

Module Args.

(** [args.indexOf(flag)], [None] standing for -1. *)
Fixpoint indexOf (args : list string) (flag : string) : option nat :=
  match args with
  | [] => None
  | a :: args' =>
      if Js.str_eq a flag then Some 0
      else match indexOf args' flag with
           | Some i => Some (S i)
           | None => None
           end
  end.

Definition includes (args : list string) (flag : string) : bool :=
  match indexOf args flag with Some _ => true | None => false end.

(** [index !== -1 && args[index + 1] ? args[index + 1] : null] *)
Definition getArgValue (args : list string) (flag : string) : option string :=
  match indexOf args flag with
  | Some index =>
      if Js.truthy (nth_error args (index + 1))
      then nth_error args (index + 1)
      else None
  | None => None
  end.

End Args.

(* ===================================================================== *)
(** ** The file system                                                    *)
(* ===================================================================== *)

Module Fs.

Inductive node :=
  | File (content : string)
  | Dir.

(** Paths are normalised strings; the map holds every existing path. *)
Abbreviation t := (gmap string node).

Inductive result (A : Type) :=
  | Ok (a : A)
  | Throw (message : string).
Arguments Ok {A} a.
Arguments Throw {A} message.

Definition bind {A B} (r : result A) (k : A -> result B) : result B :=
  match r with
  | Ok a => k a
  | Throw m => Throw m
  end.

(** [path.join(dir, name)] on normalised segments. *)
Definition path_join (dir name : string) : string := dir +:+ "/" +:+ name.

Definition existsSync (fs : t) (p : string) : bool :=
  match fs !! p with Some _ => true | None => false end.

Definition readFileSync (fs : t) (p : string) : result string :=
  match fs !! p with
  | Some (File c) => Ok c
  | Some Dir => Throw "EISDIR: illegal operation on a directory, read"
  | None => Throw "ENOENT: no such file or directory, open"
  end.

(** The prefixes of a path that a slash follows. *)
Fixpoint cuts (l : list ascii) : list (list ascii) :=
  match l with
  | [] => []
  | c :: l' =>
      (if Ascii.eqb c "/" then [[]] else []) ++ map (cons c) (cuts l')
  end.

(** The directories above [p], the outermost first. The root and the
    working directory, which are always there, are left out. *)
Definition ancestors (p : string) : list string :=
  map Js.of_chars
    (List.filter (fun d => negb (length d =? 0)%nat) (cuts (Js.chars p))).

Definition isFileAt (fs : t) (p : string) : bool :=
  match fs !! p with Some (File _) => true | _ => false end.

(** The directory an entry at [p] is made in has to be there: the call
    fails with ENOTDIR when a regular file is on the way and with
    ENOENT when the directory is missing. *)
Definition resolveParent (fs : t) (p : string) (syscall : string)
  : result unit :=
  match last (ancestors p) with
  | None => Ok tt
  | Some dir =>
      match fs !! dir with
      | Some Dir => Ok tt
      | Some (File _) => Throw ("ENOTDIR: not a directory, " +:+ syscall)
      | None =>
          if existsb (isFileAt fs) (ancestors p)
          then Throw ("ENOTDIR: not a directory, " +:+ syscall)
          else Throw ("ENOENT: no such file or directory, " +:+ syscall)
      end
  end.

(** Creates or replaces the whole file. *)
Definition writeFileSync (fs : t) (p : string) (c : string) : result t :=
  match resolveParent fs p "open" with
  | Throw message => Throw message
  | Ok _ =>
      match fs !! p with
      | Some Dir => Throw "EISDIR: illegal operation on a directory, open"
      | _ => Ok (<[p := File c]> fs)
      end
  end.

Definition unlinkSync (fs : t) (p : string) : result t :=
  match fs !! p with
  | Some (File _) => Ok (delete p fs)
  | Some Dir => Throw "EISDIR: illegal operation on a directory, unlink"
  | None => Throw "ENOENT: no such file or directory, unlink"
  end.

(** The directories of [dirs] are made one after the other where they
    are missing. *)
Fixpoint mkdirs (dirs : list string) (fs : t) : result t :=
  match dirs with
  | [] => Ok fs
  | d :: rest =>
      match fs !! d with
      | Some (File _) => Throw "ENOTDIR: not a directory, mkdir"
      | Some Dir => mkdirs rest fs
      | None => mkdirs rest (<[d := Dir]> fs)
      end
  end.

(** [fs.mkdirSync(p, { recursive: true })]: the directories above [p]
    that are missing are made too. *)
Definition mkdirSync (fs : t) (p : string) : result t :=
  match fs !! p with
  | Some (File _) => Throw "EEXIST: file already exists, mkdir"
  | Some Dir => Ok fs
  | None => mkdirs (ancestors p ++ [p]) fs
  end.

(** [fs.statSync(p).size] *)
Definition statSync_size (fs : t) (p : string) : result nat :=
  match fs !! p with
  | Some (File c) => Ok (String.length c)
  | Some Dir => Ok 0
  | None => Throw "ENOENT: no such file or directory, stat"
  end.

(** The directory the entry at [p] belongs to is there. *)
Definition parentIsDirectory (fs : t) (p : string) : Prop :=
  match last (ancestors p) with
  | None => True
  | Some dir => fs !! dir = Some Dir
  end.

(** The name of [p] inside [dir] when [p] is an immediate child. *)
Definition child_name (dir p : string) : option string :=
  let d := Js.chars (dir +:+ "/") in
  let l := Js.chars p in
  if Js.startsWith_chars l d then
    let n := drop (length d) l in
    match n with
    | [] => None
    | _ => if existsb (Ascii.eqb "/") n then None else Some (Js.of_chars n)
    end
  else None.

Definition children (fs : t) (dir : string) : list string :=
  omap (fun kv => child_name dir kv.1) (map_to_list fs).

Definition readdirSync (fs : t) (dir : string) : result (list string) :=
  match fs !! dir with
  | Some Dir => Ok (children fs dir)
  | Some (File _) => Throw "ENOTDIR: not a directory, scandir"
  | None => Throw "ENOENT: no such file or directory, scandir"
  end.

End Fs.

#[export] Instance result_bind : MBind Fs.result := fun A B k r => Fs.bind r k.
#[export] Instance result_ret : MRet Fs.result := fun A a => Fs.Ok a.

(* ===================================================================== *)
(** ** The host: what the scripts take from outside the repository       *)
(* ===================================================================== *)

(** One entry of [manifest.builds]; a field that is [undefined] is left
    out of the JSON text. *)
Module Manifest.
Record Entry := {
  name : string;
  platform : string;
  nodeVersion : string;
  hash : option string;
  size : option nat
}.

Record t := {
  version : string;
  buildTime : string;
  builds : list Entry
}.
End Manifest.

(** How a call of the promisified [exec] settles, and the file system
    the child process leaves behind. *)
Inductive ExecResult :=
  | Resolved (stdout stderr : string) (fs : Fs.t)
  | Rejected (message stderr : string) (fs : Fs.t).

Class Host := {
  (** [path.join(__dirname, '..')] *)
  projectRoot : string;
  (** [crypto.createHash(algorithm)]: [None] when the call throws (the
      digest method is not supported), else the digest of the bytes. *)
  createHash : string -> option (string -> string);
  (** [execAsync(command, { cwd, maxBuffer })] *)
  execAsync : string -> Fs.t -> ExecResult;
  (** [require('../package.json').version] *)
  packageVersion : string;
  (** [new Date().toISOString()] *)
  toISOString_now : string;
  (** [JSON.stringify(manifest, null, 2)] *)
  JSON_stringify : Manifest.t -> string;
  (** [JSON.parse(text)] read as a manifest; [None] when it throws. *)
  JSON_parse : string -> option Manifest.t
}.

(** [digest('hex')] *)
Module Hex.

Definition digit (n : nat) : ascii :=
  match n with
  | 0 => "0" | 1 => "1" | 2 => "2" | 3 => "3" | 4 => "4" | 5 => "5"
  | 6 => "6" | 7 => "7" | 8 => "8" | 9 => "9" | 10 => "a" | 11 => "b"
  | 12 => "c" | 13 => "d" | 14 => "e" | _ => "f"
  end%char.

Fixpoint encode (bytes : string) : string :=
  match bytes with
  | EmptyString => EmptyString
  | String b rest =>
      let n := nat_of_ascii b in
      String (digit (n / 16)) (String (digit (n mod 16)) (encode rest))
  end.

End Hex.

(* ===================================================================== *)
(** ** The build script                                                   *)
(* ===================================================================== *)

Module Builder.

Module Opt.
Record t := {
  all : bool;
  platform : option string;
  nodeVersion : option string;
  single : bool;
  dryRun : bool;
  verbose : bool
}.
End Opt.

Definition parseOptions (args : list string) : Opt.t :=
  {| Opt.all := Args.includes args "--all";
     Opt.platform := Args.getArgValue args "--platform";
     Opt.nodeVersion := Args.getArgValue args "--node";
     Opt.single := Args.includes args "--single";
     Opt.dryRun := Args.includes args "--dry-run";
     Opt.verbose := Args.includes args "--verbose" || Args.includes args "-v" |}.

(** One element of the build matrix. *)
Record BuildJob := {
  platform : string;
  platformConfig : Platform.t;
  nodeVersion : string;
  nodeConfig : NodeVersion.t;
  target : string;
  outputName : string
}.

Definition getBinaryName (config : Config) (platformConfig : Platform.t)
    (nodeVersion : string) : string :=
  let prefix := Output.binaryPrefix (output config) in
  let ext := Js.or_empty (Platform.extension platformConfig) in
  prefix +:+ "-" +:+ Platform.artifactName platformConfig
         +:+ "-node" +:+ nodeVersion +:+ ext.

(** [!filter || name === filter] *)
Definition passes (filter : option string) (name : string) : bool :=
  negb (Js.truthy filter)
  || match filter with Some f => Js.str_eq name f | None => false end.

Definition enabledPlatforms (config : Config) (options : Opt.t)
  : list (string * Platform.t) :=
  List.filter (fun e => passes (Opt.platform options) e.1)
    (List.filter (fun e => Platform.enabled e.2)
       (Object_entries (platforms config))).

Definition enabledNodeVersions (config : Config) (options : Opt.t)
  : list (string * NodeVersion.t) :=
  List.filter (fun e => passes (Opt.nodeVersion options) e.1)
    (List.filter (fun e => NodeVersion.enabled e.2 && NodeVersion.supported e.2)
       (Object_entries (nodeVersions config))).

Definition mkJob (config : Config) (p : string * Platform.t)
    (v : string * NodeVersion.t) : BuildJob :=
  {| platform := p.1;
     platformConfig := p.2;
     nodeVersion := v.1;
     nodeConfig := v.2;
     target := NodeVersion.pkgTarget v.2 +:+ "-" +:+ Platform.pkgTarget p.2;
     outputName := getBinaryName config p.2 v.1 |}.

Definition generateBuildMatrix (config : Config) (options : Opt.t)
  : list BuildJob :=
  flat_map (fun p => map (mkJob config p) (enabledNodeVersions config options))
    (enabledPlatforms config options).

(** What [buildTarget] returns. *)
Inductive BuildResult :=
  | DryRun                                    (* { success: true, dryRun: true } *)
  | Built (outputPath : string) (size : nat) (hash : string)
  | Failed (error : string).

Definition success (r : BuildResult) : bool :=
  match r with
  | DryRun | Built _ _ _ => true
  | Failed _ => false
  end.

Definition result_hash (r : BuildResult) : option string :=
  match r with Built _ _ h => Some h | _ => None end.

Definition result_size (r : BuildResult) : option nat :=
  match r with Built _ n _ => Some n | _ => None end.

Section WithHost.
Context `{Host}.

Definition outputDirOf (config : Config) : string :=
  Fs.path_join projectRoot (Output.directory (output config)).

Definition ensureOutputDir (config : Config) (fs : Fs.t)
  : Fs.result (string * Fs.t) :=
  let outputDir := outputDirOf config in
  if negb (Fs.existsSync fs outputDir)
  then fs' ← Fs.mkdirSync fs outputDir; Fs.Ok (outputDir, fs')
  else Fs.Ok (outputDir, fs).

Definition generateHash (config : Config) (fs : Fs.t) (filePath : string)
  : Fs.result string :=
  fileBuffer ← Fs.readFileSync fs filePath;
  match createHash (Output.hashAlgorithm (output config)) with
  | Some hashSum => Fs.Ok (Hex.encode (hashSum fileBuffer))
  | None => Fs.Throw "Digest method not supported"
  end.

Definition pkgCommand (target : BuildJob) (outputPath : string) : string :=
  "npx @yao-pkg/pkg . --target " +:+ Builder.target target
    +:+ " --output " +:+ outputPath +:+ " --compress GZip".

(** What [buildTarget] is suspended on at its [await], if anything. *)
Inductive Pending :=
  | Returned (r : BuildResult)
  | Awaiting (command : string).

Definition buildTarget_begin (options : Opt.t) (target : BuildJob)
    (outputDir : string) : Pending :=
  let outputPath := Fs.path_join outputDir (outputName target) in
  if Opt.dryRun options then Returned DryRun
  else Awaiting (pkgCommand target outputPath).

(** The rest of the [try] block once the child process has exited
    successfully; a [Throw] is what the [catch] clause receives. *)
Definition afterExec (config : Config) (target : BuildJob)
    (outputPath : string) (fs : Fs.t) : Fs.result (BuildResult * Fs.t) :=
  if negb (Fs.existsSync fs outputPath)
  then Fs.Throw ("Binary not created: " +:+ outputPath)
  else
    size ← Fs.statSync_size fs outputPath;
    hash ← generateHash config fs outputPath;
    let hashFile := outputPath +:+ "." +:+ Output.hashAlgorithm (output config) in
    fs' ← Fs.writeFileSync fs hashFile
            (hash +:+ "  " +:+ outputName target +:+ String "010" EmptyString);
    Fs.Ok (Built outputPath size hash, fs').

Definition buildTarget_settle (config : Config) (target : BuildJob)
    (outputDir : string) (r : ExecResult) : BuildResult * Fs.t :=
  let outputPath := Fs.path_join outputDir (outputName target) in
  match r with
  | Resolved _ _ fs =>
      match afterExec config target outputPath fs with
      | Fs.Ok done => done
      | Fs.Throw message => (Failed message, fs)
      end
  | Rejected message _ fs => (Failed message, fs)
  end.

(** [await buildTarget(target, outputDir)] run to completion on [fs]. *)
Definition buildTarget (config : Config) (options : Opt.t) (target : BuildJob)
    (outputDir : string) (fs : Fs.t) : BuildResult * Fs.t :=
  match buildTarget_begin options target outputDir with
  | Returned r => (r, fs)
  | Awaiting command =>
      buildTarget_settle config target outputDir (execAsync command fs)
  end.

(** *** The worker pool of [buildWithConcurrency]

    The workers are coroutines of one thread: each runs until its
    [await], where it holds the job whose build it waits for, and is
    resumed when that build settles. A slot of [workers] is [Some job]
    for a suspended worker and [None] for one that has returned. *)
Record Pool := {
  queue : list BuildJob;
  workers : list (option BuildJob);
  results : list (BuildJob * BuildResult);
  disk : Fs.t
}.

(** Worker [i] at the head of its [while] loop: it leaves when the
    queue is empty, else shifts the next job and suspends on it. *)
Definition worker_loop (i : nat) (p : Pool) : Pool :=
  match queue p with
  | [] =>
      {| queue := []; workers := <[i := None]> (workers p);
         results := results p; disk := disk p |}
  | target :: rest =>
      {| queue := rest; workers := <[i := Some target]> (workers p);
         results := results p; disk := disk p |}
  end.

(** [Array(Math.min(maxConcurrency, matrix.length)).fill(null).map(() => worker())]:
    the workers are started one after the other. *)
Definition spawn (matrix : list BuildJob) (maxConcurrency : nat) (fs : Fs.t)
  : Pool :=
  let n := Nat.min maxConcurrency (length matrix) in
  fold_left (fun p i => worker_loop i p) (seq 0 n)
    {| queue := matrix; workers := replicate n None;
       results := []; disk := fs |}.

(** The build awaited by worker [i] settles: the worker pushes the
    result and goes round its loop. *)
Definition resume (config : Config) (options : Opt.t) (outputDir : string)
    (i : nat) (p : Pool) : option Pool :=
  match workers p !! i with
  | Some (Some target) =>
      let '(result, fs') := buildTarget config options target outputDir (disk p) in
      Some (worker_loop i
              {| queue := queue p; workers := workers p;
                 results := results p ++ [(target, result)]; disk := fs' |})
  | _ => None
  end.

(** One step of the pool: some suspended worker is resumed. *)
Definition step (config : Config) (options : Opt.t) (outputDir : string)
    (p p' : Pool) : Prop :=
  exists i, resume config options outputDir i p = Some p'.

(** The number of builds in flight. *)
Definition inFlight (p : Pool) : nat :=
  length (List.filter (fun w => match w with Some _ => true | None => false end)
            (workers p)).

(** [Promise.all(workers)] has settled: every worker has returned. *)
Definition settled (p : Pool) : bool :=
  forallb (fun w => match w with Some _ => false | None => true end) (workers p).

(** The slots of the suspended workers. *)
Definition suspended (p : Pool) : list nat :=
  List.filter (fun i => match workers p !! i with
                        | Some (Some _) => true
                        | _ => false
                        end) (seq 0 (length (workers p))).

(** The order in which the builds settle is the environment's choice:
    entry [k] of a schedule picks, among the workers then suspended,
    the one whose build settles next (the first when the schedule has
    run out). *)
Definition pick (choice : nat) (p : Pool) : option nat :=
  let s := suspended p in
  s !! (choice mod length s).

Fixpoint drain (config : Config) (options : Opt.t) (outputDir : string)
    (schedule : list nat) (fuel : nat) (p : Pool) : Pool :=
  match fuel with
  | 0 => p
  | S fuel' =>
      match pick (hd 0 schedule) p with
      | Some i =>
          match resume config options outputDir i p with
          | Some p' => drain config options outputDir (tl schedule) fuel' p'
          | None => p
          end
      | None => p
      end
  end.

(** Every resumption writes one result, so [matrix.length] resumptions
    settle the pool. *)
Definition buildWithConcurrency (config : Config) (options : Opt.t)
    (schedule : list nat) (matrix : list BuildJob) (outputDir : string)
    (maxConcurrency : nat) (fs : Fs.t)
  : list (BuildJob * BuildResult) * Fs.t :=
  let p := drain config options outputDir schedule (length matrix)
             (spawn matrix maxConcurrency fs) in
  (results p, disk p).

(** The [for ... of] loop of [main]. *)
Fixpoint buildSequential (config : Config) (options : Opt.t)
    (matrix : list BuildJob) (outputDir : string) (fs : Fs.t)
  : list (BuildJob * BuildResult) * Fs.t :=
  match matrix with
  | [] => ([], fs)
  | target :: rest =>
      let '(result, fs1) := buildTarget config options target outputDir fs in
      let '(results, fs2) := buildSequential config options rest outputDir fs1 in
      ((target, result) :: results, fs2)
  end.

(** [files.forEach(file => fs.unlinkSync(path.join(outputDir, file)))] *)
Fixpoint unlinkEach (outputDir : string) (files : list string) (fs : Fs.t)
  : Fs.t * option string :=
  match files with
  | [] => (fs, None)
  | file :: rest =>
      match Fs.unlinkSync fs (Fs.path_join outputDir file) with
      | Fs.Ok fs' => unlinkEach outputDir rest fs'
      | Fs.Throw message => (fs, Some message)
      end
  end.

Definition manifestEntry (r : BuildJob * BuildResult) : Manifest.Entry :=
  {| Manifest.name := outputName r.1;
     Manifest.platform := platform r.1;
     Manifest.nodeVersion := nodeVersion r.1;
     Manifest.hash := result_hash r.2;
     Manifest.size := result_size r.2 |}.

Definition manifestOf (results : list (BuildJob * BuildResult)) : Manifest.t :=
  {| Manifest.version := packageVersion;
     Manifest.buildTime := toISOString_now;
     Manifest.builds :=
       map manifestEntry (List.filter (fun r => success r.2) results) |}.

Record Summary := {
  total : nat;
  successful : nat;
  failed : nat
}.

(** What a run of the script leaves: the exit code of the process, the
    file system, and the summary when it got as far as printing it. *)
Record Outcome := {
  exitCode : nat;
  final : Fs.t;
  summary : option Summary
}.

(** The tail of [main], from the summary on. *)
Definition conclude (outputDir : string)
    (run : list (BuildJob * BuildResult) * Fs.t) : Outcome :=
  let '(results, fs) := run in
  let successful := length (List.filter (fun r => success r.2) results) in
  let failed := length (List.filter (fun r => negb (success r.2)) results) in
  let report := {| total := length results; successful := successful;
                   failed := failed |} in
  let written :=
    if (0 <? successful)%nat
    then Fs.writeFileSync fs (Fs.path_join outputDir "manifest.json")
           (JSON_stringify (manifestOf results))
    else Fs.Ok fs in
  match written with
  | Fs.Ok fs' =>
      {| exitCode := if (0 <? failed)%nat then 1 else 0;
         final := fs'; summary := Some report |}
  | Fs.Throw _ => {| exitCode := 1; final := fs; summary := Some report |}
  end.

(** The output directory is prepared: created when missing, emptied
    when the configuration asks for it. The second component is the
    message of the exception that stopped the preparation, if any. *)
Definition prepare (config : Config) (options : Opt.t) (fs : Fs.t)
  : Fs.t * option string :=
  match ensureOutputDir config fs with
  | Fs.Throw message => (fs, Some message)
  | Fs.Ok (outputDir, fs1) =>
      if Build.cleanBeforeBuild (build config) && negb (Opt.single options)
      then match Fs.readdirSync fs1 outputDir with
           | Fs.Ok files => unlinkEach outputDir files fs1
           | Fs.Throw message => (fs1, Some message)
           end
      else (fs1, None)
  end.

(** The build phase; [schedule] is the order in which concurrent
    builds settle. *)
Definition runBuilds (config : Config) (options : Opt.t) (schedule : list nat)
    (matrix : list BuildJob) (outputDir : string) (fs : Fs.t)
  : list (BuildJob * BuildResult) * Fs.t :=
  if Build.parallel (build config) && (1 <? length matrix)%nat
  then buildWithConcurrency config options schedule matrix outputDir
         (Build.maxConcurrency (build config)) fs
  else buildSequential config options matrix outputDir fs.

(** [main().catch(error => process.exit(1))] *)
Definition main (config : Config) (options : Opt.t) (schedule : list nat)
    (fs : Fs.t) : Outcome :=
  let matrix := generateBuildMatrix config options in
  if (length matrix =? 0)%nat
  then {| exitCode := 1; final := fs; summary := None |}
  else
    match prepare config options fs with
    | (fs2, Some _) => {| exitCode := 1; final := fs2; summary := None |}
    | (fs2, None) =>
        conclude (outputDirOf config)
          (runBuilds config options schedule matrix (outputDirOf config) fs2)
    end.

End WithHost.

End Builder.

(* ===================================================================== *)
(** ** The hash verification script                                       *)
(* ===================================================================== *)

Module Verifier.

Module Opt.
Record t := {
  file : option string;
  hash : option string;
  manifest : bool;
  verbose : bool
}.
End Opt.

Definition parseOptions (args : list string) : Opt.t :=
  {| Opt.file := Args.getArgValue args "--file";
     Opt.hash := Args.getArgValue args "--hash";
     Opt.manifest := Args.includes args "--manifest";
     Opt.verbose := Args.includes args "--verbose" || Args.includes args "-v" |}.

(** What [verifyFile] and [verifyFileWithHash] return. The expected
    digest is [None] when the caller passed [undefined]. *)
Inductive VerifyResult :=
  | NotFound (error : string)                  (* { success: false, error } *)
  | Compared (expected : option string) (actual : string).
                                   (* { success, expected, actual, match } *)

(** [expectedHash === actualHash] *)
Definition same (expected : option string) (actual : string) : bool :=
  match expected with
  | Some e => Js.str_eq e actual
  | None => false
  end.

Definition success (r : VerifyResult) : bool :=
  match r with
  | NotFound _ => false
  | Compared expected actual => same expected actual
  end.

(** The lines the script prints. *)
Inductive Line :=
  | Banner                                   (* the title block *)
  | ManifestNotFound (manifestPath : string)
  | VerifyingManifest (count : nat)
  | BuildVersion (version : string)
  | BuildTime (buildTime : string)
  | OutputDirNotFound (outputDir : string)
  | NoBinaryFiles
  | Verifying (count : nat)
  | Pass (name : string)                     (* "   (check) name" *)
  | HashIs (actual : string)                 (* "      Hash: ..." *)
  | Fail (name : string)                     (* "   (cross) name" *)
  | ErrorIs (error : string)                 (* "      Error: ..." *)
  | ExpectedIs (expected : option string)    (* "      Expected: ..." *)
  | ActualIs (actual : string)               (* "      Actual:   ..." *)
  | HashVerified (file : string)             (* "(check) Hash verified: ..." *)
  | HashMismatch (file : string)             (* "(cross) Hash mismatch: ..." *)
  | AllVerified
  | VerificationFailed.

Section WithHost.
Context `{Host}.

Definition calculateHash (fs : Fs.t) (filePath : string) (algorithm : string)
  : Fs.result string :=
  fileBuffer ← Fs.readFileSync fs filePath;
  match createHash algorithm with
  | Some hashSum => Fs.Ok (Hex.encode (hashSum fileBuffer))
  | None => Fs.Throw "Digest method not supported"
  end.

Definition verifyFile (config : Config) (fs : Fs.t) (filePath : string)
  : Fs.result VerifyResult :=
  let hashFilePath :=
    filePath +:+ "." +:+ Output.hashAlgorithm (output config) in
  if negb (Fs.existsSync fs filePath)
  then Fs.Ok (NotFound "Binary file not found")
  else if negb (Fs.existsSync fs hashFilePath)
  then Fs.Ok (NotFound "Hash file not found")
  else
    text ← Fs.readFileSync fs hashFilePath;
    let hashContent := Js.trim (Js.utf8 text) in
    let expectedHash := Js.first_token hashContent in
    actualHash ← calculateHash fs filePath (Output.hashAlgorithm (output config));
    Fs.Ok (Compared (Some expectedHash) actualHash).

Definition verifyFileWithHash (config : Config) (fs : Fs.t) (filePath : string)
    (expectedHash : option string) : Fs.result VerifyResult :=
  if negb (Fs.existsSync fs filePath)
  then Fs.Ok (NotFound "Binary file not found")
  else
    actualHash ← calculateHash fs filePath (Output.hashAlgorithm (output config));
    Fs.Ok (Compared expectedHash actualHash).

(** The body of the loops of [verifyManifest] and [verifyAll] after
    the check: what is printed for one artifact. *)
Definition report (options : Opt.t) (name : string) (result : VerifyResult)
  : list Line :=
  if success result
  then Pass name ::
       match result with
       | Compared _ actual => if Opt.verbose options then [HashIs actual] else []
       | NotFound _ => []
       end
  else Fail name ::
       match result with
       | NotFound error =>
           if Js.truthy (Some error) then [ErrorIs error]
           else [ExpectedIs None; ActualIs "undefined"]
       | Compared expected actual => [ExpectedIs expected; ActualIs actual]
       end.

(** A loop over the artifacts to check: [check] verifies one of them.
    The run stops only where a call throws. *)
Fixpoint verifyEach {A} (options : Opt.t) (check : A -> Fs.result VerifyResult)
    (label : A -> string) (items : list A) (allPassed : bool)
  : list Line * Fs.result bool :=
  match items with
  | [] => ([], Fs.Ok allPassed)
  | item :: rest =>
      match check item with
      | Fs.Throw message => ([], Fs.Throw message)
      | Fs.Ok result =>
          let '(lines, r) :=
            verifyEach options check label rest
              (if success result then allPassed else false) in
          (report options (label item) result ++ lines, r)
      end
  end.

Definition outputDirOf (config : Config) : string :=
  Fs.path_join projectRoot (Output.directory (output config)).

Definition verifyManifest (config : Config) (options : Opt.t) (fs : Fs.t)
  : list Line * Fs.result bool :=
  let outputDir := outputDirOf config in
  let manifestPath := Fs.path_join outputDir "manifest.json" in
  if negb (Fs.existsSync fs manifestPath)
  then ([ManifestNotFound manifestPath], Fs.Ok false)
  else
    match Fs.readFileSync fs manifestPath with
    | Fs.Throw message => ([], Fs.Throw message)
    | Fs.Ok text =>
        match JSON_parse text with
        | None => ([], Fs.Throw "SyntaxError")
        | Some manifest =>
            let '(lines, r) :=
              verifyEach options
                (fun build =>
                   verifyFileWithHash config fs
                     (Fs.path_join outputDir (Manifest.name build))
                     (Manifest.hash build))
                Manifest.name (Manifest.builds manifest) true in
            (VerifyingManifest (length (Manifest.builds manifest))
               :: BuildVersion (Manifest.version manifest)
               :: BuildTime (Manifest.buildTime manifest) :: lines, r)
        end
    end.

(** The files [verifyAll] and [packageAll] look at. *)
Definition isBinary (config : Config) (f : string) : bool :=
  negb (Js.endsWith f ("." +:+ Output.hashAlgorithm (output config)))
  && negb (Js.endsWith f ".json")
  && negb (Js.endsWith f ".zip").

Definition verifyAll (config : Config) (options : Opt.t) (fs : Fs.t)
  : list Line * Fs.result bool :=
  let outputDir := outputDirOf config in
  if negb (Fs.existsSync fs outputDir)
  then ([OutputDirNotFound outputDir], Fs.Ok false)
  else
    match Fs.readdirSync fs outputDir with
    | Fs.Throw message => ([], Fs.Throw message)
    | Fs.Ok entries =>
        let files := List.filter (isBinary config) entries in
        if (length files =? 0)%nat
        then ([NoBinaryFiles], Fs.Ok true)
        else
          let '(lines, r) :=
            verifyEach options
              (fun file => verifyFile config fs (Fs.path_join outputDir file))
              (fun file => file) files true in
          (Verifying (length files) :: lines, r)
    end.

(** What is printed for the single file of [--file]. *)
Definition reportSingle (withDigests : bool) (file : string)
    (result : VerifyResult) : list Line :=
  if success result then [HashVerified file]
  else HashMismatch file ::
       match result with
       | NotFound error =>
           if Js.truthy (Some error) then [ErrorIs error]
           else if withDigests then [ExpectedIs None; ActualIs "undefined"]
           else []
       | Compared expected actual =>
           if withDigests then [ExpectedIs expected; ActualIs actual] else []
       end.

(** [main]: the lines printed and the exit code of the process; an
    exception nobody catches ends the process with code 1. *)
Definition main (config : Config) (options : Opt.t) (fs : Fs.t)
  : list Line * nat :=
  let '(lines, outcome) :=
    if Js.truthy (Opt.file options) && Js.truthy (Opt.hash options) then
      let file := Js.or_empty (Opt.file options) in
      match verifyFileWithHash config fs file (Opt.hash options) with
      | Fs.Ok result => (reportSingle true file result, Fs.Ok (success result))
      | Fs.Throw message => ([], Fs.Throw message)
      end
    else if Js.truthy (Opt.file options) then
      let file := Js.or_empty (Opt.file options) in
      match verifyFile config fs file with
      | Fs.Ok result => (reportSingle false file result, Fs.Ok (success result))
      | Fs.Throw message => ([], Fs.Throw message)
      end
    else if Opt.manifest options then verifyManifest config options fs
    else verifyAll config options fs in
  match outcome with
  | Fs.Ok true => (Banner :: lines ++ [AllVerified], 0)
  | Fs.Ok false => (Banner :: lines ++ [VerificationFailed], 1)
  | Fs.Throw _ => (Banner :: lines, 1)
  end.

End WithHost.

End Verifier.

(* ===================================================================== *)
(** ** A host to run the scripts on                                       *)
(* ===================================================================== *)

Module Demo.

(** The text after the first occurrence of [marker]. *)
Fixpoint after (marker l : list ascii) : list ascii :=
  match l with
  | [] => []
  | _ :: l' =>
      if Js.startsWith_chars l marker then drop (length marker) l
      else after marker l'
  end.

(** The text before the first occurrence of [marker]. *)
Fixpoint before (marker l : list ascii) : list ascii :=
  match l with
  | [] => []
  | c :: l' =>
      if Js.startsWith_chars l marker then [] else c :: before marker l'
  end.

Definition argument (flag : string) (command : string) : string :=
  Js.of_chars (before (Js.chars " --") (after (Js.chars (flag +:+ " ")) (Js.chars command))).

(** A stand-in for the packaging tool: it rejects a target that starts
    with "bad", writes nothing for one that starts with "none", and
    else leaves the executable at the output path. *)
Definition pkg (command : string) (fs : Fs.t) : ExecResult :=
  let target := argument "--target" command in
  let out := argument "--output" command in
  if Js.startsWith_chars (Js.chars target) (Js.chars "bad")
  then Rejected ("Command failed: " +:+ command) "Error: unknown target" fs
  else if Js.startsWith_chars (Js.chars target) (Js.chars "none")
  then Resolved "" "" fs
  else Resolved "" "" (<[out := Fs.File ("ELF " +:+ target)]> fs).

(** A stand-in for the digest: the sum of the bytes, on two bytes. *)
Definition sum16 (bytes : string) : string :=
  let n := fold_left (fun acc c => acc + nat_of_ascii c) (Js.chars bytes) 0 in
  String (ascii_of_nat ((n / 256) mod 256)) (String (ascii_of_nat (n mod 256)) EmptyString).

(** A stand-in for [JSON.stringify] on manifests: one line per build. *)
Definition stringify (m : Manifest.t) : string :=
  fold_left
    (fun text e =>
       text +:+ Manifest.name e +:+ " " +:+ Js.or_empty (Manifest.hash e)
            +:+ String "010" EmptyString)
    (Manifest.builds m) (Manifest.version m +:+ String "010" EmptyString).

(** A stand-in for [JSON.parse]: it knows the texts of [known]. *)
Definition parse (known : list Manifest.t) (text : string) : option Manifest.t :=
  List.find (fun m => Js.str_eq (stringify m) text) known.

Definition host (known : list Manifest.t) : Host :=
  {| projectRoot := "/repo";
     createHash := fun algorithm =>
       if Js.str_eq algorithm "sha256" then Some sum16 else None;
     execAsync := pkg;
     packageVersion := "1.0.0";
     toISOString_now := "2024-01-01T00:00:00.000Z";
     JSON_stringify := stringify;
     JSON_parse := parse known |}.

Definition platform (name : string) (enabled : bool) : string * Platform.t :=
  (name, {| Platform.enabled := enabled; Platform.pkgTarget := name;
            Platform.artifactName := name; Platform.extension := None |}).

Definition version (id : string) (enabled supported : bool)
  : string * NodeVersion.t :=
  (id, {| NodeVersion.enabled := enabled; NodeVersion.supported := supported;
          NodeVersion.pkgTarget := "node" +:+ id |}).

Definition config (platforms : list (string * Platform.t))
    (versions : list (string * NodeVersion.t))
    (clean parallel : bool) (maxConcurrency : nat) : Config :=
  {| platforms := JsObject.of_members platforms;
     nodeVersions := JsObject.of_members versions;
     output := {| Output.directory := "dist"; Output.binaryPrefix := "mjml";
                  Output.hashAlgorithm := "sha256";
                  Output.compressionLevel := 9 |};
     build := {| Build.cleanBeforeBuild := clean; Build.parallel := parallel;
                 Build.maxConcurrency := maxConcurrency |} |}.

Definition options (dryRun : bool) : Builder.Opt.t :=
  {| Builder.Opt.all := false; Builder.Opt.platform := None;
     Builder.Opt.nodeVersion := None; Builder.Opt.single := false;
     Builder.Opt.dryRun := dryRun; Builder.Opt.verbose := false |}.

End Demo.

(* ===================================================================== *)
(** ** Vocabulary of the statements                                       *)
(* ===================================================================== *)

Module Spec.

(** Property enumeration order on keys: array indices come first, in
    ascending order; the other keys follow. *)
Definition precedes (k1 k2 : string) : Prop :=
  match Js.array_index k1, Js.array_index k2 with
  | Some m, Some n => (m <= n)%N
  | None, Some _ => False
  | _, _ => True
  end.

Definition entry_precedes {V} (a b : string * V) : Prop := precedes a.1 b.1.

(** The order in which [JsObject.sort_by_index] leaves tagged entries. *)
Definition by_index {V} (a b : N * (string * V)) : Prop := (a.1 <= b.1)%N.

Definition eligiblePlatform (options : Builder.Opt.t) (e : string * Platform.t)
  : bool :=
  Platform.enabled e.2 && Builder.passes (Builder.Opt.platform options) e.1.

Definition eligibleVersion (options : Builder.Opt.t) (e : string * NodeVersion.t)
  : bool :=
  NodeVersion.enabled e.2 && NodeVersion.supported e.2
  && Builder.passes (Builder.Opt.nodeVersion options) e.1.

(** The Cartesian product of the eligible entries of two tables, the
    first table outermost, each in the order given. *)
Definition productPlan (config : Config) (options : Builder.Opt.t)
    (ps : list (string * Platform.t)) (vs : list (string * NodeVersion.t))
  : list Builder.BuildJob :=
  map (fun pv => Builder.mkJob config pv.1 pv.2)
    (list_prod (List.filter (eligiblePlatform options) ps)
               (List.filter (eligibleVersion options) vs)).

(** Following the specification's words: the product of the filtered
    tables "in the configuration's declared ordering". *)
Definition declaredOrderPlan (config : Config) (options : Builder.Opt.t)
  : list Builder.BuildJob :=
  productPlan config options (platforms config) (nodeVersions config).

Definition noIndexKey {V} (o : JsObject.t V) : Prop :=
  Forall (fun e => Js.array_index e.1 = None) o.

(** A run of code points without white space. *)
Definition solid (l : Js.Text) : Prop :=
  Forall (fun c => Js.is_space c = false) l.

(** The jobs whose build is in flight. *)
Definition awaited (p : Builder.Pool) : list Builder.BuildJob :=
  omap id (Builder.workers p).

(** The jobs the pool still has to finish. *)
Definition remaining (p : Builder.Pool) : nat :=
  length (Builder.queue p) + Builder.inFlight p.

Section WithHost.
Context `{Host}.

(** The states a pool goes through. *)
Definition reachable (config : Config) (options : Builder.Opt.t)
    (outputDir : string) (matrix : list Builder.BuildJob) (maxConcurrency : nat)
    (fs : Fs.t) (p : Builder.Pool) : Prop :=
  rtc (Builder.step config options outputDir)
    (Builder.spawn matrix maxConcurrency fs) p.


(** The result is what [buildTarget] returned for the job on some
    state of the file system. *)
Definition builtBy (config : Config) (options : Builder.Opt.t)
    (outputDir : string) (r : Builder.BuildJob * Builder.BuildResult) : Prop :=
  exists fs, r.2 = (Builder.buildTarget config options r.1 outputDir fs).1.

(** What the pool keeps true: the number of workers is fixed; every
    job of the matrix is done, in flight or queued; no worker returns
    while jobs are queued; results come from workers and from
    [buildTarget]. *)
Record invariant (config : Config) (options : Builder.Opt.t)
    (outputDir : string) (matrix : list Builder.BuildJob)
    (maxConcurrency : nat) (p : Builder.Pool) : Prop := {
  inv_workers :
    length (Builder.workers p) = Nat.min maxConcurrency (length matrix);
  inv_jobs :
    Permutation (map fst (Builder.results p) ++ awaited p ++ Builder.queue p)
      matrix;
  inv_returned : Builder.queue p <> [] -> Forall is_Some (Builder.workers p);
  inv_started : Builder.results p <> [] -> Builder.workers p <> [];
  inv_built : Forall (builtBy config options outputDir) (Builder.results p)
}.

Definition manifestPath (config : Config) : string :=
  Fs.path_join (Builder.outputDirOf config) "manifest.json".

End WithHost.

End Spec.

(* ===================================================================== *)
(** ** Paths                                                              *)
(* ===================================================================== *)

Module Path.

(** The text before and after the last slash of a path, if it has one. *)
Fixpoint split_last (l : list ascii) : option (list ascii * list ascii) :=
  match l with
  | [] => None
  | c :: l' =>
      match split_last l' with
      | Some (d, b) => Some (c :: d, b)
      | None => if Ascii.eqb c "/" then Some ([], l') else None
      end
  end.

(** [path.basename(p)] for a normalised path (no trailing slash). *)
Definition basename (p : string) : string :=
  match split_last (Js.chars p) with
  | Some (_, b) => Js.of_chars b
  | None => p
  end.

(** [path.dirname(p)] for a normalised path. *)
Definition dirname (p : string) : string :=
  match split_last (Js.chars p) with
  | Some ([], _) => "/"
  | Some (d, _) => Js.of_chars d
  | None => "."
  end.

(** [path.join(dir, name)] for a [dir] that [dirname] returned. *)
Definition join (dir name : string) : string :=
  if Js.str_eq dir "." then name
  else if Js.str_eq dir "/" then "/" +:+ name
  else dir +:+ "/" +:+ name.

End Path.

(* ===================================================================== *)
(** ** The packaging script                                               *)
(* ===================================================================== *)

(** How the archive written by the [archiver] package ends: its output
    stream closes after [size] bytes, or the archive emits an error.
    Either way the file system is what the streams left. *)
Inductive ArchiveResult :=
  | Closed (size : nat) (fs : Fs.t)
  | Errored (message : string) (fs : Fs.t).

Class Archiver := {
  (** [archiver('zip', { zlib: { level } })] piped to [zipPath], fed
      the entries (source path, name in the archive) and finalized. *)
  zip : nat -> string -> list (string * string) -> Fs.t -> ArchiveResult
}.

Module Packager.

Module Opt.
Record t := {
  file : option string;
  all : bool;
  verbose : bool
}.
End Opt.

Definition parseOptions (args : list string) : Opt.t :=
  {| Opt.file := Args.getArgValue args "--file";
     Opt.all := Args.includes args "--all";
     Opt.verbose := Args.includes args "--verbose" || Args.includes args "-v" |}.

(** [name.replace(/\.(exe)?$/, '')] on the characters of the name: the
    leftmost position where a dot is followed by "exe" and the end of
    the text, or by the end of the text, starts the match, which is
    dropped. *)
Fixpoint stripExe (l : list ascii) : list ascii :=
  match l with
  | [] => []
  | c :: l' =>
      if Ascii.eqb c "."
         && (bool_decide (l' = Js.chars "exe") || bool_decide (l' = []))
      then []
      else c :: stripExe l'
  end.

Definition zipNameOf (binaryName : string) : string :=
  Js.of_chars (stripExe (Js.chars binaryName)) +:+ ".zip".

(** What the promise of [createZip] settles to. *)
Inductive ZipResult :=
  | Zipped (zipPath : string) (size : nat)
  | ZipFailed (message : string).

(** The lines the script prints. *)
Inductive Line :=
  | Banner
  | OutputDirNotFound (outputDir : string)
  | NoBinaryFiles
  | PackagingCount (count : nat)
  | Packaging (file : string)
  | Created (zipName : string) (size : nat)
  | Failed (message : string)
  | BinaryNotFound (filePath : string)
  | SizeIs (size : nat)
  | Complete
  | NotComplete.

Section WithHost.
Context `{Host} `{Archiver}.

(** The entries [createZip] feeds to the archive: the binary under its
    bare name, then its hash file, the README and the LICENSE, each if
    it exists. *)
Definition entriesOf (config : Config) (fs : Fs.t) (binaryPath : string)
  : list (string * string) :=
  let binaryName := Path.basename binaryPath in
  let hashFile := binaryPath +:+ "." +:+ Output.hashAlgorithm (output config) in
  let readmePath := Fs.path_join projectRoot "README.md" in
  let licensePath := Fs.path_join projectRoot "LICENSE" in
  [(binaryPath, binaryName)]
  ++ (if Fs.existsSync fs hashFile
      then [(hashFile, binaryName +:+ "." +:+ Output.hashAlgorithm (output config))]
      else [])
  ++ (if Fs.existsSync fs readmePath then [(readmePath, "README.md")] else [])
  ++ (if Fs.existsSync fs licensePath then [(licensePath, "LICENSE")] else []).

Definition createZip (config : Config) (binaryPath : string) (fs : Fs.t)
  : ZipResult * Fs.t :=
  let binaryName := Path.basename binaryPath in
  let zipName := zipNameOf binaryName in
  let zipPath := Path.join (Path.dirname binaryPath) zipName in
  match zip (Output.compressionLevel (output config)) zipPath
          (entriesOf config fs binaryPath) fs with
  | Closed size fs' => (Zipped zipPath size, fs')
  | Errored message fs' => (ZipFailed message, fs')
  end.

Definition outputDirOf (config : Config) : string :=
  Fs.path_join projectRoot (Output.directory (output config)).

(** The [for ... of] loop of [packageAll]: the lines printed, the
    results pushed and the file system left. *)
Fixpoint packageEach (config : Config) (outputDir : string) (files : list string)
    (fs : Fs.t) : list Line * list (string * bool) * Fs.t :=
  match files with
  | [] => ([], [], fs)
  | file :: rest =>
      let filePath := Fs.path_join outputDir file in
      let '(result, fs1) := createZip config filePath fs in
      let '(lines, results, fs2) := packageEach config outputDir rest fs1 in
      match result with
      | Zipped zipPath size =>
          (Packaging file :: Created (Path.basename zipPath) size :: lines,
           (file, true) :: results, fs2)
      | ZipFailed message =>
          (Packaging file :: Failed message :: lines,
           (file, false) :: results, fs2)
      end
  end.

(** The files [packageAll] looks at. *)
Definition isBinary (config : Config) (f : string) : bool :=
  negb (Js.endsWith f ("." +:+ Output.hashAlgorithm (output config)))
  && negb (Js.endsWith f ".json")
  && negb (Js.endsWith f ".zip").

Definition packageAll (config : Config) (fs : Fs.t)
  : list Line * Fs.t * Fs.result bool :=
  let outputDir := outputDirOf config in
  if negb (Fs.existsSync fs outputDir)
  then ([OutputDirNotFound outputDir], fs, Fs.Ok false)
  else
    match Fs.readdirSync fs outputDir with
    | Fs.Throw message => ([], fs, Fs.Throw message)
    | Fs.Ok entries =>
        let files := List.filter (isBinary config) entries in
        if (length files =? 0)%nat
        then ([NoBinaryFiles], fs, Fs.Ok true)
        else
          let '(lines, results, fs') := packageEach config outputDir files fs in
          (PackagingCount (length files) :: lines, fs',
           Fs.Ok (forallb snd results))
    end.

Definition packageSingle (config : Config) (filePath : string) (fs : Fs.t)
  : list Line * Fs.t * Fs.result bool :=
  if negb (Fs.existsSync fs filePath)
  then ([BinaryNotFound filePath], fs, Fs.Ok false)
  else
    match createZip config filePath fs with
    | (Zipped zipPath size, fs') =>
        ([Packaging (Path.basename filePath);
          Created (Path.basename zipPath) size; SizeIs size], fs', Fs.Ok true)
    | (ZipFailed message, fs') =>
        ([Packaging (Path.basename filePath); Failed message], fs', Fs.Ok false)
    end.

(** [main]: the lines, the file system left and the exit code; a
    rejection nobody handles ends the process with code 1. *)
Definition main (config : Config) (options : Opt.t) (fs : Fs.t)
  : list Line * Fs.t * nat :=
  let '(lines, fs', outcome) :=
    if Js.truthy (Opt.file options)
    then packageSingle config (Js.or_empty (Opt.file options)) fs
    else packageAll config fs in
  match outcome with
  | Fs.Ok true => (Banner :: lines ++ [Complete], fs', 0)
  | Fs.Ok false => (Banner :: lines ++ [NotComplete], fs', 1)
  | Fs.Throw _ => (Banner :: lines, fs', 1)
  end.

End WithHost.

End Packager.

(* ===================================================================== *)
(** ** The clean script                                                   *)
(* ===================================================================== *)

Module Cleaner.

Module Opt.
Record t := {
  force : bool;
  verbose : bool
}.
End Opt.

Definition parseOptions (args : list string) : Opt.t :=
  {| Opt.force := Args.includes args "--force" || Args.includes args "-f";
     Opt.verbose := Args.includes args "--verbose" || Args.includes args "-v" |}.

(** [fs.statSync(p).isDirectory()] *)
Definition isDirectory (fs : Fs.t) (p : string) : Fs.result bool :=
  match fs !! p with
  | Some Fs.Dir => Fs.Ok true
  | Some (Fs.File _) => Fs.Ok false
  | None => Fs.Throw "ENOENT: no such file or directory, stat"
  end.

(** [fs.rmdirSync(p)]: only an empty directory goes. *)
Definition rmdirSync (fs : Fs.t) (p : string) : Fs.result Fs.t :=
  match fs !! p with
  | Some Fs.Dir =>
      match Fs.children fs p with
      | [] => Fs.Ok (delete p fs)
      | _ :: _ => Fs.Throw "ENOTEMPTY: directory not empty, rmdir"
      end
  | Some (Fs.File _) => Fs.Throw "ENOTDIR: not a directory, rmdir"
  | None => Fs.Throw "ENOENT: no such file or directory, rmdir"
  end.

(** The lines the script prints. *)
Inductive Line :=
  | Banner
  | Removing (file : string)
  | NothingToClean
  | AlreadyEmpty
  | OutputDirectory (outputDir : string)
  | FilesToRemove (count : nat)
  | FilesHeader
  | Listed (file : string)
  | AndMore (count : nat)
  | UseForce
  | Cleaning
  | Removed (count : nat).

(** What a call leaves: the lines printed, the file system, and the
    count returned or the exception thrown. *)
Definition Run : Type := list Line * Fs.t * Fs.result nat.

(** [removeDir(dirPath)]. The recursion follows the directory tree;
    [depth] bounds how deep it may go, and [None] tells that the bound
    was reached. *)
Fixpoint removeDir (depth : nat) (options : Opt.t) (dirPath : string)
    (fs : Fs.t) : option Run :=
  match depth with
  | 0 => None
  | S depth' =>
      if negb (Fs.existsSync fs dirPath) then Some ([], fs, Fs.Ok 0)
      else
        match Fs.readdirSync fs dirPath with
        | Fs.Throw message => Some ([], fs, Fs.Throw message)
        | Fs.Ok files =>
            (fix each (files : list string) (fs : Fs.t) (count : nat)
               : option Run :=
               match files with
               | [] => Some ([], fs, Fs.Ok count)
               | file :: rest =>
                   let filePath := Fs.path_join dirPath file in
                   match isDirectory fs filePath with
                   | Fs.Throw message => Some ([], fs, Fs.Throw message)
                   | Fs.Ok true =>
                       match removeDir depth' options filePath fs with
                       | None => None
                       | Some (lines, fs1, Fs.Throw message) =>
                           Some (lines, fs1, Fs.Throw message)
                       | Some (lines, fs1, Fs.Ok n) =>
                           match rmdirSync fs1 filePath with
                           | Fs.Throw message => Some (lines, fs1, Fs.Throw message)
                           | Fs.Ok fs2 =>
                               match each rest fs2 (count + n) with
                               | None => None
                               | Some (more, fs3, r) => Some (lines ++ more, fs3, r)
                               end
                           end
                       end
                   | Fs.Ok false =>
                       let lines :=
                         if Opt.verbose options then [Removing file] else [] in
                       match Fs.unlinkSync fs filePath with
                       | Fs.Throw message => Some (lines, fs, Fs.Throw message)
                       | Fs.Ok fs1 =>
                           match each rest fs1 (count + 1) with
                           | None => None
                           | Some (more, fs2, r) => Some (lines ++ more, fs2, r)
                           end
                       end
                   end
               end) files fs 0
        end
  end.

Section WithHost.
Context `{Host}.

Definition outputDirOf (config : Config) : string :=
  Fs.path_join projectRoot (Output.directory (output config)).

(** [main]: the lines printed, the file system left and the exit code
    (1 for an exception nobody catches). [depth] bounds the depth of
    the directory tree under the output directory. *)
Definition main (depth : nat) (config : Config) (options : Opt.t) (fs : Fs.t)
  : option (list Line * Fs.t * nat) :=
  let outputDir := outputDirOf config in
  if negb (Fs.existsSync fs outputDir)
  then Some ([Banner; NothingToClean], fs, 0)
  else
    match Fs.readdirSync fs outputDir with
    | Fs.Throw _ => Some ([Banner], fs, 1)
    | Fs.Ok files =>
        if (length files =? 0)%nat
        then Some ([Banner; AlreadyEmpty], fs, 0)
        else
          let head := [Banner; OutputDirectory outputDir;
                       FilesToRemove (length files)] in
          if negb (Opt.force options)
          then
            Some (head ++ FilesHeader :: map Listed (take 10 files)
                    ++ (if (10 <? length files)%nat
                        then [AndMore (length files - 10)] else [])
                    ++ [UseForce], fs, 0)
          else
            match removeDir depth options outputDir fs with
            | None => None
            | Some (lines, fs1, Fs.Throw _) =>
                Some (head ++ Cleaning :: lines, fs1, 1)
            | Some (lines, fs1, Fs.Ok count) =>
                match Fs.mkdirSync fs1 outputDir with
                | Fs.Throw _ => Some (head ++ Cleaning :: lines, fs1, 1)
                | Fs.Ok fs2 =>
                    Some (head ++ Cleaning :: lines ++ [Removed count], fs2, 0)
                end
            end
    end.

End WithHost.

End Cleaner.

(** A stand-in for the archiver: it fails on a source that is not a
    regular file, and else writes an archive whose bytes are the entry
    names. *)
Module DemoZip.

Definition archive (level : nat) (zipPath : string)
    (entries : list (string * string)) (fs : Fs.t) : ArchiveResult :=
  if forallb (fun e => match fs !! e.1 with
                       | Some (Fs.File _) => true
                       | _ => false
                       end) entries
  then
    let bytes := fold_left (fun text e => text +:+ e.2 +:+ ";") entries "PK" in
    Closed (String.length bytes) (<[zipPath := Fs.File bytes]> fs)
  else Errored "EISDIR: illegal operation on a directory, read" fs.

Definition archiver : Archiver := {| zip := archive |}.

End DemoZip.

(* ===================================================================== *)
(** ** Further vocabulary                                                 *)
(* ===================================================================== *)

Module More.

(** The options with both filters taken away. *)
Definition unfiltered (options : Builder.Opt.t) : Builder.Opt.t :=
  {| Builder.Opt.all := Builder.Opt.all options;
     Builder.Opt.platform := None;
     Builder.Opt.nodeVersion := None;
     Builder.Opt.single := Builder.Opt.single options;
     Builder.Opt.dryRun := Builder.Opt.dryRun options;
     Builder.Opt.verbose := Builder.Opt.verbose options |}.

(** A job passes the filters of the command line. *)
Definition selected (options : Builder.Opt.t) (job : Builder.BuildJob) : bool :=
  Builder.passes (Builder.Opt.platform options) (Builder.platform job)
  && Builder.passes (Builder.Opt.nodeVersion options) (Builder.nodeVersion job).

(** The pair a job stands for. *)
Definition pairOf (job : Builder.BuildJob) : string * string :=
  (Builder.platform job, Builder.nodeVersion job).

(** [p] lies below the directory [dir], at any depth. *)
Definition under (dir p : string) : Prop :=
  exists rest, p = Fs.path_join dir rest.

(** Every entry that can be reached from [dir] is a regular file or a
    directory, and the directories nest fewer than [depth] levels. *)
Fixpoint treeWithin (depth : nat) (fs : Fs.t) (dir : string) : bool :=
  match depth with
  | 0 => false
  | S depth' =>
      forallb (fun name =>
                 match fs !! Fs.path_join dir name with
                 | Some (Fs.File _) => true
                 | Some Fs.Dir => treeWithin depth' fs (Fs.path_join dir name)
                 | None => false
                 end) (Fs.children fs dir)
  end.




Definition isFile (entry : string * Fs.node) : bool :=
  match entry.2 with Fs.File _ => true | Fs.Dir => false end.

(** How many regular files the file system holds. *)
Definition regularFiles (fs : Fs.t) : nat :=
  length (List.filter isFile (map_to_list fs)).

End More.

(* ===================================================================== *)
(** * Properties                                                          *)
(* ===================================================================== *)

Local Open Scope nat_scope.

(** ** Strings and their characters *)

Section Characters.
Implicit Types (s t : string) (l : list ascii).

Lemma chars_app s t : Js.chars (s +:+ t) = Js.chars s ++ Js.chars t.
Proof. induction s as [|c s IH]; simpl; [done|]. by rewrite IH. Qed.

Lemma of_chars_chars s : Js.of_chars (Js.chars s) = s.
Proof. induction s as [|c s IH]; simpl; [done|]. by rewrite IH. Qed.

Lemma chars_of_chars l : Js.chars (Js.of_chars l) = l.
Proof. induction l as [|c l IH]; simpl; [done|]. by rewrite IH. Qed.

End Characters.

(** ** The file system: writing *)

Section Writing.
Implicit Types (fs : Fs.t) (p c : string).

Lemma cuts_app (l l' : list ascii) :
  Fs.cuts (l ++ l') = Fs.cuts l ++ map (app l) (Fs.cuts l').
Proof.
  induction l as [|a l IH]; simpl.
  - by rewrite map_id.
  - rewrite IH, map_app, map_map, <- app_assoc. done.
Qed.

Lemma cuts_none (l : list ascii) :
  existsb (Ascii.eqb "/") l = false -> Fs.cuts l = [].
Proof.
  induction l as [|a l IH]; cbn [existsb Fs.cuts]; [done|].
  intros [Ha Hl]%orb_false_iff. rewrite Ascii.eqb_sym, Ha, IH by done. done.
Qed.

(** The directory above an entry of [dir] is [dir]. *)
Lemma ancestors_path_join (dir name : string) :
  dir <> "" -> existsb (Ascii.eqb "/") (Js.chars name) = false ->
  Fs.ancestors (Fs.path_join dir name) = Fs.ancestors dir ++ [dir].
Proof.
  intros Hdir Hname. unfold Fs.ancestors, Fs.path_join.
  rewrite !chars_app, cuts_app. cbn [Js.chars app Fs.cuts].
  rewrite (cuts_none _ Hname), Ascii.eqb_refl. cbn [map app].
  rewrite app_nil_r, List.filter_app, map_app. f_equal. cbn [List.filter].
  destruct (Js.chars dir) as [|a l] eqn:Hchars.
  - destruct dir; done.
  - cbn [length Nat.eqb negb map]. by rewrite <- Hchars, of_chars_chars.
Qed.

Lemma parentIsDirectory_path_join fs (dir name : string) :
  dir <> "" -> existsb (Ascii.eqb "/") (Js.chars name) = false ->
  Fs.parentIsDirectory fs (Fs.path_join dir name) <-> fs !! dir = Some Fs.Dir.
Proof.
  intros Hdir Hname. unfold Fs.parentIsDirectory.
  by rewrite ancestors_path_join, last_snoc.
Qed.

Lemma resolveParent_Ok fs p syscall :
  Fs.resolveParent fs p syscall = Fs.Ok tt <-> Fs.parentIsDirectory fs p.
Proof.
  unfold Fs.resolveParent, Fs.parentIsDirectory.
  destruct (last (Fs.ancestors p)) as [dir|]; [|done].
  destruct (fs !! dir) as [[content|]|]; [done..|].
  by destruct (existsb _ _).
Qed.

Lemma writeFileSync_Ok fs p c :
  Fs.parentIsDirectory fs p -> fs !! p <> Some Fs.Dir ->
  Fs.writeFileSync fs p c = Fs.Ok (<[p := Fs.File c]> fs).
Proof.
  intros Hparent%(resolveParent_Ok _ _ "open") Hdir. unfold Fs.writeFileSync.
  rewrite Hparent. by destruct (fs !! p) as [[content|]|].
Qed.

Lemma writeFileSync_Ok_inv fs p c fs' :
  Fs.writeFileSync fs p c = Fs.Ok fs' ->
  Fs.parentIsDirectory fs p /\ fs !! p <> Some Fs.Dir
  /\ fs' = <[p := Fs.File c]> fs.
Proof.
  unfold Fs.writeFileSync.
  destruct (Fs.resolveParent fs p "open") as [[]|message] eqn:Hparent; [|done].
  apply resolveParent_Ok in Hparent.
  destruct (fs !! p) as [[content|]|]; [|done|]; by intros [= <-].
Qed.

End Writing.

(** ** Lists *)

Lemma filter_Permutation' {A} (f : A -> bool) (l l' : list A) :
  Permutation l l' -> Permutation (List.filter f l) (List.filter f l').
Proof.
  induction 1 as [|x l l' _ IH|x y l|l l' l'' _ IH1 _ IH2]; simpl.
  - constructor.
  - destruct (f x); [by constructor | done].
  - destruct (f x), (f y); try reflexivity. apply perm_swap.
  - by etransitivity.
Qed.

Lemma filter_filter_and {A} (f g : A -> bool) (l : list A) :
  List.filter f (List.filter g l) = List.filter (fun x => g x && f x) l.
Proof.
  induction l as [|x l IH]; simpl; [done|].
  destruct (g x); simpl; [destruct (f x)|]; by rewrite IH.
Qed.

Lemma filter_partition_Permutation {A} (f : A -> bool) (l : list A) :
  Permutation (List.filter f l ++ List.filter (fun x => negb (f x)) l) l.
Proof.
  induction l as [|x l IH]; simpl; [constructor|].
  destruct (f x); simpl.
  - by constructor.
  - rewrite <- Permutation_middle. by constructor.
Qed.

Lemma filter_all {A} (f : A -> bool) (l : list A) :
  Forall (fun x => f x = true) l -> List.filter f l = l.
Proof.
  induction 1 as [|x l Hx _ IH]; simpl; [done|]. by rewrite Hx, IH.
Qed.

Lemma filter_none {A} (f : A -> bool) (l : list A) :
  Forall (fun x => f x = false) l -> List.filter f l = [].
Proof.
  induction 1 as [|x l Hx _ IH]; simpl; [done|]. by rewrite Hx, IH.
Qed.

Lemma flat_map_list_prod {A B C} (f : A * B -> C) (l : list A) (l' : list B) :
  flat_map (fun a => map (fun b => f (a, b)) l') l = map f (list_prod l l').
Proof.
  induction l as [|a l IH]; simpl; [done|].
  by rewrite map_app, map_map, IH.
Qed.

Lemma length_list_prod {A B} (l : list A) (l' : list B) :
  length (list_prod l l') = length l * length l'.
Proof.
  induction l as [|a l IH]; simpl; [done|].
  by rewrite length_app, length_map, IH.
Qed.

Lemma list_prod_Permutation {A B} (l1 l2 : list A) (l1' l2' : list B) :
  Permutation l1 l2 -> Permutation l1' l2' ->
  Permutation (list_prod l1 l1') (list_prod l2 l2').
Proof.
  intros H1 H2.
  transitivity (list_prod l1 l2').
  - clear H1. induction l1 as [|a l1 IH]; simpl; [constructor|].
    apply Permutation_app; [by apply Permutation_map | done].
  - clear H2. induction H1 as [|x l l' _ IH|x y l|l l' l'' _ IH1 _ IH2]; simpl.
    + constructor.
    + by apply Permutation_app_head.
    + rewrite !app_assoc. apply Permutation_app_tail, Permutation_app_comm.
    + by etransitivity.
Qed.

Lemma StronglySorted_app {A} (R : A -> A -> Prop) (l1 l2 : list A) :
  StronglySorted R l1 -> StronglySorted R l2 ->
  (forall a b, In a l1 -> In b l2 -> R a b) ->
  StronglySorted R (l1 ++ l2).
Proof.
  induction 1 as [|a l1 Hs IH Ha]; simpl; intros H2 Hx; [done|].
  constructor.
  - apply IH; [done|]. intros; apply Hx; simpl; auto.
  - apply Forall_app; split; [done|].
    apply List.Forall_forall. intros b Hb. apply Hx; simpl; auto.
Qed.


(** ** Objects: [Object.entries] *)

Section Objects.
Context {V : Type}.
Implicit Types (o : JsObject.t V) (e : N * (string * V)).

Local Abbreviation by_index := (@Spec.by_index V).

Lemma insert_sorted_Permutation e l :
  Permutation (JsObject.insert_sorted e l) (e :: l).
Proof.
  induction l as [|e' l IH]; simpl; [done|].
  destruct (e.1 <? e'.1)%N; [done|].
  rewrite IH. apply perm_swap.
Qed.

Lemma sort_by_index_Permutation (l : list (N * (string * V))) :
  Permutation (JsObject.sort_by_index l) l.
Proof.
  induction l as [|e l IH]; simpl; [done|].
  rewrite insert_sorted_Permutation. by constructor.
Qed.

Lemma insert_sorted_sorted e l :
  StronglySorted by_index l -> StronglySorted by_index (JsObject.insert_sorted e l).
Proof.
  induction 1 as [|e' l Hs IH He']; simpl; [repeat constructor|].
  destruct (e.1 <? e'.1)%N eqn:Hlt.
  - apply N.ltb_lt in Hlt. constructor; [by constructor|].
    constructor; [unfold Spec.by_index; lia|].
    eapply List.Forall_impl; [|exact He']. unfold Spec.by_index. intros; simpl in *. lia.
  - apply N.ltb_ge in Hlt. constructor; [done|].
    eapply Permutation_Forall; [symmetry; apply insert_sorted_Permutation|].
    by constructor.
Qed.

Lemma sort_by_index_sorted (l : list (N * (string * V))) :
  StronglySorted by_index (JsObject.sort_by_index l).
Proof.
  induction l as [|e l IH]; simpl; [constructor|]. by apply insert_sorted_sorted.
Qed.

Lemma indexed_tag o :
  Forall (fun e => Js.array_index e.2.1 = Some e.1) (JsObject.indexed o).
Proof.
  induction o as [|[k v] o IH]; simpl; [constructor|].
  destruct (Js.array_index k) eqn:Hk; [by constructor|done].
Qed.

Lemma named_untagged o :
  Forall (fun kv => Js.array_index kv.1 = None) (JsObject.named o).
Proof.
  apply List.Forall_forall. intros kv Hin.
  apply List.filter_In in Hin as [_ Hin].
  by destruct (Js.array_index kv.1).
Qed.

Lemma indexed_named_Permutation o :
  Permutation (map snd (JsObject.indexed o) ++ JsObject.named o) o.
Proof.
  induction o as [|[k v] o IH]; simpl; [done|].
  unfold JsObject.named in *; simpl.
  destruct (Js.array_index k); simpl.
  - by constructor.
  - rewrite <- Permutation_middle. by constructor.
Qed.

(** [Object.entries] lists every property once. *)
Lemma Object_entries_Permutation o : Permutation (Object_entries o) o.
Proof.
  unfold Object_entries.
  rewrite (Permutation_map snd (sort_by_index_Permutation (JsObject.indexed o))).
  apply indexed_named_Permutation.
Qed.

Lemma tagged_sorted_precedes (l : list (N * (string * V))) :
  Forall (fun e => Js.array_index e.2.1 = Some e.1) l ->
  StronglySorted by_index l ->
  StronglySorted Spec.entry_precedes (map snd l).
Proof.
  intros Htag. induction 1 as [|e l Hs IH He]; simpl; [constructor|].
  apply Forall_cons in Htag as [Htag1 Htag]. constructor; [by apply IH|].
  apply Forall_map. apply List.Forall_forall. intros e' Hin.
  rewrite List.Forall_forall in He, Htag.
  unfold Spec.entry_precedes, Spec.precedes.
  rewrite Htag1, (Htag _ Hin). by apply He.
Qed.

Lemma named_sorted (l : list (string * V)) :
  Forall (fun kv => Js.array_index kv.1 = None) l ->
  StronglySorted Spec.entry_precedes l.
Proof.
  induction 1 as [|kv l Hkv Hl IH]; constructor; [done|].
  eapply List.Forall_impl; [|exact Hl]. intros kv' Hkv'.
  unfold Spec.entry_precedes, Spec.precedes. by rewrite Hkv, Hkv'.
Qed.

(** [Object.entries] lists the array-index keys first, in ascending
    order. *)
Lemma Object_entries_sorted o :
  StronglySorted Spec.entry_precedes (Object_entries o).
Proof.
  unfold Object_entries. apply StronglySorted_app.
  - apply tagged_sorted_precedes.
    + eapply Permutation_Forall; [symmetry; apply sort_by_index_Permutation|].
      apply indexed_tag.
    + apply sort_by_index_sorted.
  - apply named_sorted, named_untagged.
  - intros a b Ha Hb.
    pose proof (named_untagged o) as Hn. rewrite List.Forall_forall in Hn.
    unfold Spec.entry_precedes, Spec.precedes. rewrite (Hn _ Hb).
    by destruct (Js.array_index a.1).
Qed.

(** Without array-index keys, [Object.entries] follows creation order. *)
Lemma Object_entries_noIndexKey o :
  Spec.noIndexKey o -> Object_entries o = o.
Proof.
  intros Hno. unfold Object_entries.
  assert (JsObject.indexed o = []) as ->.
  { induction Hno as [|[k v] o Hk _ IH]; simpl in *; [done|]. by rewrite Hk. }
  simpl. apply filter_all. eapply List.Forall_impl; [|exact Hno].
  intros kv Hkv; simpl. by rewrite Hkv.
Qed.

End Objects.

(** ** The planner *)

Section Planner.
Import Builder.
Implicit Types (config : Config) (options : Opt.t).

Lemma generateBuildMatrix_productPlan config options :
  generateBuildMatrix config options
  = Spec.productPlan config options
      (Object_entries (platforms config)) (Object_entries (nodeVersions config)).
Proof.
  unfold generateBuildMatrix, Spec.productPlan, enabledPlatforms,
    enabledNodeVersions.
  rewrite !filter_filter_and, <- flat_map_list_prod. reflexivity.
Qed.

Lemma productPlan_Permutation config options ps ps' vs vs' :
  Permutation ps ps' -> Permutation vs vs' ->
  Permutation (Spec.productPlan config options ps vs)
              (Spec.productPlan config options ps' vs').
Proof.
  intros Hp Hv. unfold Spec.productPlan.
  apply Permutation_map, list_prod_Permutation; by apply filter_Permutation'.
Qed.

Lemma In_productPlan config options ps vs job :
  In job (Spec.productPlan config options ps vs) <->
  exists p v, In p ps /\ In v vs
    /\ Spec.eligiblePlatform options p = true
    /\ Spec.eligibleVersion options v = true
    /\ job = mkJob config p v.
Proof.
  unfold Spec.productPlan. rewrite List.in_map_iff. split.
  - intros ([p v] & <- & Hin). apply in_prod_iff in Hin as [Hp Hv].
    apply List.filter_In in Hp as [Hp Hp'], Hv as [Hv Hv'].
    by exists p, v.
  - intros (p & v & Hp & Hv & Hp' & Hv' & ->). exists (p, v). split; [done|].
    apply in_prod_iff; split; apply List.filter_In; done.
Qed.

End Planner.

(** C1. The build matrix is the Cartesian product of the platforms that
    are enabled and pass the platform filter with the versions that are
    enabled, supported and pass the version filter: it holds one job
    for every such pair, its length is the product of the two counts,
    and every job carries an enabled platform and a version that is
    both enabled and supported. *)
Theorem planner_cartesian_product (config : Config) (options : Builder.Opt.t) :
  let ps := List.filter (Spec.eligiblePlatform options) (platforms config) in
  let vs := List.filter (Spec.eligibleVersion options) (nodeVersions config) in
  let matrix := Builder.generateBuildMatrix config options in
  Permutation matrix
    (map (fun pv => Builder.mkJob config pv.1 pv.2) (list_prod ps vs))
  /\ length matrix = length ps * length vs
  /\ Forall (fun job =>
       In (Builder.platform job, Builder.platformConfig job) (platforms config)
       /\ In (Builder.nodeVersion job, Builder.nodeConfig job) (nodeVersions config)
       /\ Platform.enabled (Builder.platformConfig job) = true
       /\ Builder.passes (Builder.Opt.platform options) (Builder.platform job) = true
       /\ NodeVersion.enabled (Builder.nodeConfig job) = true
       /\ NodeVersion.supported (Builder.nodeConfig job) = true
       /\ Builder.passes (Builder.Opt.nodeVersion options) (Builder.nodeVersion job) = true)
     matrix.
Proof.
  intros ps vs matrix.
  assert (Permutation matrix (Spec.declaredOrderPlan config options)) as Hperm.
  { subst matrix. rewrite generateBuildMatrix_productPlan.
    apply productPlan_Permutation; apply Object_entries_Permutation. }
  split; [exact Hperm|]. split.
  - rewrite (Permutation_length Hperm). unfold Spec.declaredOrderPlan, Spec.productPlan.
    by rewrite length_map, length_list_prod.
  - apply List.Forall_forall. intros job Hin.
    apply (Permutation_in _ Hperm) in Hin.
    apply In_productPlan in Hin as (p & v & Hp & Hv & Hp' & Hv' & ->).
    unfold Spec.eligiblePlatform, Spec.eligibleVersion in *.
    destruct p as [pn pc], v as [vn vc]; simpl in *.
    apply andb_true_iff in Hp' as [? ?].
    apply andb_true_iff in Hv' as [Hv' ?]. apply andb_true_iff in Hv' as [? ?].
    done.
Qed.

(** C7 (as stated, refuted). With the versions declared "22" then "18",
    the jobs do not come in the declared order: the job list differs
    from the product of the filtered tables taken in declared order. *)
Lemma planner_not_in_declared_order :
  let config :=
    Demo.config [Demo.platform "macos-arm64" true]
      [Demo.version "22" true true; Demo.version "18" true true] false false 1 in
  map fst (nodeVersions config) = ["22"; "18"]
  /\ map Builder.nodeVersion (Spec.declaredOrderPlan config (Demo.options false))
     = ["22"; "18"]
  /\ map Builder.nodeVersion (Builder.generateBuildMatrix config (Demo.options false))
     = ["18"; "22"]
  /\ Builder.generateBuildMatrix config (Demo.options false)
     <> Spec.declaredOrderPlan config (Demo.options false).
Proof.
  repeat split; try reflexivity. vm_compute. discriminate.
Qed.

(** C7 (amended). The job list is a function of the two tables, the
    binary prefix and the two filters alone: runs that agree on these
    produce the same list in the same order, whatever else differs. The
    order is platform-major, each table in property order: ids that are
    array indices (canonical decimal integers below 2^32 - 1) first, in
    ascending numeric order, then the other ids in declared order; so
    for tables without such ids it is the declared order. *)
Theorem planner_deterministic (config config' : Config)
    (options options' : Builder.Opt.t) :
  platforms config = platforms config' ->
  nodeVersions config = nodeVersions config' ->
  Output.binaryPrefix (output config) = Output.binaryPrefix (output config') ->
  Builder.Opt.platform options = Builder.Opt.platform options' ->
  Builder.Opt.nodeVersion options = Builder.Opt.nodeVersion options' ->
  Builder.generateBuildMatrix config options
  = Builder.generateBuildMatrix config' options'
  /\ Builder.generateBuildMatrix config options
     = Spec.productPlan config options
         (Object_entries (platforms config)) (Object_entries (nodeVersions config))
  /\ StronglySorted Spec.entry_precedes (Object_entries (platforms config))
  /\ StronglySorted Spec.entry_precedes (Object_entries (nodeVersions config))
  /\ JsObject.named (platforms config)
     = List.filter (fun e => bool_decide (Js.array_index e.1 = None)) (platforms config)
  /\ (Spec.noIndexKey (platforms config) ->
      Spec.noIndexKey (nodeVersions config) ->
      Builder.generateBuildMatrix config options
      = Spec.declaredOrderPlan config options).
Proof.
  intros Hp Hv Hb Hfp Hfv. repeat split.
  - unfold Builder.generateBuildMatrix, Builder.enabledPlatforms,
      Builder.enabledNodeVersions.
    rewrite Hp, Hv, Hfp, Hfv.
    apply flat_map_ext. intros p. apply map_ext. intros v.
    unfold Builder.mkJob, Builder.getBinaryName. by rewrite Hb.
  - apply generateBuildMatrix_productPlan.
  - apply Object_entries_sorted.
  - apply Object_entries_sorted.
  - unfold JsObject.named. apply List.filter_ext. intros e.
    by destruct (Js.array_index e.1).
  - intros Np Nv. rewrite generateBuildMatrix_productPlan.
    unfold Spec.declaredOrderPlan.
    by rewrite (Object_entries_noIndexKey _ Np), (Object_entries_noIndexKey _ Nv).
Qed.

Lemma planner_deterministic_witness :
  let config :=
    Demo.config [Demo.platform "linux-x64" true; Demo.platform "macos-x64" true]
      [Demo.version "lts" true true] false false 1 in
  let config' :=
    Demo.config [Demo.platform "linux-x64" true; Demo.platform "macos-x64" true]
      [Demo.version "lts" true true] true true 4 in
  Builder.generateBuildMatrix config (Demo.options false)
  = Builder.generateBuildMatrix config' (Demo.options true).
Proof.
  intros config config'.
  exact (proj1 (planner_deterministic config config'
                  (Demo.options false) (Demo.options true)
                  eq_refl eq_refl eq_refl eq_refl eq_refl)).
Defined.




(** ** The build executor *)

Section Executor.
Import Builder.
Context `{Host}.
Variables (config : Config) (options : Opt.t) (outputDir : string).
Implicit Types (p : Pool) (matrix : list BuildJob) (ws : list (option BuildJob)).

Local Abbreviation step := (Builder.step config options outputDir).
Local Abbreviation resume := (Builder.resume config options outputDir).

Lemma inFlight_awaited p : inFlight p = length (Spec.awaited p).
Proof.
  unfold inFlight, Spec.awaited. induction (workers p) as [|[j|] ws IH]; simpl;
    [done| |done]. by rewrite IH.
Qed.

Lemma awaited_insert_None ws i target :
  ws !! i = Some (Some target) ->
  Permutation (omap id ws) (target :: omap id (<[i := None]> ws)).
Proof.
  revert i. induction ws as [|w ws IH]; intros [|i] Hi; simpl in *; try done.
  - by simplify_eq.
  - destruct w as [j|]; simpl.
    + rewrite (IH _ Hi). apply perm_swap.
    + by apply IH.
Qed.

Lemma awaited_insert_Some ws i target next :
  ws !! i = Some (Some target) ->
  Permutation (next :: omap id ws) (target :: omap id (<[i := Some next]> ws)).
Proof.
  revert i. induction ws as [|w ws IH]; intros [|i] Hi; simpl in *; try done.
  - simplify_eq. apply perm_swap.
  - destruct w as [j|]; simpl.
    + rewrite perm_swap, (IH _ Hi). apply perm_swap.
    + by apply IH.
Qed.

Lemma spawn_fold n : forall i q done rs fs,
  n <= length q -> length done = i ->
  fold_left (fun p j => worker_loop j p) (seq i n)
    {| queue := q; workers := done ++ replicate n None; results := rs; disk := fs |}
  = {| queue := drop n q; workers := done ++ map Some (take n q);
       results := rs; disk := fs |}.
Proof.
  induction n as [|n IH]; intros i q done rs fs Hn Hi; simpl.
  - by rewrite drop_0.
  - destruct q as [|target q]; simpl in *; [lia|].
    unfold worker_loop at 2; simpl.
    rewrite insert_app_r_alt by lia. rewrite Hi, Nat.sub_diag. simpl.
    rewrite (cons_middle (Some target)), app_assoc.
    rewrite (IH (S i)); [|lia|rewrite length_app; simpl; lia].
    by rewrite <- app_assoc.
Qed.

(** The pool starts with [min maxConcurrency matrix.length] workers,
    each suspended on one of the first jobs of the matrix. *)
Lemma spawn_shape matrix maxConcurrency fs :
  let n := Nat.min maxConcurrency (length matrix) in
  spawn matrix maxConcurrency fs
  = {| queue := drop n matrix; workers := map Some (take n matrix);
       results := []; disk := fs |}.
Proof.
  intros n. unfold spawn. fold n.
  apply (spawn_fold n 0 matrix [] [] fs); [lia|done].
Qed.

Local Abbreviation invariant := (Spec.invariant config options outputDir).

Lemma omap_id_Some (l : list BuildJob) : omap id (map Some l) = l.
Proof. induction l as [|x l IH]; [done|]. cbn. by f_equal. Qed.

Lemma invariant_spawn matrix maxConcurrency fs :
  invariant matrix maxConcurrency (spawn matrix maxConcurrency fs).
Proof.
  rewrite spawn_shape. split; simpl.
  - rewrite length_map, length_take_le; lia.
  - unfold Spec.awaited. cbn [workers queue].
    by rewrite omap_id_Some, take_drop.
  - intros _. apply Forall_map. by apply List.Forall_forall.
  - done.
  - constructor.
Qed.

Lemma invariant_resume matrix maxConcurrency i p p' :
  invariant matrix maxConcurrency p -> resume i p = Some p' ->
  invariant matrix maxConcurrency p'.
Proof.
  intros [Hw Hj Hr Hs Hb]. unfold Builder.resume.
  destruct (workers p !! i) as [[target|]|] eqn:Hi; try done.
  destruct (buildTarget config options target outputDir (disk p))
    as [result fs'] eqn:Hbuild.
  intros [= <-]. unfold worker_loop; simpl.
  assert (Forall (Spec.builtBy config options outputDir)
            (results p ++ [(target, result)])) as Hb'.
  { apply Forall_app; split; [done|]. constructor; [|done].
    exists (disk p). simpl. by rewrite Hbuild. }
  destruct (queue p) as [|next rest] eqn:Hq; split; simpl;
    rewrite ?length_insert; try done.
  - rewrite map_app, app_nil_r in *. simpl.
    unfold Spec.awaited in *; simpl.
    rewrite <- Hj, <- app_assoc. apply Permutation_app_head. simpl.
    by rewrite (awaited_insert_None _ _ _ Hi).
  - intros _ Hnil. apply (f_equal length) in Hnil. rewrite length_insert in Hnil.
    apply lookup_lt_Some in Hi. simpl in Hnil. lia.
  - rewrite map_app. unfold Spec.awaited in *; simpl.
    rewrite <- Hj, <- !app_assoc. apply Permutation_app_head. simpl.
    rewrite <- (Permutation_middle _ rest next).
    rewrite !app_comm_cons. apply Permutation_app_tail.
    symmetry. apply (awaited_insert_Some _ _ _ _ Hi).
  - intros _. assert (Forall is_Some (workers p)) as Hall by (by apply Hr).
    apply Forall_insert; [done|by eexists].
  - intros _ Hnil. apply (f_equal length) in Hnil. rewrite length_insert in Hnil.
    apply lookup_lt_Some in Hi. simpl in Hnil. lia.
Qed.

Lemma invariant_reachable matrix maxConcurrency fs p :
  Spec.reachable config options outputDir matrix maxConcurrency fs p ->
  invariant matrix maxConcurrency p.
Proof.
  unfold Spec.reachable. revert p. apply rtc_ind_r.
  - apply invariant_spawn.
  - intros p p' _ [i Hstep] IH. by eapply invariant_resume.
Qed.

Lemma settled_inFlight p : settled p = true <-> inFlight p = 0.
Proof.
  unfold settled, inFlight. induction (workers p) as [|[j|] ws IH]; simpl;
    [done|split; done|done].
Qed.

Lemma pick_Some choice p i :
  pick choice p = Some i -> exists target, workers p !! i = Some (Some target).
Proof.
  unfold pick. intros Hi. apply list_elem_of_lookup_2, list_elem_of_In in Hi.
  unfold suspended in Hi. apply List.filter_In in Hi as [_ Hi].
  destruct (workers p !! i) as [[target|]|]; try done. by exists target.
Qed.

Lemma pick_None choice p : pick choice p = None -> settled p = true.
Proof.
  unfold pick. intros Hnone. apply lookup_ge_None in Hnone.
  assert (suspended p = []) as Hs.
  { destruct (suspended p) as [|i s] eqn:Hs; [done|]. exfalso.
    pose proof (Nat.mod_upper_bound choice (length (i :: s))) as Hlt.
    simpl in *. lia. }
  apply settled_inFlight. unfold inFlight.
  destruct (List.filter _ (workers p)) as [|w l] eqn:Hf; [done|]. exfalso.
  assert (In w (List.filter
                  (fun w => match w with Some _ => true | None => false end)
                  (workers p))) as Hin by (rewrite Hf; by left).
  apply List.filter_In in Hin as [Hin Hw]. destruct w as [target|]; [|done].
  apply list_elem_of_In, list_elem_of_lookup in Hin as [i Hi].
  assert (In i (suspended p)) as Hsusp.
  { unfold suspended. apply List.filter_In. split; [|by rewrite Hi].
    apply in_seq. apply lookup_lt_Some in Hi. lia. }
  by rewrite Hs in Hsusp.
Qed.

Lemma resume_remaining i p p' :
  resume i p = Some p' -> Spec.remaining p = S (Spec.remaining p').
Proof.
  unfold Builder.resume, Spec.remaining.
  destruct (workers p !! i) as [[target|]|] eqn:Hi; try done.
  destruct (buildTarget config options target outputDir (disk p)) as [result fs'].
  intros [= <-]. rewrite !inFlight_awaited. unfold Spec.awaited, worker_loop; simpl.
  destruct (queue p) as [|next rest]; simpl.
  - by rewrite (Permutation_length (awaited_insert_None _ _ _ Hi)).
  - pose proof (Permutation_length (awaited_insert_Some _ _ _ next Hi)) as Hlen.
    simpl in Hlen. lia.
Qed.

(** A run of the pool under a schedule goes through steps of the pool. *)
Lemma drain_steps fuel : forall schedule p,
  rtc step p (drain config options outputDir schedule fuel p).
Proof.
  induction fuel as [|fuel IH]; intros schedule p; simpl; [done|].
  destruct (pick (hd 0 schedule) p) as [i|]; [|done].
  destruct (resume i p) as [p'|] eqn:Hstep; [|done].
  eapply rtc_l; [by exists i|]. apply IH.
Qed.

(** With fuel for every remaining job, the run ends with every worker
    returned. *)
Lemma drain_settled fuel : forall schedule p,
  Spec.remaining p <= fuel ->
  settled (drain config options outputDir schedule fuel p) = true.
Proof.
  induction fuel as [|fuel IH]; intros schedule p Hfuel; simpl.
  - apply settled_inFlight. unfold Spec.remaining in Hfuel. lia.
  - destruct (pick (hd 0 schedule) p) as [i|] eqn:Hpick;
      [|by eapply pick_None].
    destruct (pick_Some _ _ _ Hpick) as [target Hi].
    destruct (resume i p) as [p'|] eqn:Hstep.
    + apply IH. apply resume_remaining in Hstep. lia.
    + unfold Builder.resume in Hstep. rewrite Hi in Hstep.
      by destruct (buildTarget config options target outputDir (disk p)).
Qed.

Lemma spawn_remaining matrix maxConcurrency fs :
  Spec.remaining (spawn matrix maxConcurrency fs) = length matrix.
Proof.
  unfold Spec.remaining. rewrite inFlight_awaited, spawn_shape. unfold Spec.awaited.
  cbn [workers queue]. rewrite omap_id_Some, length_drop, length_take. lia.
Qed.

(** [buildWithConcurrency] returns the results and the file system of
    a reachable pool whose workers have all returned. *)
Lemma buildWithConcurrency_settled schedule matrix maxConcurrency fs :
  let p := drain config options outputDir schedule (length matrix)
             (spawn matrix maxConcurrency fs) in
  Spec.reachable config options outputDir matrix maxConcurrency fs p
  /\ settled p = true
  /\ buildWithConcurrency config options schedule matrix outputDir maxConcurrency fs
     = (results p, disk p).
Proof.
  intros p. split; [apply drain_steps|]. split; [|done].
  apply drain_settled. by rewrite spawn_remaining.
Qed.

(** Once every worker has returned, a pool that had a worker has built
    every job. *)
Lemma settled_complete matrix maxConcurrency p :
  invariant matrix maxConcurrency p -> settled p = true -> workers p <> [] ->
  queue p = [] /\ Permutation (map fst (results p)) matrix.
Proof.
  intros [Hw Hj Hr Hs Hb] Hsettled Hsome.
  assert (queue p = []) as Hq.
  { destruct (queue p) as [|j q] eqn:Hq; [done|]. exfalso.
    assert (Forall is_Some (workers p)) as Hall by (by apply Hr).
    unfold settled in Hsettled. destruct (workers p) as [|w ws]; [done|].
    apply Forall_cons in Hall as [[j' ->] _]. done. }
  split; [done|]. rewrite <- Hj, Hq.
  assert (Spec.awaited p = []) as ->.
  { apply length_zero_iff_nil. rewrite <- inFlight_awaited.
    by apply settled_inFlight. }
  by rewrite !app_nil_r.
Qed.

Lemma buildSequential_jobs matrix : forall fs,
  map fst (buildSequential config options matrix outputDir fs).1 = matrix
  /\ Forall (Spec.builtBy config options outputDir)
       (buildSequential config options matrix outputDir fs).1.
Proof.
  induction matrix as [|target matrix IH]; intros fs; simpl; [by split|].
  destruct (buildTarget config options target outputDir fs) as [result fs1] eqn:Hb.
  destruct (buildSequential config options matrix outputDir fs1)
    as [results fs2] eqn:Hs.
  specialize (IH fs1). rewrite Hs in IH. destruct IH as [IH1 IH2]. simpl in *.
  split; [by rewrite IH1|]. constructor; [|done].
  exists fs. simpl. by rewrite Hb.
Qed.

(** One job and at least one worker: the pool does what the loop does. *)
Lemma buildWithConcurrency_single schedule target maxConcurrency fs :
  1 <= maxConcurrency ->
  buildWithConcurrency config options schedule [target] outputDir maxConcurrency fs
  = buildSequential config options [target] outputDir fs.
Proof.
  intros HK. unfold buildWithConcurrency. rewrite spawn_shape.
  replace (Nat.min maxConcurrency (length [target])) with 1 by (simpl; lia).
  simpl. unfold pick, suspended; simpl.
  unfold Builder.resume; simpl.
  by destruct (buildTarget config options target outputDir fs) as [result fs'].
Qed.

End Executor.

Section Runs.
Import Builder.
Context `{Host}.
Implicit Types (config : Config) (options : Opt.t) (matrix : list BuildJob).

Lemma filter_length_split {A} (f : A -> bool) (l : list A) :
  length (List.filter f l) + length (List.filter (fun x => negb (f x)) l)
  = length l.
Proof.
  by rewrite <- length_app, (Permutation_length (filter_partition_Permutation f l)).
Qed.

Lemma conclude_summary outputDir results fs :
  summary (conclude outputDir (results, fs))
  = Some {| total := length results;
            successful := length (List.filter (fun r => success r.2) results);
            failed := length (List.filter (fun r => negb (success r.2)) results) |}.
Proof.
  unfold conclude.
  by destruct (0 <? _)%nat; [destruct (Fs.writeFileSync _ _ _)|].
Qed.


Lemma buildTarget_dryRun config options target outputDir fs :
  Opt.dryRun options = true ->
  buildTarget config options target outputDir fs = (DryRun, fs).
Proof. intros Hdry. unfold buildTarget, buildTarget_begin. by rewrite Hdry. Qed.



End Runs.




(** C6 (as stated, refuted). With parallel execution enabled and a
    concurrency limit of 0, the pool has min(0, 2) = 0 workers and its
    queue is never drained: the run ends with both jobs still queued,
    no result, a summary of zero builds and exit code 0. *)
Lemma pool_without_workers_drains_nothing :
  let config :=
    Demo.config [Demo.platform "linux-x64" true]
      [Demo.version "18" true true; Demo.version "20" true true] false true 0 in
  let options := Demo.options false in
  let matrix := Builder.generateBuildMatrix config options in
  let p :=
    @Builder.drain (Demo.host []) config options "/repo/dist" [] (length matrix)
      (Builder.spawn matrix 0 ∅) in
  Build.parallel (build config) = true
  /\ length matrix = 2
  /\ Builder.settled p = true
  /\ Builder.queue p = matrix
  /\ Builder.queue p <> []
  /\ Builder.results p = []
  /\ (let run := @Builder.main (Demo.host []) config options [] ∅ in
      Builder.summary run
        = Some {| Builder.total := 0; Builder.successful := 0; Builder.failed := 0 |}
      /\ Builder.exitCode run = 0).
Proof.
  vm_compute. repeat split; discriminate.
Qed.

(** C6 (amended). For a concurrency limit of at least 1: with parallel
    execution enabled the build phase is the run of a pool of exactly
    min(K, N) workers over the shared queue; in every state of the pool
    at most K builds are in flight; when the workers have all returned
    the queue is empty and every job has its result; and the run under
    any schedule reaches such a state. With parallel execution disabled
    the jobs are built one after the other in plan order. *)
Theorem executor_concurrency `{Host} (config : Config) (options : Builder.Opt.t)
    (schedule : list nat) (matrix : list Builder.BuildJob) (outputDir : string)
    (fs : Fs.t) :
  let K := Build.maxConcurrency (build config) in
  let N := length matrix in
  1 <= K ->
  (Build.parallel (build config) = true ->
   Builder.runBuilds config options schedule matrix outputDir fs
   = Builder.buildWithConcurrency config options schedule matrix outputDir K fs)
  /\ length (Builder.workers (Builder.spawn matrix K fs)) = Nat.min K N
  /\ Builder.inFlight (Builder.spawn matrix K fs) = Nat.min K N
  /\ (forall p, Spec.reachable config options outputDir matrix K fs p ->
        length (Builder.workers p) = Nat.min K N /\ Builder.inFlight p <= K)
  /\ (forall p, Spec.reachable config options outputDir matrix K fs p ->
        Builder.settled p = true ->
        Builder.queue p = [] /\ Permutation (map fst (Builder.results p)) matrix)
  /\ (let p := Builder.drain config options outputDir schedule N
                 (Builder.spawn matrix K fs) in
      Spec.reachable config options outputDir matrix K fs p
      /\ Builder.settled p = true
      /\ Builder.buildWithConcurrency config options schedule matrix outputDir K fs
         = (Builder.results p, Builder.disk p))
  /\ (Build.parallel (build config) = false ->
      Builder.runBuilds config options schedule matrix outputDir fs
      = Builder.buildSequential config options matrix outputDir fs
      /\ map fst (Builder.buildSequential config options matrix outputDir fs).1
         = matrix).
Proof.
  intros K N HK.
  assert (forall p, Spec.reachable config options outputDir matrix K fs p ->
                    Builder.settled p = true ->
                    Builder.queue p = []
                    /\ Permutation (map fst (Builder.results p)) matrix) as Hdone.
  { intros p Hreach Hsettled.
    apply (invariant_reachable config options outputDir) in Hreach as Hinv.
    destruct matrix as [|target matrix'] eqn:Hm.
    - destruct Hinv as [_ Hj _ _ _]. symmetry in Hj. apply Permutation_nil in Hj.
      apply app_eq_nil in Hj as [-> Hj]. by apply app_eq_nil in Hj as [_ ->].
    - eapply settled_complete; [exact Hinv|done|].
      intros Hnil. apply (f_equal length) in Hnil.
      rewrite (Spec.inv_workers _ _ _ _ _ _ Hinv) in Hnil. simpl in Hnil. lia. }
  split; [|split; [|split; [|split; [|split; [exact Hdone|split]]]]].
  - intros Hpar. unfold Builder.runBuilds. rewrite Hpar. simpl.
    destruct (1 <? length matrix) eqn:HN; [done|].
    apply Nat.ltb_ge in HN. destruct matrix as [|target [|? ?]]; simpl in HN.
    + unfold Builder.buildWithConcurrency. by rewrite spawn_shape.
    + symmetry. by apply buildWithConcurrency_single.
    + lia.
  - apply (invariant_spawn config options outputDir).
  - rewrite inFlight_awaited, spawn_shape. unfold Spec.awaited. cbn [Builder.workers].
    rewrite omap_id_Some, length_take. fold N. lia.
  - intros p Hreach.
    apply (invariant_reachable config options outputDir) in Hreach as [Hw _ _ _ _].
    split; [done|]. unfold Builder.inFlight.
    etransitivity; [apply List.filter_length_le|]. rewrite Hw. lia.
  - apply buildWithConcurrency_settled.
  - intros Hseq. split; [|apply buildSequential_jobs].
    unfold Builder.runBuilds. by rewrite Hseq.
Qed.

Lemma executor_concurrency_witness :
  let config :=
    Demo.config [Demo.platform "linux-x64" true; Demo.platform "macos-x64" true]
      [Demo.version "18" true true; Demo.version "20" true true] false true 3 in
  let options := Demo.options false in
  let matrix := Builder.generateBuildMatrix config options in
  1 <= Build.maxConcurrency (build config)
  /\ length (Builder.workers (Builder.spawn matrix 3 ∅)) = 3
  /\ map Builder.outputName
       (map fst (@Builder.buildWithConcurrency (Demo.host []) config options
                   [2; 0; 1] matrix "/repo/dist" 3 ∅).1)
     = ["mjml-macos-x64-node18"; "mjml-linux-x64-node18";
        "mjml-macos-x64-node20"; "mjml-linux-x64-node20"].
Proof.
  intros config options matrix. split; [simpl; lia|]. split.
  - refine (proj1 (proj2 (@executor_concurrency (Demo.host []) config options
                            [] matrix "/repo/dist" ∅ _))).
    simpl; lia.
  - vm_compute. reflexivity.
Defined.

(** C5. A run that ends before the build phase (the plan is empty, or
    the output directory cannot be prepared) writes no manifest. A run
    that gets through it writes the manifest exactly when at least one
    result is successful, the output directory being a directory and
    the path of the manifest none: the file then holds the
    serialisation of one entry per successful result, in order, with
    the name, platform, version, digest and size of that result and
    nothing for a failed one, and replaces whatever was at that path.
    With no successful result the file system is left as the builds
    left it; so it is, with exit code 1, where the write throws. *)
Theorem manifest_written_iff_success `{Host} (config : Config)
    (options : Builder.Opt.t) (schedule : list nat) (fs : Fs.t) :
  let matrix := Builder.generateBuildMatrix config options in
  let outputDir := Builder.outputDirOf config in
  let path := Spec.manifestPath config in
  let done := Builder.main config options schedule fs in
  (matrix = [] -> Builder.final done = fs)
  /\ (forall fs1 message,
        matrix <> [] ->
        Builder.prepare config options fs = (fs1, Some message) ->
        Builder.final done = fs1)
  /\ (forall fs2,
        matrix <> [] ->
        Builder.prepare config options fs = (fs2, None) ->
        let run := Builder.runBuilds config options schedule matrix outputDir fs2 in
        let succeeded := List.filter (fun r => Builder.success r.2) run.1 in
        let written := Builder.manifestOf run.1 in
        (succeeded = [] -> Builder.final done = run.2)
        /\ (succeeded <> [] ->
            run.2 !! outputDir = Some Fs.Dir -> run.2 !! path <> Some Fs.Dir ->
            Builder.final done
            = <[path := Fs.File (JSON_stringify written)]> run.2)
        /\ (succeeded <> [] ->
            ~ (run.2 !! outputDir = Some Fs.Dir /\ run.2 !! path <> Some Fs.Dir) ->
            Builder.final done = run.2 /\ Builder.exitCode done = 1)
        /\ Forall2
             (fun e r =>
                Builder.success r.2 = true
                /\ In r run.1
                /\ Manifest.name e = Builder.outputName r.1
                /\ Manifest.platform e = Builder.platform r.1
                /\ Manifest.nodeVersion e = Builder.nodeVersion r.1
                /\ Manifest.hash e = Builder.result_hash r.2
                /\ Manifest.size e = Builder.result_size r.2)
             (Manifest.builds written) succeeded).
Proof.
  intros matrix outputDir path done. subst done. unfold Builder.main.
  fold matrix outputDir. split; [by intros ->|]. split.
  { intros fs1 message Hne Hprep.
    destruct (length matrix =? 0) eqn:Hz;
      [apply Nat.eqb_eq, length_zero_iff_nil in Hz; done|]. by rewrite Hprep. }
  intros fs2 Hne Hprep.
  destruct (length matrix =? 0) eqn:Hz;
    [apply Nat.eqb_eq, length_zero_iff_nil in Hz; done|].
  rewrite Hprep.
  destruct (Builder.runBuilds config options schedule matrix outputDir fs2)
    as [results fs3].
  cbn [fst snd]. unfold Builder.conclude.
  set (succeeded := List.filter (fun r => Builder.success r.2) results).
  change (Fs.path_join outputDir "manifest.json") with path.
  assert (Fs.parentIsDirectory fs3 path <-> fs3 !! outputDir = Some Fs.Dir)
    as Hparent_iff.
  { apply parentIsDirectory_path_join; [|reflexivity].
    subst outputDir. unfold Builder.outputDirOf, Fs.path_join.
    by destruct projectRoot. }
  split; [by intros ->|]. split; [|split].
  - intros Hsome Hparent%Hparent_iff Hdir.
    destruct (0 <? length succeeded) eqn:Hpos;
      [|apply Nat.ltb_ge in Hpos; destruct succeeded; [done|simpl in Hpos; lia]].
    by rewrite (writeFileSync_Ok _ _ _ Hparent Hdir).
  - intros Hsome Hno.
    destruct (0 <? length succeeded) eqn:Hpos;
      [|apply Nat.ltb_ge in Hpos; destruct succeeded; [done|simpl in Hpos; lia]].
    destruct (Fs.writeFileSync fs3 path _) as [fs4|message] eqn:Hw; [|done].
    apply writeFileSync_Ok_inv in Hw as (?%Hparent_iff & ? & _). by destruct Hno.
  - apply Forall2_fmap_l, Forall_Forall2_diag, List.Forall_forall.
    intros r Hin. apply List.filter_In in Hin as [Hin Hr]. done.
Qed.

(** C8 (the code at a failing input). A dry run with cleaning
    configured, on an output directory that holds a file of an earlier
    build: the job reports synthetic success and the tool is not run,
    yet the file is deleted and a manifest is written; on an empty
    file system the output directory is created. *)
Theorem dry_run_changes_output_directory :
  let config :=
    Demo.config [Demo.platform "linux-x64" true] [Demo.version "20" true true]
      true false 1 in
  let options := Demo.options true in
  let fs : Fs.t :=
    <["/repo/dist/mjml-old" := Fs.File "previous build"]>
      (<["/repo/dist" := Fs.Dir]> ∅) in
  let done := @Builder.main (Demo.host []) config options [] fs in
  Builder.Opt.dryRun options = true
  /\ Builder.summary done
     = Some {| Builder.total := 1; Builder.successful := 1; Builder.failed := 0 |}
  /\ fs !! "/repo/dist/mjml-old" = Some (Fs.File "previous build")
  /\ Builder.final done !! "/repo/dist/mjml-old" = None
  /\ fs !! "/repo/dist/manifest.json" = None
  /\ (exists text,
        Builder.final done !! "/repo/dist/manifest.json" = Some (Fs.File text))
  /\ Builder.final done !! "/repo/dist/mjml-linux-x64-node20" = None
  /\ Builder.final done <> fs
  /\ Builder.final (@Builder.main (Demo.host []) config options [] ∅)
       !! "/repo/dist" = Some Fs.Dir.
Proof.
  intros config options fs done.
  repeat split; try (vm_compute; reflexivity).
  - eexists. vm_compute. reflexivity.
  - intros Heq. apply (f_equal (fun m : Fs.t => m !! "/repo/dist/mjml-old")) in Heq.
    vm_compute in Heq. discriminate Heq.
Qed.

(** ** Strings: reading a sidecar back *)

Section Strings.
Implicit Types (s t : string) (l : list ascii).

Lemma append_longer s t : t <> "" -> s +:+ t <> s.
Proof.
  intros Ht Heq. apply (f_equal (fun x => length (Js.chars x))) in Heq.
  rewrite chars_app, length_app in Heq. destruct t; [done|]. simpl in Heq. lia.
Qed.

Local Abbreviation solid := Spec.solid.
Local Abbreviation single := (map (fun c : ascii => [c])).

Lemma hex_digit_solid n : Js.is_space [Hex.digit n] = false.
Proof. do 15 (destruct n as [|n]; [reflexivity|]). reflexivity. Qed.

Lemma hex_digit_ascii n : Js.within 0 127 (Hex.digit n) = true.
Proof. do 15 (destruct n as [|n]; [reflexivity|]). reflexivity. Qed.

Lemma hex_solid bytes : solid (single (Js.chars (Hex.encode bytes))).
Proof.
  induction bytes as [|b bytes IH]; simpl; [constructor|].
  repeat constructor; [apply hex_digit_solid..|exact IH].
Qed.

Lemma hex_ascii bytes :
  Forall (fun c => Js.within 0 127 c = true) (Js.chars (Hex.encode bytes)).
Proof.
  induction bytes as [|b bytes IH]; simpl; [constructor|].
  repeat constructor; [apply hex_digit_ascii..|exact IH].
Qed.

Lemma hex_nonempty bytes : bytes <> "" -> Js.chars (Hex.encode bytes) <> [].
Proof. by destruct bytes. Qed.

(** A run of ASCII bytes is decoded byte by byte, whatever follows. *)
Lemma utf8_chars_ascii l rest :
  Forall (fun c => Js.within 0 127 c = true) l ->
  Js.utf8_chars (l ++ rest) = single l ++ Js.utf8_chars rest.
Proof.
  induction 1 as [|c l Hc _ IH]; [done|]. cbn [app map Js.utf8_chars].
  by rewrite Hc, IH.
Qed.

Lemma of_text_single l : Js.of_text (single l) = Js.of_chars l.
Proof.
  unfold Js.of_text. f_equal. induction l as [|c l IH]; simpl; [done|].
  by rewrite IH.
Qed.

Lemma dropSpaces_head (c : list ascii) (t : Js.Text) :
  Js.is_space c = false -> Js.dropSpaces (c :: t) = c :: t.
Proof. intros Hc. simpl. by rewrite Hc. Qed.

Lemma dropSpaces_before (c : list ascii) (t front : Js.Text) :
  Js.is_space c = false ->
  exists kept dropped,
    front = dropped ++ kept /\ Js.dropSpaces (front ++ c :: t) = kept ++ c :: t.
Proof.
  intros Hc. induction front as [|d front IH].
  - exists [], []. split; [done|]. by apply dropSpaces_head.
  - simpl. destruct (Js.is_space d) eqn:Hd.
    + destruct IH as (kept & dropped & -> & ->). by exists kept, (d :: dropped).
    + by exists (d :: front), [].
Qed.

(** Trimming keeps a leading run of code points that are not blank and
    a prefix of what follows it. *)
Lemma trim_solid_prefix (t rest : Js.Text) :
  t <> [] -> solid t ->
  exists kept dropped,
    rest = kept ++ dropped /\ Js.trim (t ++ rest) = t ++ kept.
Proof.
  intros Hne Hs. unfold Js.trim.
  assert (Js.dropSpaces (t ++ rest) = t ++ rest) as ->.
  { destruct Hs as [|c t Hc _]; [done|]. by apply dropSpaces_head. }
  rewrite rev_app_distr.
  destruct (rev t) as [|c back] eqn:Hrev.
  { apply (f_equal (@rev (list ascii))) in Hrev.
    by rewrite rev_involutive in Hrev. }
  assert (Js.is_space c = false) as Hc.
  { unfold Spec.solid in Hs. rewrite List.Forall_forall in Hs. apply Hs.
    apply in_rev. rewrite Hrev. by left. }
  destruct (dropSpaces_before c back (rev rest) Hc)
    as (kept & dropped & Hrest & ->).
  exists (rev kept), (rev dropped). split.
  - by rewrite <- rev_app_distr, <- Hrest, rev_involutive.
  - by rewrite rev_app_distr, <- Hrev, rev_involutive.
Qed.

Lemma split_ws_go_solid (t : Js.Text) : forall rest cur,
  solid t ->
  Js.split_ws_go (t ++ rest) cur false = Js.split_ws_go rest (rev t ++ cur) false.
Proof.
  induction t as [|c t IH]; intros rest cur Hs; [done|].
  apply Forall_cons in Hs as [Hc Hs]. simpl. rewrite Hc, IH by done.
  by rewrite <- app_assoc.
Qed.

(** The first token of a text that starts with a run of code points
    that are not blank, followed by nothing or by a blank, is that
    run. *)
Lemma first_token_solid (t rest : Js.Text) :
  solid t ->
  match rest with [] => True | c :: _ => Js.is_space c = true end ->
  Js.first_token (t ++ rest) = Js.of_text t.
Proof.
  intros Hs Hrest. unfold Js.first_token, Js.split_ws.
  rewrite split_ws_go_solid by done.
  destruct rest as [|c rest]; simpl.
  - by rewrite app_nil_r, rev_involutive.
  - by rewrite Hrest, app_nil_r, rev_involutive.
Qed.

Lemma dropSpaces_blank (lead t : Js.Text) :
  Forall (fun c => Js.is_space c = true) lead ->
  Js.dropSpaces (lead ++ t) = Js.dropSpaces t.
Proof. induction 1 as [|c lead Hc _ IH]; [done|]. simpl. by rewrite Hc. Qed.

(** A text that is blanks, then a run of code points that are not
    blank, then nothing or a blank and whatever: its first token, once
    trimmed, is the run. *)
Lemma first_token_trim (lead t rest : Js.Text) :
  Forall (fun c => Js.is_space c = true) lead ->
  t <> [] -> solid t ->
  match rest with [] => True | c :: _ => Js.is_space c = true end ->
  Js.first_token (Js.trim (lead ++ t ++ rest)) = Js.of_text t.
Proof.
  intros Hlead Hne Hs Hrest.
  assert (Js.trim (lead ++ t ++ rest) = Js.trim (t ++ rest)) as ->.
  { unfold Js.trim. rewrite dropSpaces_blank by done.
    destruct Hs as [|c t Hc _]; [done|]. simpl. by rewrite Hc. }
  destruct (trim_solid_prefix t rest) as (kept & dropped & Hkept & ->);
    [done..|].
  apply first_token_solid; [done|].
  destruct kept as [|c kept]; [done|]. by subst rest.
Qed.

(** The first token of a text that starts with a run of code points
    that are not blank starts with that run. *)
Lemma split_ws_go_head (rest : Js.Text) : forall cur,
  exists more tail, Js.split_ws_go rest cur false = (rev cur ++ more) :: tail.
Proof.
  induction rest as [|c rest IH]; intros cur; simpl.
  - exists [], []. by rewrite app_nil_r.
  - destruct (Js.is_space c).
    + exists [], (Js.split_ws_go rest [] true). by rewrite app_nil_r.
    + destruct (IH (c :: cur)) as (more & tail & ->).
      exists (c :: more), tail. simpl. by rewrite <- app_assoc.
Qed.

Lemma first_token_starts (t rest : Js.Text) :
  solid t ->
  exists more, Js.first_token (t ++ rest) = Js.of_text (t ++ more).
Proof.
  intros Hs. unfold Js.first_token, Js.split_ws.
  rewrite split_ws_go_solid by done.
  destruct (split_ws_go_head rest (rev t ++ [])) as (more & tail & ->).
  exists more. simpl. by rewrite app_nil_r, rev_involutive.
Qed.

Lemma of_text_app (t t' : Js.Text) :
  Js.of_text (t ++ t') = Js.of_text t +:+ Js.of_text t'.
Proof.
  unfold Js.of_text. rewrite concat_app.
  induction (concat t) as [|c l IH]; simpl; [done|]. by rewrite IH.
Qed.

(** Reading back the line [digest  name\n], for a digest of ASCII
    characters that are not blank. *)
Lemma sidecar_read_back digest name :
  digest <> "" ->
  Forall (fun c => Js.within 0 127 c = true) (Js.chars digest) ->
  solid (single (Js.chars digest)) ->
  Js.first_token
    (Js.trim (Js.utf8 (digest +:+ "  " +:+ name +:+ String "010" EmptyString)))
  = digest.
Proof.
  intros Hne Hascii Hs. unfold Js.utf8. rewrite chars_app, utf8_chars_ascii by done.
  pose proof (first_token_trim [] (single (Js.chars digest))
                (Js.utf8_chars
                   (Js.chars ("  " +:+ name +:+ String "010" EmptyString))))
    as Hread.
  cbn [app] in Hread. rewrite Hread.
  - by rewrite of_text_single, of_chars_chars.
  - constructor.
  - by destruct digest.
  - done.
  - reflexivity.
Qed.

End Strings.

(** ** The hasher *)

(** C3. When the packaging tool has left the artifact at its output
    path (in a directory that is there, so that the sidecar can be
    written), the build computes the digest of its bytes, returns it, and
    writes the sidecar "<digest>  <name>\n" at the artifact path
    followed by "." and the hash algorithm; the first token read back
    from that sidecar is the digest, and verifying the artifact against
    it compares the digest with itself. *)
Theorem hasher_round_trip `{Host} (config : Config) (options : Builder.Opt.t)
    (target : Builder.BuildJob) (outputDir : string) (fs fs1 : Fs.t)
    (stdout stderr bytes : string) (hashSum : string -> string) :
  let outputPath := Fs.path_join outputDir (Builder.outputName target) in
  let algorithm := Output.hashAlgorithm (output config) in
  let sidecar := outputPath +:+ "." +:+ algorithm in
  let digest := Hex.encode (hashSum bytes) in
  let text := digest +:+ "  " +:+ Builder.outputName target
                     +:+ String "010" EmptyString in
  let fs2 := <[sidecar := Fs.File text]> fs1 in
  Builder.Opt.dryRun options = false ->
  execAsync (Builder.pkgCommand target outputPath) fs = Resolved stdout stderr fs1 ->
  fs1 !! outputPath = Some (Fs.File bytes) ->
  createHash algorithm = Some hashSum ->
  hashSum bytes <> "" ->
  fs1 !! sidecar <> Some Fs.Dir ->
  Fs.parentIsDirectory fs1 sidecar ->
  Builder.generateHash config fs1 outputPath = Fs.Ok digest
  /\ Builder.buildTarget config options target outputDir fs
     = (Builder.Built outputPath (String.length bytes) digest, fs2)
  /\ fs2 !! sidecar = Some (Fs.File text)
  /\ Js.first_token (Js.trim (Js.utf8 text)) = digest
  /\ Verifier.calculateHash fs2 outputPath algorithm = Fs.Ok digest
  /\ Verifier.verifyFile config fs2 outputPath
     = Fs.Ok (Verifier.Compared (Some digest) digest)
  /\ Verifier.success (Verifier.Compared (Some digest) digest) = true.
Proof.
  intros outputPath algorithm sidecar digest text fs2 Hdry Hexec Hfile Halg Hne Hdir
    Hparent.
  assert (sidecar <> outputPath) as Hpaths by (by apply append_longer).
  assert (Builder.generateHash config fs1 outputPath = Fs.Ok digest) as Hgen.
  { unfold Builder.generateHash, Fs.readFileSync. rewrite Hfile. simpl.
    fold algorithm. by rewrite Halg. }
  assert (fs2 !! outputPath = Some (Fs.File bytes)) as Hfile2.
  { unfold fs2. by rewrite lookup_insert_ne. }
  assert (fs2 !! sidecar = Some (Fs.File text)) as Hside.
  { unfold fs2. by rewrite lookup_insert_eq. }
  assert (Js.first_token (Js.trim (Js.utf8 text)) = digest) as Hread.
  { apply sidecar_read_back; [|apply hex_ascii|apply hex_solid].
    intros Hnil. apply (f_equal Js.chars) in Hnil. by apply hex_nonempty in Hnil. }
  assert (Verifier.calculateHash fs2 outputPath algorithm = Fs.Ok digest) as Hcalc.
  { unfold Verifier.calculateHash, Fs.readFileSync. rewrite Hfile2. simpl.
    by rewrite Halg. }
  repeat split; try done.
  - unfold Builder.buildTarget, Builder.buildTarget_begin. rewrite Hdry.
    fold outputPath. rewrite Hexec.
    unfold Builder.buildTarget_settle, Builder.afterExec. fold outputPath.
    unfold Fs.existsSync, Fs.statSync_size. rewrite Hfile. simpl.
    rewrite Hgen. simpl. fold algorithm sidecar text.
    by rewrite writeFileSync_Ok.
  - unfold Verifier.verifyFile. fold algorithm sidecar.
    unfold Fs.existsSync, Fs.readFileSync. rewrite Hfile2, Hside. simpl.
    rewrite Hcalc. simpl. by rewrite Hread.
  - simpl. apply String.eqb_refl.
Qed.

Lemma hasher_round_trip_witness :
  let config :=
    Demo.config [Demo.platform "linux-x64" true] [Demo.version "20" true true]
      false false 1 in
  let target :=
    Builder.mkJob config (Demo.platform "linux-x64" true) (Demo.version "20" true true) in
  let built :=
    @Builder.buildTarget (Demo.host []) config (Demo.options false) target
      "/repo/dist" (<["/repo/dist" := Fs.Dir]> ∅) in
  built.1 = Builder.Built "/repo/dist/mjml-linux-x64-node20" 20 "066b"
  /\ @Verifier.verifyFile (Demo.host []) config built.2
       "/repo/dist/mjml-linux-x64-node20"
     = Fs.Ok (Verifier.Compared (Some "066b") "066b").
Proof.
  intros config target built.
  destruct (@hasher_round_trip (Demo.host []) config (Demo.options false) target
              "/repo/dist" (<["/repo/dist" := Fs.Dir]> ∅)
              (<["/repo/dist/mjml-linux-x64-node20" := Fs.File "ELF node20-linux-x64"]>
                 (<["/repo/dist" := Fs.Dir]> ∅))
              "" "" "ELF node20-linux-x64" Demo.sum16)
    as (_ & Hbuilt & _ & _ & _ & Hverify & _);
    try (vm_compute; first [reflexivity | discriminate]).
  subst built. rewrite Hbuilt. split; [reflexivity|exact Hverify].
Defined.

(** ** The verifier *)

Section Verification.
Import Verifier.
Context `{Host}.
Implicit Types (config : Config) (options : Opt.t) (fs : Fs.t).








End Verification.



(** C10. In bulk mode (no file given, no manifest asked for): when the
    output directory does not exist the verifier reports failure and
    the exit code is 1; when it exists and every entry is a hash
    sidecar, a .json file or a .zip file, nothing is checked, the
    verifier reports success and the exit code is 0. *)
Theorem bulk_verification_edge_cases `{Host} (config : Config)
    (options : Verifier.Opt.t) (fs : Fs.t) :
  let outputDir := Verifier.outputDirOf config in
  let algorithm := Output.hashAlgorithm (output config) in
  Js.truthy (Verifier.Opt.file options) = false ->
  Verifier.Opt.manifest options = false ->
  (fs !! outputDir = None ->
   Verifier.verifyAll config options fs
     = ([Verifier.OutputDirNotFound outputDir], Fs.Ok false)
   /\ Verifier.main config options fs
      = ([Verifier.Banner; Verifier.OutputDirNotFound outputDir;
          Verifier.VerificationFailed], 1))
  /\ (fs !! outputDir = Some Fs.Dir ->
      Forall (fun f =>
                Js.endsWith f ("." +:+ algorithm) = true
                \/ Js.endsWith f ".json" = true
                \/ Js.endsWith f ".zip" = true) (Fs.children fs outputDir) ->
      Verifier.verifyAll config options fs
        = ([Verifier.NoBinaryFiles], Fs.Ok true)
      /\ Verifier.main config options fs
         = ([Verifier.Banner; Verifier.NoBinaryFiles; Verifier.AllVerified], 0)).
Proof.
  intros outputDir algorithm Hfile Hmanifest.
  assert (forall r, Verifier.verifyAll config options fs = r ->
                    Verifier.main config options fs
                    = match r.2 with
                      | Fs.Ok true => (Verifier.Banner :: r.1 ++ [Verifier.AllVerified], 0)
                      | Fs.Ok false =>
                          (Verifier.Banner :: r.1 ++ [Verifier.VerificationFailed], 1)
                      | Fs.Throw _ => (Verifier.Banner :: r.1, 1)
                      end) as Hmain.
  { intros [lines outcome] Hr. unfold Verifier.main.
    rewrite Hfile, Hmanifest. simpl. by rewrite Hr. }
  split.
  - intros Hnone.
    assert (Verifier.verifyAll config options fs
            = ([Verifier.OutputDirNotFound outputDir], Fs.Ok false)) as Hall.
    { unfold Verifier.verifyAll, Fs.existsSync. fold outputDir. by rewrite Hnone. }
    split; [done|]. by rewrite (Hmain _ Hall).
  - intros Hdir Hentries.
    assert (Verifier.verifyAll config options fs
            = ([Verifier.NoBinaryFiles], Fs.Ok true)) as Hall.
    { unfold Verifier.verifyAll, Fs.existsSync, Fs.readdirSync. fold outputDir.
      rewrite Hdir. simpl.
      rewrite (filter_none (Verifier.isBinary config) (Fs.children fs outputDir));
        [done|].
      eapply List.Forall_impl; [|exact Hentries].
      intros f Hf. unfold Verifier.isBinary. fold algorithm.
      destruct Hf as [->|[->| ->]]; simpl; by rewrite ?andb_false_r. }
    split; [done|]. by rewrite (Hmain _ Hall).
Qed.

Lemma bulk_verification_edge_cases_witness :
  let config := Demo.config [] [] false false 1 in
  let bulk :=
    {| Verifier.Opt.file := None; Verifier.Opt.hash := None;
       Verifier.Opt.manifest := false; Verifier.Opt.verbose := false |} in
  let fs : Fs.t :=
    <["/repo/dist" := Fs.Dir]>
      (<["/repo/dist/mjml-linux-x64-node20.sha256" := Fs.File "066b  x"]>
         (<["/repo/dist/manifest.json" := Fs.File "{}"]>
            (<["/repo/dist/mjml-linux-x64-node20.zip" := Fs.File "PK"]> ∅))) in
  (@Verifier.main (Demo.host []) config bulk ∅).2 = 1
  /\ (@Verifier.main (Demo.host []) config bulk fs).2 = 0.
Proof.
  intros config bulk fs.
  pose proof (@bulk_verification_edge_cases (Demo.host []) config bulk) as Hedge.
  split.
  - destruct (Hedge ∅ eq_refl eq_refl) as [Hmissing _].
    destruct Hmissing as [_ Hmain]; [vm_compute; reflexivity|].
    rewrite Hmain. reflexivity.
  - destruct (Hedge fs eq_refl eq_refl) as [_ Hempty].
    destruct Hempty as [_ Hmain].
    + vm_compute. reflexivity.
    + vm_compute. repeat (constructor; [vm_compute; auto|]). constructor.
    + rewrite Hmain. reflexivity.
Defined.

(* ===================================================================== *)
(** * Further properties of the scripts                                   *)
(* ===================================================================== *)

(** ** The command line *)

Lemma indexOf_Some (args : list string) (flag : string) : forall i,
  Args.indexOf args flag = Some i <->
  exists before after,
    args = before ++ flag :: after /\ ~ In flag before /\ length before = i.
Proof.
  induction args as [|a args IH]; intros i; simpl.
  - split; [done|]. intros (before & after & Heq & _). by destruct before.
  - unfold Js.str_eq. destruct (String.eqb a flag) eqn:Ha.
    + apply String.eqb_eq in Ha as ->. split.
      * intros [= <-]. exists [], args. simpl. tauto.
      * intros ([|b before] & after & Heq & Hnot & <-); [done|].
        injection Heq as <- _. exfalso. apply Hnot. by left.
    + apply String.eqb_neq in Ha. split.
      * destruct (Args.indexOf args flag) as [j|] eqn:Hj; [|done].
        intros [= <-].
        destruct (proj1 (IH j) eq_refl) as (before & after & -> & Hnot & <-).
        exists (a :: before), after. simpl. repeat split.
        intros [->|Hin]; done.
      * intros ([|b before] & after & Heq & Hnot & <-).
        { by injection Heq as ->. }
        injection Heq as <- ->.
        assert (Args.indexOf (before ++ flag :: after) flag
                = Some (length before)) as ->; [|done].
        apply IH. exists before, after. repeat split.
        intros Hin. apply Hnot. by right.
Qed.

(** X1. [getArgValue] returns the argument that follows the first
    occurrence of the flag, provided it is not the empty string: a
    second occurrence is not looked at, and a flag that comes last
    gives nothing. *)
Theorem getArgValue_first_occurrence (args : list string) (flag : string) :
  (forall v,
     Args.getArgValue args flag = Some v <->
     exists before after,
       args = before ++ flag :: v :: after /\ ~ In flag before /\ v <> "")
  /\ (forall before, ~ In flag before ->
        Args.getArgValue (before ++ [flag]) flag = None)
  /\ (forall before after, ~ In flag before ->
        Args.getArgValue (before ++ flag :: "" :: after) flag = None).
Proof.
  assert (forall before after, ~ In flag before ->
            Args.indexOf (before ++ flag :: after) flag = Some (length before))
    as Hfirst.
  { intros before after Hnot. apply indexOf_Some. by exists before, after. }
  assert (forall before after,
            nth_error (before ++ flag :: after) (length before + 1)
            = nth_error after 0) as Hnext.
  { intros before after. rewrite nth_error_app2 by lia.
    by replace (length before + 1 - length before) with 1 by lia. }
  split; [|split].
  - intros v. unfold Args.getArgValue. split.
    + destruct (Args.indexOf args flag) as [i|] eqn:Hi; [|done].
      apply indexOf_Some in Hi as (before & after & -> & Hnot & <-).
      rewrite Hnext. destruct after as [|w after]; simpl; [done|].
      unfold Js.str_eq. destruct (String.eqb w "") eqn:Hw; simpl; [done|].
      intros [= ->]. apply String.eqb_neq in Hw. by exists before, after.
    + intros (before & after & -> & Hnot & Hv).
      rewrite (Hfirst _ _ Hnot), Hnext. simpl. unfold Js.str_eq.
      apply String.eqb_neq in Hv. by rewrite Hv.
  - intros before Hnot. unfold Args.getArgValue.
    by rewrite (Hfirst _ _ Hnot), Hnext.
  - intros before after Hnot. unfold Args.getArgValue.
    by rewrite (Hfirst _ _ Hnot), Hnext.
Qed.

(** ** The planner, further *)

Section PlannerMore.
Import Builder.
Implicit Types (config : Config) (options : Opt.t).

Lemma filter_map_comm {A B} (f : A -> B) (g : B -> bool) (l : list A) :
  List.filter g (map f l) = map f (List.filter (fun x => g (f x)) l).
Proof.
  induction l as [|x l IH]; simpl; [done|]. destruct (g (f x)); simpl; by rewrite IH.
Qed.

Lemma filter_nil_iff {A} (f : A -> bool) (l : list A) :
  List.filter f l = [] <-> Forall (fun x => f x = false) l.
Proof.
  split; [|apply filter_none].
  induction l as [|x l IH]; simpl; [constructor|].
  destruct (f x) eqn:Hx; [done|]. intros Hnil. constructor; auto.
Qed.

Lemma list_prod_nil_iff {A B} (l : list A) (l' : list B) :
  list_prod l l' = [] <-> l = [] \/ l' = [].
Proof.
  rewrite <- !length_zero_iff_nil, length_list_prod. lia.
Qed.

Lemma filter_list_prod {A B} (f : A -> bool) (g : B -> bool)
    (l : list A) (l' : list B) :
  List.filter (fun ab => f ab.1 && g ab.2) (list_prod l l')
  = list_prod (List.filter f l) (List.filter g l').
Proof.
  induction l as [|a l IH]; simpl; [done|].
  rewrite List.filter_app, IH, filter_map_comm. simpl.
  destruct (f a); simpl.
  - f_equal.
  - assert (List.filter (fun _ : B => false) l' = []) as ->; [|done].
    by apply filter_none, List.Forall_forall.
Qed.

End PlannerMore.

(** X2. The filters of the command line select jobs of the full plan:
    the plan under filters is the plan without filters, in the same
    order, restricted to the jobs whose platform and version pass. *)
Theorem filters_select_from_full_plan (config : Config) (options : Builder.Opt.t) :
  Builder.generateBuildMatrix config options
  = List.filter (More.selected options)
      (Builder.generateBuildMatrix config (More.unfiltered options)).
Proof.
  rewrite !generateBuildMatrix_productPlan. unfold Spec.productPlan.
  rewrite filter_map_comm. f_equal.
  rewrite (List.filter_ext _ (fun pv =>
             Builder.passes (Builder.Opt.platform options) pv.1.1
             && Builder.passes (Builder.Opt.nodeVersion options) pv.2.1))
    by done.
  rewrite (filter_list_prod
             (fun p : string * Platform.t =>
                Builder.passes (Builder.Opt.platform options) p.1)
             (fun v : string * NodeVersion.t =>
                Builder.passes (Builder.Opt.nodeVersion options) v.1)).
  rewrite !filter_filter_and. f_equal; apply List.filter_ext; intros e;
    unfold Spec.eligiblePlatform, Spec.eligibleVersion; simpl;
    by rewrite ?andb_true_r.
Qed.

(** X3. The plan is empty exactly when no platform is enabled and
    passes the platform filter, or no version is enabled, supported and
    passes the version filter; the build script then exits with code 1
    before it creates, cleans or writes anything. *)
Theorem empty_plan_exits_early `{Host} (config : Config)
    (options : Builder.Opt.t) (schedule : list nat) (fs : Fs.t) :
  let nothing :=
    Forall (fun e => Spec.eligiblePlatform options e = false) (platforms config)
    \/ Forall (fun e => Spec.eligibleVersion options e = false)
         (nodeVersions config) in
  (Builder.generateBuildMatrix config options = [] <-> nothing)
  /\ (nothing ->
      Builder.main config options schedule fs
      = {| Builder.exitCode := 1; Builder.final := fs; Builder.summary := None |}).
Proof.
  intros nothing.
  assert (Builder.generateBuildMatrix config options = [] <-> nothing) as Hiff.
  { rewrite generateBuildMatrix_productPlan. unfold Spec.productPlan, nothing.
    rewrite <- !filter_nil_iff.
    rewrite <- (length_zero_iff_nil (List.filter _ (platforms config))),
            <- (length_zero_iff_nil (List.filter _ (nodeVersions config))).
    rewrite <- (Permutation_length
                  (filter_Permutation' (Spec.eligiblePlatform options) _ _
                     (Object_entries_Permutation (platforms config)))),
            <- (Permutation_length
                  (filter_Permutation' (Spec.eligibleVersion options) _ _
                     (Object_entries_Permutation (nodeVersions config)))).
    rewrite !length_zero_iff_nil, <- list_prod_nil_iff.
    split; [apply map_eq_nil|by intros ->]. }
  split; [exact Hiff|]. intros Hnothing. apply Hiff in Hnothing.
  unfold Builder.main. by rewrite Hnothing.
Qed.

Section ObjectKeys.
Context {V : Type}.
Implicit Types (o : JsObject.t V) (k : string) (v : V).

Lemma define_keys o k v k' :
  In k' (map fst (JsObject.define o k v)) <-> k' = k \/ In k' (map fst o).
Proof.
  induction o as [|[k0 v0] o IH]; simpl; [intuition congruence|].
  unfold Js.str_eq. destruct (String.eqb k0 k) eqn:Hk; simpl.
  - apply String.eqb_eq in Hk as ->. intuition congruence.
  - rewrite IH. intuition congruence.
Qed.

Lemma define_NoDup o k v :
  NoDup (map fst o) -> NoDup (map fst (JsObject.define o k v)).
Proof.
  induction o as [|[k0 v0] o IH]; simpl; intros Hnd.
  - repeat constructor. by intros ?%elem_of_nil.
  - apply NoDup_cons in Hnd as [Hk0 Hnd]. unfold Js.str_eq.
    destruct (String.eqb k0 k) eqn:Hk; simpl.
    + apply String.eqb_eq in Hk as ->. by apply NoDup_cons.
    + apply String.eqb_neq in Hk. apply NoDup_cons. split; [|by apply IH].
      rewrite list_elem_of_In, define_keys. rewrite list_elem_of_In in Hk0.
      intros [->|?]; done.
Qed.

(** An object read from JSON has each key once. *)
Lemma of_members_NoDup (members : list (string * V)) :
  NoDup (map fst (JsObject.of_members members)).
Proof.
  unfold JsObject.of_members.
  assert (forall acc : JsObject.t V,
            NoDup (map fst acc) ->
            NoDup (map fst (fold_left
                              (fun o (kv : string * V) => JsObject.define o kv.1 kv.2)
                              members acc))) as Hgen.
  { induction members as [|[k v] members IH]; intros acc Hacc; simpl; [done|].
    by apply IH, define_NoDup. }
  apply Hgen. constructor.
Qed.

Lemma filter_keys_NoDup (f : string * V -> bool) (l : list (string * V)) :
  NoDup (map fst l) -> NoDup (map fst (List.filter f l)).
Proof.
  induction l as [|e l IH]; simpl; [done|]. intros Hnd.
  apply NoDup_cons in Hnd as [He Hnd]. destruct (f e); simpl; [|by apply IH].
  apply NoDup_cons. split; [|by apply IH].
  rewrite list_elem_of_In, List.in_map_iff in *.
  intros (e' & Heq & Hin). apply He. exists e'. split; [done|].
  by apply List.filter_In in Hin as [].
Qed.

End ObjectKeys.

Lemma list_prod_fst_snd {A B C D} (f : A -> C) (g : B -> D)
    (l : list A) (l' : list B) :
  map (fun ab => (f ab.1, g ab.2)) (list_prod l l')
  = list_prod (map f l) (map g l').
Proof.
  induction l as [|a l IH]; simpl; [done|].
  by rewrite map_app, !map_map, IH.
Qed.

Lemma list_prod_NoDup {A B} (l : list A) (l' : list B) :
  NoDup l -> NoDup l' -> NoDup (list_prod l l').
Proof.
  intros Hl Hl'. induction Hl as [|a l Ha Hl IH]; simpl; [constructor|].
  apply NoDup_app. split; [|split; [|done]].
  - apply NoDup_fmap_2; [|done]. by intros x y [=].
  - intros [a' b] Hin Hin'.
    apply list_elem_of_In, List.in_map_iff in Hin as (b' & [= <- <-] & _).
    apply list_elem_of_In, in_prod_iff in Hin' as [Hin' _].
    by apply list_elem_of_In in Hin'.
Qed.

(** X4. For tables read from JSON (each key once), no pair of platform
    and version is planned twice. *)
Theorem no_pair_planned_twice (config : Config) (options : Builder.Opt.t)
    (ps : list (string * Platform.t)) (vs : list (string * NodeVersion.t)) :
  platforms config = JsObject.of_members ps ->
  nodeVersions config = JsObject.of_members vs ->
  NoDup (map More.pairOf (Builder.generateBuildMatrix config options)).
Proof.
  intros Hp Hv. rewrite generateBuildMatrix_productPlan. unfold Spec.productPlan.
  rewrite map_map.
  rewrite (map_ext _ (fun pv : (string * Platform.t) * (string * NodeVersion.t) =>
                        (pv.1.1, pv.2.1))) by done.
  rewrite (list_prod_fst_snd fst fst).
  apply list_prod_NoDup; apply filter_keys_NoDup.
  - rewrite (Permutation_map fst (Object_entries_Permutation (platforms config))).
    rewrite Hp. apply of_members_NoDup.
  - rewrite (Permutation_map fst (Object_entries_Permutation (nodeVersions config))).
    rewrite Hv. apply of_members_NoDup.
Qed.

Lemma no_pair_planned_twice_witness :
  let config :=
    Demo.config
      [Demo.platform "linux-x64" true; Demo.platform "linux-x64" true]
      [Demo.version "20" true true; Demo.version "18" true true;
       Demo.version "20" true true] false false 1 in
  NoDup (map More.pairOf (Builder.generateBuildMatrix config (Demo.options false))).
Proof.
  intros config.
  exact (no_pair_planned_twice config (Demo.options false) _ _ eq_refl eq_refl).
Defined.

(** ** The entries of a directory *)

Section Children.
Implicit Types (fs : Fs.t) (dir name p : string) (l d : list ascii).

Lemma of_chars_app l d : Js.of_chars (l ++ d) = Js.of_chars l +:+ Js.of_chars d.
Proof. induction l as [|c l IH]; simpl; [done|]. by rewrite IH. Qed.

Lemma chars_inj (s t : string) : Js.chars s = Js.chars t -> s = t.
Proof.
  intros Heq. apply (f_equal Js.of_chars) in Heq. by rewrite !of_chars_chars in Heq.
Qed.

Lemma startsWith_chars_app d l : Js.startsWith_chars (d ++ l) d = true.
Proof.
  induction d as [|c d IH]; simpl; [by destruct l|]. by rewrite Ascii.eqb_refl, IH.
Qed.

Lemma startsWith_chars_inv l d :
  Js.startsWith_chars l d = true -> l = d ++ drop (length d) l.
Proof.
  revert l. induction d as [|c d IH]; intros [|c' l]; simpl; try done.
  intros [Hc Hl]%andb_true_iff. apply Ascii.eqb_eq in Hc as ->.
  f_equal. by apply IH.
Qed.

Lemma chars_path_join dir name :
  Js.chars (Fs.path_join dir name) = Js.chars (dir +:+ "/") ++ Js.chars name.
Proof. unfold Fs.path_join. rewrite !chars_app. by rewrite <- app_assoc. Qed.

Lemma path_join_inj dir name name' :
  Fs.path_join dir name = Fs.path_join dir name' -> name = name'.
Proof.
  intros Heq. apply (f_equal Js.chars) in Heq. rewrite !chars_path_join in Heq.
  by apply app_inv_head, chars_inj in Heq.
Qed.

Lemma path_join_longer dir name : Fs.path_join dir name <> dir.
Proof. by apply append_longer. Qed.

(** An immediate child of [dir] is [dir/name] for a name that is not
    empty and has no slash. *)
Lemma child_name_Some dir p name :
  Fs.child_name dir p = Some name <->
  p = Fs.path_join dir name /\ name <> ""
  /\ existsb (Ascii.eqb "/") (Js.chars name) = false.
Proof.
  unfold Fs.child_name. split.
  - destruct (Js.startsWith_chars _ _) eqn:Hstart; [|done].
    apply startsWith_chars_inv in Hstart.
    remember (drop (length (Js.chars (dir +:+ "/"))) (Js.chars p)) as n eqn:Hn.
    destruct n as [|c rest]; [done|]. rewrite Hn.
    destruct (existsb _ _) eqn:Hslash; [done|].
    intros [= <-]. rewrite chars_of_chars. split; [|split; [|done]].
    + apply chars_inj. rewrite chars_path_join, chars_of_chars.
      rewrite <- Hn. exact Hstart.
    + by rewrite <- Hn.
  - intros (-> & Hne & Hslash). rewrite chars_path_join, startsWith_chars_app.
    rewrite drop_app_length. destruct (Js.chars name) as [|c rest] eqn:Hname.
    + destruct name; done.
    + rewrite Hslash. by rewrite <- Hname, of_chars_chars.
Qed.

Lemma child_name_self dir : Fs.child_name dir dir = None.
Proof.
  destruct (Fs.child_name dir dir) as [name|] eqn:Hc; [|done].
  apply child_name_Some in Hc as [Hc _]. symmetry in Hc.
  by apply path_join_longer in Hc.
Qed.

(** The names [readdirSync] lists are those of the existing immediate
    children. *)
Lemma In_children fs dir name :
  In name (Fs.children fs dir) <->
  is_Some (fs !! Fs.path_join dir name)
  /\ Fs.child_name dir (Fs.path_join dir name) = Some name.
Proof.
  unfold Fs.children. rewrite <- list_elem_of_In, list_elem_of_omap. split.
  - intros ([p node] & Hin & Hc). simpl in Hc.
    apply elem_of_map_to_list in Hin.
    pose proof Hc as Hc'. apply child_name_Some in Hc' as (-> & _).
    split; [by exists node|done].
  - intros ([node Hnode] & Hc). exists (Fs.path_join dir name, node).
    split; [by apply elem_of_map_to_list|done].
Qed.

Lemma children_NoDup fs dir : NoDup (Fs.children fs dir).
Proof.
  unfold Fs.children.
  pose proof (NoDup_fst_map_to_list fs) as Hnd.
  induction (map_to_list fs) as [|[p node] l IH]; simpl; [constructor|].
  apply NoDup_cons in Hnd as [Hp Hnd]. simpl in *.
  destruct (Fs.child_name dir p) as [name|] eqn:Hc; [|by apply IH].
  apply NoDup_cons. split; [|by apply IH].
  rewrite list_elem_of_omap. intros ([p' node'] & Hin & Hc'). simpl in Hc'.
  apply child_name_Some in Hc as [-> _], Hc' as [-> _].
  apply Hp. apply list_elem_of_fmap. by exists (Fs.path_join dir name, node').
Qed.

Lemma no_children fs dir :
  (forall name, ~ In name (Fs.children fs dir)) -> Fs.children fs dir = [].
Proof.
  destruct (Fs.children fs dir) as [|name l]; [done|].
  intros Hno. exfalso. apply (Hno name). by left.
Qed.

(** Unlinking a list of distinct regular files removes them and
    nothing else. *)
Lemma unlinkEach_files dir (files : list string) : forall fs,
  NoDup files ->
  (forall name, In name files ->
     exists c, fs !! Fs.path_join dir name = Some (Fs.File c)) ->
  exists fs',
    Builder.unlinkEach dir files fs = (fs', None)
    /\ (forall name, In name files -> fs' !! Fs.path_join dir name = None)
    /\ (forall p, (forall name, In name files -> p <> Fs.path_join dir name) ->
          fs' !! p = fs !! p).
Proof.
  induction files as [|file files IH]; intros fs Hnd Hfiles; simpl.
  - exists fs. split; [done|]. split; [intros ? []|done].
  - apply NoDup_cons in Hnd as [Hfile Hnd]. rewrite list_elem_of_In in Hfile.
    destruct (Hfiles file (or_introl eq_refl)) as [c Hc].
    unfold Fs.unlinkSync. rewrite Hc.
    destruct (IH (delete (Fs.path_join dir file) fs) Hnd)
      as (fs' & -> & Hgone & Hkept).
    { intros name Hin. destruct (Hfiles name (or_intror Hin)) as [c' Hc'].
      exists c'. rewrite lookup_delete_ne; [done|].
      intros Heq%path_join_inj. by subst. }
    exists fs'. split; [done|]. split.
    + intros name [<-|Hin]; [|by apply Hgone].
      rewrite Hkept; [by rewrite lookup_delete_eq|].
      intros name Hin Heq%path_join_inj. by subst.
    + intros p Hp. rewrite Hkept by (intros; apply Hp; by right).
      rewrite lookup_delete_ne; [done|]. intros <-. by apply (Hp file); [left|].
Qed.

(** Unlinking stops with an exception when it meets a directory. *)
Lemma unlinkEach_directory dir sub (files : list string) : forall fs,
  In sub files -> fs !! Fs.path_join dir sub = Some Fs.Dir ->
  (Builder.unlinkEach dir files fs).2 <> None.
Proof.
  induction files as [|file files IH]; intros fs Hin Hsub; simpl; [done|].
  unfold Fs.unlinkSync.
  destruct (fs !! Fs.path_join dir file) as [[c|]|] eqn:Hfile; [|done..].
  destruct Hin as [->|Hin]; [by rewrite Hsub in Hfile|].
  apply IH; [done|]. rewrite lookup_delete_ne; [done|].
  intros Heq. by rewrite Heq, Hsub in Hfile.
Qed.

(** The directories above a path are proper prefixes of it. *)
Lemma cuts_In l (q : list ascii) :
  In q (Fs.cuts l) -> exists rest, l = q ++ "/"%char :: rest.
Proof.
  revert q. induction l as [|c l IH]; intros q; simpl; [done|].
  rewrite in_app_iff, in_map_iff. intros [Hhere|(q' & <- & Hin)].
  - destruct (Ascii.eqb c "/") eqn:Hc; [|done]. destruct Hhere as [<-|[]].
    apply Ascii.eqb_eq in Hc as ->. by exists l.
  - destruct (IH q' Hin) as [rest ->]. by exists rest.
Qed.

Lemma ancestors_under p dir : In dir (Fs.ancestors p) -> More.under dir p.
Proof.
  unfold Fs.ancestors. rewrite in_map_iff.
  intros (q & <- & [Hq _]%List.filter_In).
  destruct (cuts_In _ _ Hq) as [rest Hp]. exists (Js.of_chars rest).
  apply chars_inj. unfold Fs.path_join.
  by rewrite Hp, !chars_app, !chars_of_chars.
Qed.

Lemma under_longer dir p :
  More.under dir p -> length (Js.chars dir) < length (Js.chars p).
Proof.
  intros [rest ->]. unfold Fs.path_join. rewrite !chars_app, !length_app.
  simpl. lia.
Qed.

Lemma under_not_entry dir p :
  More.under dir p -> dir <> p /\ forall name, dir <> Fs.path_join p name.
Proof.
  intros Hlen%under_longer. split.
  - intros ->. lia.
  - intros name ->. unfold Fs.path_join in Hlen.
    rewrite !chars_app, !length_app in Hlen. lia.
Qed.

(** Making directories: where no regular file is on the way, each of
    them is a directory afterwards and nothing else has changed. *)
Lemma mkdirs_Ok (dirs : list string) : forall fs,
  (forall up, In up dirs -> forall c, fs !! up <> Some (Fs.File c)) ->
  exists fs',
    Fs.mkdirs dirs fs = Fs.Ok fs'
    /\ (forall up, In up dirs -> fs' !! up = Some Fs.Dir)
    /\ (forall p, ~ In p dirs -> fs' !! p = fs !! p).
Proof.
  induction dirs as [|up dirs IH]; intros fs Hfree.
  - exists fs. split; [done|]. split; [intros ? []|done].
  - cbn [Fs.mkdirs]. destruct (fs !! up) as [[c|]|] eqn:Hd.
    + by destruct (Hfree up (or_introl eq_refl) c).
    + destruct (IH fs) as (fs' & -> & Hdirs & Hframe).
      { intros up' Hin. apply Hfree. by right. }
      exists fs'. split; [done|]. split.
      * intros up' [<-|Hin]; [|by apply Hdirs].
        destruct (decide (up ∈ dirs)) as [Hin%list_elem_of_In|Hout];
          [by apply Hdirs|].
        rewrite Hframe; [done|]. by rewrite <- list_elem_of_In.
      * intros p Hp. apply Hframe. intros Hin. apply Hp. by right.
    + destruct (IH (<[up := Fs.Dir]> fs)) as (fs' & -> & Hdirs & Hframe).
      { intros up' Hin c. destruct (decide (up' = up)) as [->|Hne].
        - by rewrite lookup_insert_eq.
        - rewrite lookup_insert_ne by done. apply Hfree. by right. }
      exists fs'. split; [done|]. split.
      * intros up' [<-|Hin]; [|by apply Hdirs].
        destruct (decide (up ∈ dirs)) as [Hin%list_elem_of_In|Hout];
          [by apply Hdirs|].
        rewrite Hframe; [by rewrite lookup_insert_eq|].
        by rewrite <- list_elem_of_In.
      * intros p Hp. rewrite Hframe by (intros Hin; apply Hp; by right).
        rewrite lookup_insert_ne; [done|]. intros <-. apply Hp. by left.
Qed.

End Children.

(** ** Preparing the output directory *)

Section Prepare.
Import Builder.
Context `{Host}.

(** After [ensureOutputDir], unless a regular file is on the way to a
    missing output directory: the path holds something (a directory
    unless a file was there), the directories above a directory that
    was missing are there, and no other path has changed. *)
Lemma ensureOutputDir_frame (config : Config) (fs : Fs.t) :
  (fs !! outputDirOf config = None ->
   forall d, In d (Fs.ancestors (outputDirOf config)) ->
             forall c, fs !! d <> Some (Fs.File c)) ->
  exists fs1,
    ensureOutputDir config fs = Fs.Ok (outputDirOf config, fs1)
    /\ fs1 !! outputDirOf config
       = Some (default Fs.Dir (fs !! outputDirOf config))
    /\ (forall d, In d (Fs.ancestors (outputDirOf config)) ->
          fs1 !! d = match fs !! outputDirOf config with
                     | None => Some Fs.Dir
                     | Some _ => fs !! d
                     end)
    /\ (forall p, p <> outputDirOf config ->
          ~ In p (Fs.ancestors (outputDirOf config)) -> fs1 !! p = fs !! p).
Proof.
  intros Hway. unfold ensureOutputDir, Fs.existsSync, Fs.mkdirSync.
  destruct (fs !! outputDirOf config) as [node|] eqn:Hdir; simpl.
  - exists fs. by rewrite ?Hdir.
  - destruct (mkdirs_Ok (Fs.ancestors (outputDirOf config) ++ [outputDirOf config])
                fs) as (fs1 & -> & Hdirs & Hframe).
    { intros d [Hin|[<-|[]]]%in_app_iff c; [by apply Hway|congruence]. }
    exists fs1. simpl. split; [done|]. split; [|split].
    + apply Hdirs, in_app_iff. right. by left.
    + intros d Hin. apply Hdirs, in_app_iff. by left.
    + intros p Hp Hout. apply Hframe. intros [Hin|[<-|[]]]%in_app_iff; done.
Qed.

End Prepare.

(** X5. Cleaning before the build, when the output directory is a
    directory whose entries are all regular files, or is missing with
    no regular file on the way to it: no exception is raised, the
    directory exists afterwards and [readdirSync] finds it empty; the
    directories above a missing output directory are made with it (the
    others are left as they are), and every path that is neither an
    entry of the directory nor a directory made is as it was. *)
Theorem clean_before_build_empties_directory `{Host} (config : Config)
    (options : Builder.Opt.t) (fs : Fs.t) :
  let outputDir := Builder.outputDirOf config in
  Build.cleanBeforeBuild (build config) = true ->
  Builder.Opt.single options = false ->
  (forall c, fs !! outputDir <> Some (Fs.File c)) ->
  (fs !! outputDir = None ->
   forall d, In d (Fs.ancestors outputDir) ->
             forall c, fs !! d <> Some (Fs.File c)) ->
  (forall name, In name (Fs.children fs outputDir) ->
     exists c, fs !! Fs.path_join outputDir name = Some (Fs.File c)) ->
  exists fs',
    Builder.prepare config options fs = (fs', None)
    /\ fs' !! outputDir = Some Fs.Dir
    /\ Fs.readdirSync fs' outputDir = Fs.Ok []
    /\ (forall d, In d (Fs.ancestors outputDir) ->
          fs' !! d = match fs !! outputDir with
                     | None => Some Fs.Dir
                     | Some _ => fs !! d
                     end)
    /\ (forall p, p <> outputDir -> ~ In p (Fs.ancestors outputDir) ->
          Fs.child_name outputDir p = None -> fs' !! p = fs !! p).
Proof.
  intros outputDir Hclean Hsingle Hnofile Hway Hfiles.
  destruct (ensureOutputDir_frame config fs Hway)
    as (fs1 & Hensure & Hdir1 & Habove1 & Hframe1).
  fold outputDir in Hensure, Hdir1, Habove1, Hframe1.
  assert (fs1 !! outputDir = Some Fs.Dir) as Hdir.
  { rewrite Hdir1. destruct (fs !! outputDir) as [[c|]|] eqn:Hd; try done.
    by destruct (Hnofile c). }
  assert (forall name, fs1 !! Fs.path_join outputDir name
                       = fs !! Fs.path_join outputDir name) as Hentry.
  { intros name. apply Hframe1; [apply path_join_longer|].
    intros Hin%ancestors_under%under_not_entry. destruct Hin as [_ Hin].
    by apply (Hin name). }
  assert (forall name, In name (Fs.children fs1 outputDir) <->
                       In name (Fs.children fs outputDir)) as Hsame.
  { intros name. by rewrite !In_children, Hentry. }
  destruct (unlinkEach_files outputDir (Fs.children fs1 outputDir) fs1)
    as (fs' & Hunlink & Hgone & Hkept).
  { apply children_NoDup. }
  { intros name Hin. rewrite Hentry. by apply Hfiles, Hsame. }
  assert (fs' !! outputDir = Some Fs.Dir) as Hdir'.
  { rewrite Hkept; [done|]. intros name _ Heq. symmetry in Heq.
    by apply path_join_longer in Heq. }
  exists fs'. split; [|split; [done|split; [|split]]].
  - unfold Builder.prepare. rewrite Hensure, Hclean, Hsingle. simpl.
    unfold Fs.readdirSync. by rewrite Hdir.
  - unfold Fs.readdirSync. rewrite Hdir'. f_equal. apply no_children.
    intros name Hin. apply In_children in Hin as [Hsome Hchild].
    destruct (decide (name ∈ Fs.children fs1 outputDir)) as [Hin|Hout].
    + apply list_elem_of_In in Hin. rewrite (Hgone _ Hin) in Hsome.
      by destruct Hsome.
    + apply Hout, list_elem_of_In, In_children. split; [|done].
      rewrite <- Hkept; [done|]. intros name' Hin' Heq%path_join_inj. subst.
      by apply Hout, list_elem_of_In.
  - intros d Hd. rewrite Hkept; [by apply Habove1|].
    intros name _ ->. apply ancestors_under, under_not_entry in Hd as [_ Hd].
    by apply (Hd name).
  - intros p Hp Hnot Hchild. rewrite Hkept; [by apply Hframe1|].
    intros name Hin ->. apply In_children in Hin as [_ Hin]. congruence.
Qed.

Lemma clean_before_build_empties_directory_witness :
  let config :=
    Demo.config [Demo.platform "linux-x64" true] [Demo.version "20" true true]
      true false 1 in
  let fs : Fs.t := <["/work/README.md" := Fs.File "readme"]> ∅ in
  exists fs',
    @Builder.prepare (Demo.host []) config (Demo.options false) fs = (fs', None)
    /\ Fs.readdirSync fs' "/repo/dist" = Fs.Ok []
    /\ fs' !! "/repo" = Some Fs.Dir
    /\ fs' !! "/work/README.md" = Some (Fs.File "readme").
Proof.
  intros config fs.
  destruct (@clean_before_build_empties_directory (Demo.host []) config
              (Demo.options false) fs eq_refl eq_refl)
    as (fs' & Hprep & _ & Hread & Habove & Hframe).
  - intros c. vm_compute. discriminate.
  - intros _ d Hin c.
    assert (d = "/repo") as ->
      by (revert Hin; clear; vm_compute; by intros [<-|[]]).
    vm_compute. discriminate.
  - replace (Fs.children fs _) with (@nil string) by (vm_compute; reflexivity).
    intros name [].
  - exists fs'. split; [exact Hprep|]. split; [exact Hread|]. split.
    + rewrite (Habove "/repo"); [vm_compute; reflexivity|vm_compute; by left].
    + rewrite Hframe;
        [|vm_compute; discriminate
         |vm_compute; intros [Heq|[]]; discriminate Heq
         |vm_compute; reflexivity].
      vm_compute. reflexivity.
Defined.

(** X6. The cleaning is not recursive: when the output directory holds
    a subdirectory, a run that cleans stops with an exception at that
    entry; the script exits with code 1 without building anything or
    printing a summary. *)
Theorem clean_stops_at_subdirectory `{Host} (config : Config)
    (options : Builder.Opt.t) (schedule : list nat) (fs : Fs.t) (sub : string) :
  let outputDir := Builder.outputDirOf config in
  Build.cleanBeforeBuild (build config) = true ->
  Builder.Opt.single options = false ->
  Builder.generateBuildMatrix config options <> [] ->
  fs !! outputDir = Some Fs.Dir ->
  sub <> "" ->
  existsb (Ascii.eqb "/") (Js.chars sub) = false ->
  fs !! Fs.path_join outputDir sub = Some Fs.Dir ->
  (Builder.prepare config options fs).2 <> None
  /\ Builder.exitCode (Builder.main config options schedule fs) = 1
  /\ Builder.summary (Builder.main config options schedule fs) = None.
Proof.
  intros outputDir Hclean Hsingle Hplan Hdir Hne Hslash Hsub.
  assert ((Builder.prepare config options fs).2 <> None) as Hprep.
  { unfold Builder.prepare, Builder.ensureOutputDir, Fs.existsSync.
    fold outputDir. rewrite Hdir, Hclean, Hsingle. simpl.
    unfold Fs.readdirSync. rewrite Hdir.
    apply (unlinkEach_directory outputDir sub); [|done].
    apply In_children. split; [by rewrite Hsub|]. by apply child_name_Some. }
  split; [done|]. unfold Builder.main.
  destruct (Builder.generateBuildMatrix config options) as [|job matrix]; [done|].
  simpl. destruct (Builder.prepare config options fs) as [fs2 [message|]]; done.
Qed.

Lemma clean_stops_at_subdirectory_witness :
  let config :=
    Demo.config [Demo.platform "linux-x64" true] [Demo.version "20" true true]
      true false 1 in
  let fs : Fs.t :=
    <["/repo/dist" := Fs.Dir]>
      (<["/repo/dist/old" := Fs.Dir]>
         (<["/repo/dist/old/mjml" := Fs.File "previous build"]> ∅)) in
  Builder.exitCode (@Builder.main (Demo.host []) config (Demo.options false) [] fs)
  = 1.
Proof.
  intros config fs.
  refine (proj1 (proj2 (@clean_stops_at_subdirectory (Demo.host []) config
                          (Demo.options false) [] fs "old"
                          eq_refl eq_refl _ _ _ eq_refl _)));
    vm_compute; first [reflexivity | discriminate].
Defined.

(** ** The build executor, further *)

Section ExecutorMore.
Import Builder.
Context `{Host}.
Variables (config : Config) (options : Opt.t) (outputDir : string).
Implicit Types (p : Pool) (matrix : list BuildJob).

Local Abbreviation resume := (Builder.resume config options outputDir).
Local Abbreviation drain := (Builder.drain config options outputDir).

Lemma resume_dryRun i p p' :
  Opt.dryRun options = true -> resume i p = Some p' ->
  disk p' = disk p /\ exists target, results p' = results p ++ [(target, DryRun)].
Proof.
  intros Hdry. unfold Builder.resume.
  destruct (workers p !! i) as [[target|]|]; try done.
  rewrite buildTarget_dryRun by done. intros [= <-].
  unfold worker_loop; simpl. destruct (queue p); simpl; eauto.
Qed.

Lemma drain_dryRun fuel : forall schedule p,
  Opt.dryRun options = true ->
  Forall (fun r => r.2 = DryRun) (results p) ->
  disk (drain schedule fuel p) = disk p
  /\ Forall (fun r => r.2 = DryRun) (results (drain schedule fuel p)).
Proof.
  induction fuel as [|fuel IH]; intros schedule p Hdry Hres; simpl; [done|].
  destruct (pick (hd 0 schedule) p) as [i|]; [|done].
  destruct (resume i p) as [p'|] eqn:Hstep; [|done].
  destruct (resume_dryRun _ _ _ Hdry Hstep) as [Hdisk [target Hresults]].
  destruct (IH (tl schedule) p' Hdry) as [Hdisk' Hres'].
  { rewrite Hresults. apply Forall_app. split; [done|]. by constructor. }
  split; [congruence|done].
Qed.

Lemma buildSequential_dryRun matrix fs :
  Opt.dryRun options = true ->
  buildSequential config options matrix outputDir fs
  = (map (fun target => (target, DryRun)) matrix, fs).
Proof.
  intros Hdry. induction matrix as [|target matrix IH]; simpl; [done|].
  by rewrite buildTarget_dryRun, IH.
Qed.

Lemma pick_one_suspended choice queue job rs fs :
  pick choice
    {| Builder.queue := queue; workers := [Some job]; results := rs; disk := fs |}
  = Some 0.
Proof. unfold pick, suspended. simpl. done. Qed.

Lemma drain_one_returned schedule fuel queue rs fs :
  drain schedule fuel
    {| Builder.queue := queue; workers := [None]; results := rs; disk := fs |}
  = {| Builder.queue := queue; workers := [None]; results := rs; disk := fs |}.
Proof. by destruct fuel. Qed.

Lemma buildSequential_cons target matrix fs :
  buildSequential config options (target :: matrix) outputDir fs
  = (let '(result, fs1) := buildTarget config options target outputDir fs in
     ((target, result)
        :: (buildSequential config options matrix outputDir fs1).1,
      (buildSequential config options matrix outputDir fs1).2)).
Proof.
  simpl. destruct (buildTarget config options target outputDir fs) as [result fs1].
  by destruct (buildSequential config options matrix outputDir fs1).
Qed.

(** A pool with one worker, run from the moment the worker holds [job]. *)
Lemma drain_one_worker (queue : list BuildJob) : forall job rs fs schedule fuel,
  length queue < fuel ->
  drain schedule fuel
    {| Builder.queue := queue; workers := [Some job]; results := rs; disk := fs |}
  = {| Builder.queue := []; workers := [None];
       results := rs ++ (buildSequential config options (job :: queue) outputDir fs).1;
       disk := (buildSequential config options (job :: queue) outputDir fs).2 |}.
Proof.
  induction queue as [|next queue IH]; intros job rs fs schedule fuel Hfuel;
    (destruct fuel as [|fuel]; [simpl in Hfuel; lia|]);
    cbn [Builder.drain]; rewrite pick_one_suspended;
    unfold Builder.resume; cbn [workers disk results Builder.queue];
    change ([Some job] !! 0) with (Some (Some job));
    rewrite (buildSequential_cons job);
    destruct (buildTarget config options job outputDir fs) as [result fs1];
    unfold worker_loop; cbn [workers disk results Builder.queue];
    change (<[0:=?x]> [Some job]) with [x].
  - rewrite drain_one_returned. reflexivity.
  - rewrite IH by (simpl in Hfuel; lia). cbn [fst snd].
    by rewrite <- app_assoc.
Qed.

Lemma runBuilds_within schedule matrix fs :
  let results := (runBuilds config options schedule matrix outputDir fs).1 in
  (forall r, In r results -> In r.1 matrix) /\ length results <= length matrix.
Proof.
  assert (forall results : list (BuildJob * BuildResult),
            (exists others, Permutation (map fst results ++ others) matrix) ->
            (forall r, In r results -> In r.1 matrix)
            /\ length results <= length matrix) as Hsub.
  { intros results [others Hperm]. split.
    - intros r Hin. apply (Permutation_in _ Hperm), in_or_app. left.
      by apply in_map.
    - rewrite <- (Permutation_length Hperm), length_app, length_map. lia. }
  unfold runBuilds.
  destruct (Build.parallel (build config) && (1 <? length matrix)); cbv zeta.
  - destruct (buildWithConcurrency_settled config options outputDir schedule
                matrix (Build.maxConcurrency (build config)) fs)
      as (Hreach & _ & ->).
    apply invariant_reachable in Hreach as [_ Hjobs _ _ _]. apply Hsub.
    by eexists.
  - destruct (buildSequential_jobs config options outputDir matrix fs) as [Hjobs _].
    apply Hsub. exists []. by rewrite app_nil_r, Hjobs.
Qed.

End ExecutorMore.

(** X7. In a dry run the build phase leaves the file system as it finds
    it and every result is the synthetic success; the whole run changes
    the prepared output directory at one path only, that of the
    manifest. *)
Theorem dry_run_builds_nothing `{Host} (config : Config) (options : Builder.Opt.t)
    (schedule : list nat) (fs fs2 : Fs.t) :
  let matrix := Builder.generateBuildMatrix config options in
  let outputDir := Builder.outputDirOf config in
  let run := Builder.runBuilds config options schedule matrix outputDir fs2 in
  Builder.Opt.dryRun options = true ->
  run.2 = fs2
  /\ Forall (fun r => r.2 = Builder.DryRun) run.1
  /\ (matrix <> [] -> Builder.prepare config options fs = (fs2, None) ->
      forall p, p <> Spec.manifestPath config ->
        Builder.final (Builder.main config options schedule fs) !! p = fs2 !! p).
Proof.
  intros matrix outputDir run Hdry.
  assert (run.2 = fs2 /\ Forall (fun r => r.2 = Builder.DryRun) run.1) as [Hdisk Hres].
  { subst run. unfold Builder.runBuilds.
    destruct (Build.parallel (build config) && (1 <? length matrix)).
    - unfold Builder.buildWithConcurrency. cbn [fst snd].
      destruct (drain_dryRun config options outputDir (length matrix) schedule
                  (Builder.spawn matrix (Build.maxConcurrency (build config)) fs2)
                  Hdry) as [Hd Hr].
      { rewrite spawn_shape. constructor. }
      split; [|done]. by rewrite Hd, spawn_shape.
    - rewrite buildSequential_dryRun by done. split; [done|].
      apply Forall_map. by apply List.Forall_forall. }
  split; [done|]. split; [done|].
  intros Hplan Hprep p Hp. unfold Builder.main. fold matrix.
  destruct (length matrix =? 0) eqn:Hlen.
  { apply Nat.eqb_eq, length_zero_iff_nil in Hlen. done. }
  rewrite Hprep. fold outputDir. fold run.
  destruct run as [results fs3]. simpl in Hdisk. subst fs3.
  unfold Builder.conclude.
  destruct (0 <? length (List.filter _ results)); [|done].
  unfold Spec.manifestPath in Hp. fold outputDir in Hp.
  destruct (Fs.writeFileSync fs2 _ _) as [fs3|message] eqn:Hw; simpl; [|done].
  apply writeFileSync_Ok_inv in Hw as (_ & _ & ->). by rewrite lookup_insert_ne.
Qed.

Lemma dry_run_builds_nothing_witness :
  let config :=
    Demo.config [Demo.platform "linux-x64" true]
      [Demo.version "18" true true; Demo.version "20" true true] false true 2 in
  let options := Demo.options true in
  let fs : Fs.t := <["/repo/dist" := Fs.Dir]> ∅ in
  (@Builder.runBuilds (Demo.host []) config options [1]
     (Builder.generateBuildMatrix config options) "/repo/dist" fs).2 = fs.
Proof.
  intros config options fs.
  exact (proj1 (@dry_run_builds_nothing (Demo.host []) config options [1] fs fs
                  eq_refl)).
Defined.

(** X8. A result that reports a built artifact is truthful: the run was
    not a dry run, the tool exited successfully and left a regular file
    at the output path, the size and the digest are those of its bytes,
    and the sidecar holding that digest is on disk beside it. *)
Theorem built_result_is_truthful `{Host} (config : Config)
    (options : Builder.Opt.t) (target : Builder.BuildJob) (outputDir : string)
    (fs fs' : Fs.t) (outputPath : string) (size : nat) (digest : string) :
  Builder.buildTarget config options target outputDir fs
    = (Builder.Built outputPath size digest, fs') ->
  let algorithm := Output.hashAlgorithm (output config) in
  Builder.Opt.dryRun options = false
  /\ outputPath = Fs.path_join outputDir (Builder.outputName target)
  /\ exists stdout stderr fs1 bytes hashSum,
       execAsync (Builder.pkgCommand target outputPath) fs
         = Resolved stdout stderr fs1
       /\ fs1 !! outputPath = Some (Fs.File bytes)
       /\ createHash algorithm = Some hashSum
       /\ size = String.length bytes
       /\ digest = Hex.encode (hashSum bytes)
       /\ fs' = <[outputPath +:+ "." +:+ algorithm
                  := Fs.File (digest +:+ "  " +:+ Builder.outputName target
                                     +:+ String "010" EmptyString)]> fs1
       /\ fs' !! outputPath = Some (Fs.File bytes).
Proof.
  intros Hbuild algorithm. subst algorithm. revert Hbuild.
  unfold Builder.buildTarget, Builder.buildTarget_begin.
  destruct (Builder.Opt.dryRun options); [done|].
  set (path := Fs.path_join outputDir (Builder.outputName target)).
  destruct (execAsync (Builder.pkgCommand target path) fs)
    as [stdout stderr fs1|message stderr fs1] eqn:Hexec; simpl; [|done].
  fold path. unfold Builder.afterExec, Builder.generateHash, Fs.existsSync,
    Fs.statSync_size, Fs.readFileSync.
  destruct (fs1 !! path) as [[bytes|]|] eqn:Hfile; simpl; [|done..].
  destruct (createHash (Output.hashAlgorithm (output config)))
    as [hashSum|] eqn:Halg; simpl; [|done].
  destruct (Fs.writeFileSync fs1 _ _) as [fs2|message] eqn:Hw; simpl; [|done].
  apply writeFileSync_Ok_inv in Hw as (_ & _ & ->). intros [= <- <- <- <-].
  split; [done|]. split; [done|].
  exists stdout, stderr, fs1, bytes, hashSum.
  repeat split; try done.
  rewrite lookup_insert_ne; [done|]. by apply append_longer.
Qed.

Lemma built_result_is_truthful_witness :
  let config :=
    Demo.config [Demo.platform "linux-x64" true] [Demo.version "20" true true]
      false false 1 in
  let target :=
    Builder.mkJob config (Demo.platform "linux-x64" true) (Demo.version "20" true true) in
  Builder.Opt.dryRun (Demo.options false) = false.
Proof.
  intros config target.
  refine (proj1 (@built_result_is_truthful (Demo.host []) config (Demo.options false)
                   target "/repo/dist" (<["/repo/dist" := Fs.Dir]> ∅)
                   (@Builder.buildTarget (Demo.host []) config (Demo.options false)
                      target "/repo/dist" (<["/repo/dist" := Fs.Dir]> ∅)).2
                   "/repo/dist/mjml-linux-x64-node20" 20 "066b" _)).
  vm_compute. reflexivity.
Defined.

(** X9. A pool with one worker does what the sequential loop does: the
    same results in plan order and the same file system, whatever the
    schedule. *)
Theorem one_worker_is_sequential `{Host} (config : Config)
    (options : Builder.Opt.t) (schedule : list nat)
    (matrix : list Builder.BuildJob) (outputDir : string) (fs : Fs.t) :
  Builder.buildWithConcurrency config options schedule matrix outputDir 1 fs
  = Builder.buildSequential config options matrix outputDir fs.
Proof.
  unfold Builder.buildWithConcurrency. rewrite spawn_shape.
  destruct matrix as [|job matrix]; [done|].
  replace (Nat.min 1 (length (job :: matrix))) with 1 by (simpl; lia).
  cbn [take drop map]. rewrite take_0, drop_0. cbn [map].
  rewrite drain_one_worker by (simpl; lia).
  cbn [Builder.results Builder.disk app]. symmetry. apply surjective_pairing.
Qed.

(** X10. Jobs leave the queue in plan order: in every state of the
    pool the queue is a suffix of the plan, and the jobs of the plan
    before it are exactly those finished or in flight. *)
Theorem queue_is_suffix_of_plan `{Host} (config : Config)
    (options : Builder.Opt.t) (outputDir : string)
    (matrix : list Builder.BuildJob) (maxConcurrency : nat) (fs : Fs.t)
    (p : Builder.Pool) :
  Spec.reachable config options outputDir matrix maxConcurrency fs p ->
  exists started,
    matrix = started ++ Builder.queue p
    /\ Permutation started (map fst (Builder.results p) ++ Spec.awaited p).
Proof.
  intros Hreach.
  assert (exists started, matrix = started ++ Builder.queue p) as [started Hs].
  { revert p Hreach. unfold Spec.reachable. apply rtc_ind_r.
    - rewrite spawn_shape. simpl. eexists. by rewrite take_drop.
    - intros p p' _ [i Hstep] [started Hs]. unfold Builder.resume in Hstep.
      destruct (Builder.workers p !! i) as [[target|]|]; try done.
      destruct (Builder.buildTarget config options target outputDir (Builder.disk p)).
      injection Hstep as <-. unfold Builder.worker_loop; simpl.
      destruct (Builder.queue p) as [|next rest]; simpl.
      + by exists started.
      + exists (started ++ [next]). by rewrite <- app_assoc. }
  exists started. split; [done|].
  apply (invariant_reachable config options outputDir) in Hreach as [_ Hj _ _ _].
  rewrite Hs, app_assoc in Hj. symmetry. by apply Permutation_app_inv_r in Hj.
Qed.

Lemma queue_is_suffix_of_plan_witness :
  let config :=
    Demo.config [Demo.platform "linux-x64" true]
      [Demo.version "18" true true; Demo.version "20" true true;
       Demo.version "22" true true] false true 2 in
  let options := Demo.options false in
  let matrix := Builder.generateBuildMatrix config options in
  exists started,
    matrix = started ++ Builder.queue (Builder.spawn matrix 2 ∅).
Proof.
  intros config options matrix.
  destruct (@queue_is_suffix_of_plan (Demo.host []) config options "/repo/dist"
              matrix 2 ∅ (Builder.spawn matrix 2 ∅)) as (started & Hs & _).
  - unfold Spec.reachable. apply rtc_refl.
  - by exists started.
Defined.

(** X11. Exit code 0 of the build script means that the build phase ran
    and the summary counts no failure; if a job succeeded, a manifest
    file is on disk. *)
Theorem exit_code_zero_means_no_failure `{Host} (config : Config)
    (options : Builder.Opt.t) (schedule : list nat) (fs : Fs.t) :
  let done := Builder.main config options schedule fs in
  Builder.exitCode done = 0 ->
  exists s,
    Builder.summary done = Some s
    /\ Builder.failed s = 0
    /\ Builder.successful s = Builder.total s
    /\ (1 <= Builder.successful s ->
        exists text,
          Builder.final done !! Spec.manifestPath config = Some (Fs.File text)).
Proof.
  intros done. subst done. unfold Builder.main.
  destruct (length _ =? 0); [done|].
  destruct (Builder.prepare config options fs) as [fs2 [message|]]; [done|].
  destruct (Builder.runBuilds _ _ _ _ _ _) as [results fs3].
  rewrite conclude_summary.
  pose proof (filter_length_split (fun r => Builder.success r.2) results) as Hsplit.
  unfold Builder.conclude, Spec.manifestPath.
  remember (length (List.filter (fun r => Builder.success r.2) results)) as good.
  remember (length (List.filter (fun r => negb (Builder.success r.2)) results))
    as bad.
  intros Hexit. eexists. split; [reflexivity|]. simpl.
  assert (bad = 0) as ->.
  { destruct bad; [done|]. exfalso. revert Hexit.
    by destruct (0 <? good); [destruct (Fs.writeFileSync _ _ _)|]. }
  split; [done|]. split; [lia|]. intros Hgood.
  destruct (0 <? good) eqn:Hpos; [|apply Nat.ltb_ge in Hpos; lia].
  revert Hexit.
  destruct (Fs.writeFileSync fs3 _ _) as [fs4|message] eqn:Hw; simpl; [|done].
  apply writeFileSync_Ok_inv in Hw as (_ & _ & ->). intros _. eexists.
  by rewrite lookup_insert_eq.
Qed.

Lemma exit_code_zero_means_no_failure_witness :
  let config :=
    Demo.config [Demo.platform "linux-x64" true] [Demo.version "20" true true]
      false false 1 in
  exists s,
    Builder.summary (@Builder.main (Demo.host []) config (Demo.options false) [] ∅)
    = Some s /\ Builder.failed s = 0.
Proof.
  intros config.
  destruct (@exit_code_zero_means_no_failure (Demo.host []) config
              (Demo.options false) [] ∅) as (s & Hs & Hf & _).
  - vm_compute. reflexivity.
  - by exists s.
Defined.

(** X12. The manifest lists only jobs of the plan, under their own
    name, platform and version, and never more entries than the plan
    has jobs. *)
Theorem manifest_lists_planned_jobs `{Host} (config : Config)
    (options : Builder.Opt.t) (schedule : list nat)
    (matrix : list Builder.BuildJob) (outputDir : string) (fs : Fs.t) :
  let run := Builder.runBuilds config options schedule matrix outputDir fs in
  let written := Builder.manifestOf run.1 in
  Forall (fun e =>
            exists job,
              In job matrix
              /\ Manifest.name e = Builder.outputName job
              /\ Manifest.platform e = Builder.platform job
              /\ Manifest.nodeVersion e = Builder.nodeVersion job)
    (Manifest.builds written)
  /\ length (Manifest.builds written) <= length matrix.
Proof.
  intros run written.
  destruct (runBuilds_within config options outputDir schedule matrix fs)
    as [Hin Hlen]. fold run in Hin, Hlen.
  subst written. unfold Builder.manifestOf. simpl. split.
  - apply Forall_map, List.Forall_forall. intros r Hr.
    apply List.filter_In in Hr as [Hr _]. exists r.1. split; [by apply Hin|done].
  - rewrite length_map. etransitivity; [apply List.filter_length_le|done].
Qed.

(** ** The verifier, further *)

Lemma endsWith_iff (s suffix : string) :
  Js.endsWith s suffix = true <->
  exists front, Js.chars s = front ++ Js.chars suffix.
Proof.
  unfold Js.endsWith. split.
  - intros Hstart%startsWith_chars_inv.
    exists (rev (drop (length (rev (Js.chars suffix))) (rev (Js.chars s)))).
    rewrite <- (rev_involutive (Js.chars suffix)) at 2.
    rewrite <- rev_app_distr, <- Hstart. by rewrite rev_involutive.
  - intros [front ->]. rewrite rev_app_distr. apply startsWith_chars_app.
Qed.

Lemma endsWith_append (s suffix : string) : Js.endsWith (s +:+ suffix) suffix = true.
Proof. apply endsWith_iff. exists (Js.chars s). apply chars_app. Qed.

(** X13. With a supported algorithm, checking a file against a given
    digest passes exactly when the path holds a regular file whose hex
    digest is the one given; a digest that is [undefined] (a manifest
    entry without hash) never passes; and nothing but the file itself
    is looked at, in particular no sidecar. *)
Theorem verifyFileWithHash_passes_iff `{Host} (config : Config) (fs : Fs.t)
    (p : string) (expected : option string) (hashSum : string -> string) :
  createHash (Output.hashAlgorithm (output config)) = Some hashSum ->
  ((exists r, Verifier.verifyFileWithHash config fs p expected = Fs.Ok r
              /\ Verifier.success r = true)
   <-> exists bytes, fs !! p = Some (Fs.File bytes)
                     /\ expected = Some (Hex.encode (hashSum bytes)))
  /\ (forall r, Verifier.verifyFileWithHash config fs p None = Fs.Ok r ->
        Verifier.success r = false)
  /\ (forall fs' : Fs.t, fs' !! p = fs !! p ->
        Verifier.verifyFileWithHash config fs' p expected
        = Verifier.verifyFileWithHash config fs p expected).
Proof.
  intros Halg.
  unfold Verifier.verifyFileWithHash, Verifier.calculateHash, Fs.existsSync,
    Fs.readFileSync.
  split; [|split].
  - destruct (fs !! p) as [[bytes|]|]; simpl; rewrite ?Halg; simpl.
    + split.
      * intros (r & [= <-] & Hr). exists bytes. split; [done|].
        destruct expected as [e|]; simpl in Hr; [|done].
        by apply String.eqb_eq in Hr as ->.
      * intros (bytes' & [= <-] & ->). eexists. split; [done|]. simpl.
        apply String.eqb_refl.
    + split; [by intros (r & Hr & _)|by intros (bytes & Hb & _)].
    + split; [by intros (r & [= <-] & Hr)|by intros (bytes & Hb & _)].
  - intros r. destruct (fs !! p) as [[bytes|]|]; simpl; rewrite ?Halg; simpl;
      by intros [= <-].
  - intros fs' ->. done.
Qed.

Lemma verifyFileWithHash_passes_iff_witness :
  let config := Demo.config [] [] false false 1 in
  let fs : Fs.t := <["/repo/dist/a" := Fs.File "AAA"]> ∅ in
  exists r,
    @Verifier.verifyFileWithHash (Demo.host []) config fs "/repo/dist/a"
      (Some "00c3") = Fs.Ok r
    /\ Verifier.success r = true.
Proof.
  intros config fs.
  apply (proj2 (proj1 (@verifyFileWithHash_passes_iff (Demo.host []) config fs
                         "/repo/dist/a" (Some "00c3") Demo.sum16 eq_refl))).
  exists "AAA". split; vm_compute; reflexivity.
Defined.

Local Abbreviation single := (map (fun c : ascii => [c])).

(** X14. With a supported algorithm, checking a file against its
    sidecar passes exactly when both are regular files and the first
    token of the sidecar, decoded as UTF-8 and trimmed, is the hex
    digest of the file. The name recorded in the sidecar plays no part:
    a sidecar carrying the right digest and any other name passes. The
    white space is that of the decoded text: a byte order mark before
    the digest and a no-break space (the bytes C2 A0) after it are
    skipped, whereas a lone byte A0 after the digest, which is decoded
    to U+FFFD, becomes part of the token and the check fails. *)
Theorem verifyFile_passes_iff `{Host} (config : Config) (fs : Fs.t)
    (p : string) (hashSum : string -> string) :
  let algorithm := Output.hashAlgorithm (output config) in
  let sidecar := p +:+ "." +:+ algorithm in
  let passes :=
    exists r, Verifier.verifyFile config fs p = Fs.Ok r
              /\ Verifier.success r = true in
  let bom := String "239" (String "187" (String "191" EmptyString)) in
  let nbsp := String "194" (String "160" EmptyString) in
  createHash algorithm = Some hashSum ->
  (passes
   <-> exists bytes text,
         fs !! p = Some (Fs.File bytes)
         /\ fs !! sidecar = Some (Fs.File text)
         /\ Js.first_token (Js.trim (Js.utf8 text)) = Hex.encode (hashSum bytes))
  /\ (forall bytes other,
        fs !! p = Some (Fs.File bytes) ->
        hashSum bytes <> "" ->
        fs !! sidecar
          = Some (Fs.File (Hex.encode (hashSum bytes) +:+ "  " +:+ other
                             +:+ String "010" EmptyString)) ->
        passes)
  /\ (forall bytes other,
        fs !! p = Some (Fs.File bytes) ->
        hashSum bytes <> "" ->
        fs !! sidecar
          = Some (Fs.File (bom +:+ Hex.encode (hashSum bytes) +:+ nbsp +:+ other)) ->
        passes)
  /\ (forall bytes other,
        fs !! p = Some (Fs.File bytes) ->
        fs !! sidecar
          = Some (Fs.File (Hex.encode (hashSum bytes) +:+ String "160" other)) ->
        ~ passes).
Proof.
  intros algorithm sidecar passes bom nbsp Halg.
  assert (passes
          <-> exists bytes text,
                fs !! p = Some (Fs.File bytes)
                /\ fs !! sidecar = Some (Fs.File text)
                /\ Js.first_token (Js.trim (Js.utf8 text))
                   = Hex.encode (hashSum bytes))
    as Hiff.
  { subst passes.
    unfold Verifier.verifyFile, Verifier.calculateHash, Fs.existsSync,
      Fs.readFileSync. fold algorithm sidecar.
    destruct (fs !! p) as [[bytes|]|]; simpl.
    - destruct (fs !! sidecar) as [[text|]|]; simpl; rewrite ?Halg; simpl.
      + split.
        * intros (r & [= <-] & Hr). exists bytes, text. simpl in Hr.
          by apply String.eqb_eq in Hr.
        * intros (bytes' & text' & [= <-] & [= <-] & Heq). eexists.
          split; [done|]. simpl. rewrite Heq. apply String.eqb_refl.
      + split; [by intros (r & Hr & _)|by intros (b & t & _ & Ht & _)].
      + split; [by intros (r & [= <-] & Hr)|by intros (b & t & _ & Ht & _)].
    - destruct (fs !! sidecar) as [[text|]|]; simpl;
        (split; [by intros (r & Hr & Hs); try injection Hr as <-
                |by intros (b & t & Hb & _)]).
    - split; [by intros (r & [= <-] & Hr)|by intros (b & t & Hb & _)]. }
  assert (forall bytes, hashSum bytes <> "" ->
                        Js.chars (Hex.encode (hashSum bytes)) <> []) as Hsome.
  { intros bytes Hne. by apply hex_nonempty. }
  split; [exact Hiff|]. split; [|split].
  - intros bytes other Hfile Hne Hside. apply Hiff. exists bytes. eexists.
    split; [done|]. split; [exact Hside|].
    apply sidecar_read_back; [|apply hex_ascii|apply hex_solid].
    intros Hnil. apply (f_equal Js.chars) in Hnil. by apply Hsome in Hnil.
  - intros bytes other Hfile Hne Hside. apply Hiff. exists bytes. eexists.
    split; [done|]. split; [exact Hside|].
    unfold Js.utf8. subst bom nbsp. rewrite !chars_app.
    change (Js.utf8_chars
              (Js.chars (String "239" (String "187" (String "191" EmptyString)))
               ++ ?l))
      with (["239"; "187"; "191"]%char :: Js.utf8_chars l).
    rewrite (utf8_chars_ascii _ _ (hex_ascii _)).
    change (Js.utf8_chars
              (Js.chars (String "194" (String "160" EmptyString)) ++ ?l))
      with (["194"; "160"]%char :: Js.utf8_chars l).
    pose proof (first_token_trim [["239"; "187"; "191"]%char]
                  (single (Js.chars (Hex.encode (hashSum bytes))))
                  (["194"; "160"]%char :: Js.utf8_chars (Js.chars other)))
      as Hread.
    cbn [app] in Hread. rewrite Hread;
      [by rewrite of_text_single, of_chars_chars
      |by repeat constructor
      |intros Hnil%(f_equal (@length _)); rewrite length_map in Hnil;
       by apply length_zero_iff_nil, Hsome in Hnil
      |apply hex_solid|done].
  - intros bytes other Hfile Hside Hpass. apply Hiff in Hpass
      as (bytes' & text & Hfile' & Hside' & Htoken).
    rewrite Hfile in Hfile'. injection Hfile' as <-.
    rewrite Hside in Hside'. injection Hside' as <-.
    revert Htoken. unfold Js.utf8. rewrite chars_app.
    rewrite (utf8_chars_ascii _ _ (hex_ascii _)).
    change (Js.utf8_chars (Js.chars (String "160" other)))
      with (Js.replacement :: Js.utf8_chars (Js.chars other)).
    destruct (trim_solid_prefix
                (single (Js.chars (Hex.encode (hashSum bytes)))
                 ++ [Js.replacement])
                (Js.utf8_chars (Js.chars other)))
      as (kept & dropped & _ & Htrim).
    { by destruct (single _). }
    { apply Forall_app. split; [apply hex_solid|by repeat constructor]. }
    rewrite <- app_assoc in Htrim. cbn [app] in Htrim. rewrite Htrim.
    destruct (first_token_starts
                (single (Js.chars (Hex.encode (hashSum bytes)))
                 ++ [Js.replacement]) kept) as [more ->].
    { apply Forall_app. split; [apply hex_solid|by repeat constructor]. }
    rewrite <- !app_assoc, of_text_app, of_text_single, of_chars_chars.
    by apply append_longer.
Qed.

Lemma verifyFile_passes_iff_witness :
  let config := Demo.config [] [] false false 1 in
  let fs : Fs.t :=
    <["/repo/dist/a" := Fs.File "AAA"]>
      (<["/repo/dist/a.sha256"
         := Fs.File (String "239" (String "187" (String "191" "00c3"))
                       +:+ String "194" (String "160" "some-other-name"))]> ∅) in
  exists r,
    @Verifier.verifyFile (Demo.host []) config fs "/repo/dist/a" = Fs.Ok r
    /\ Verifier.success r = true.
Proof.
  intros config fs.
  refine (proj1 (proj2 (proj2 (@verifyFile_passes_iff (Demo.host []) config fs
                                 "/repo/dist/a" Demo.sum16 eq_refl)))
            "AAA" "some-other-name" _ _ _);
    vm_compute; first [reflexivity | discriminate].
Defined.

(** X15. What the scripts write beside the artifacts is never taken for
    an artifact: a hash sidecar, the manifest and an archive made by
    the packaging script are left out by bulk verification and by bulk
    packaging alike. *)
Theorem byproducts_are_not_artifacts (config : Config) (name : string) :
  let algorithm := Output.hashAlgorithm (output config) in
  Verifier.isBinary config (name +:+ "." +:+ algorithm) = false
  /\ Verifier.isBinary config "manifest.json" = false
  /\ Verifier.isBinary config (Packager.zipNameOf name) = false
  /\ Packager.isBinary config (name +:+ "." +:+ algorithm) = false
  /\ Packager.isBinary config "manifest.json" = false
  /\ Packager.isBinary config (Packager.zipNameOf name) = false.
Proof.
  intros algorithm. unfold Verifier.isBinary, Packager.isBinary, Packager.zipNameOf.
  fold algorithm. rewrite !endsWith_append.
  assert (Js.endsWith "manifest.json" ".json" = true) as -> by reflexivity.
  simpl. by rewrite !andb_false_r.
Qed.

(** ** The packaging script *)

Section ZipNames.
Implicit Types (l : list ascii) (name : string).

Lemma stripExe_exe l : Packager.stripExe (l ++ Js.chars ".exe") = l.
Proof.
  induction l as [|c l IH]; [reflexivity|]. cbn [app Packager.stripExe].
  rewrite (bool_decide_eq_false_2 (l ++ _ = Js.chars "exe")),
          (bool_decide_eq_false_2 (l ++ _ = [])).
  - by rewrite andb_false_r, IH.
  - intros Heq%(f_equal length). rewrite length_app in Heq. simpl in Heq. lia.
  - intros Heq%(f_equal length). rewrite length_app in Heq. simpl in Heq. lia.
Qed.

Lemma stripExe_dot l : Packager.stripExe (l ++ Js.chars ".") = l.
Proof.
  induction l as [|c l IH]; [reflexivity|]. cbn [app Packager.stripExe].
  rewrite (bool_decide_eq_false_2 (l ++ _ = Js.chars "exe")),
          (bool_decide_eq_false_2 (l ++ _ = [])).
  - by rewrite andb_false_r, IH.
  - intros Heq%(f_equal length). rewrite length_app in Heq. simpl in Heq. lia.
  - change (Js.chars "exe") with (Js.chars "ex" ++ Js.chars "e").
    change (Js.chars ".") with ["."%char]. change (Js.chars "e") with ["e"%char].
    by intros [_ [=]]%app_inj_tail.
Qed.

Lemma stripExe_other l :
  (forall front, l <> front ++ Js.chars ".exe") ->
  (forall front, l <> front ++ Js.chars ".") ->
  Packager.stripExe l = l.
Proof.
  induction l as [|c l IH]; intros Hexe Hdot; [done|]. cbn [Packager.stripExe].
  destruct (Ascii.eqb c "." && _) eqn:Htest.
  - exfalso. apply andb_true_iff in Htest as [Hc Hrest].
    apply Ascii.eqb_eq in Hc as ->. apply orb_true_iff in Hrest as [Hr|Hr];
      apply bool_decide_eq_true in Hr as ->.
    + by apply (Hexe []).
    + by apply (Hdot []).
  - f_equal. apply IH.
    + intros front ->. by apply (Hexe (c :: front)).
    + intros front ->. by apply (Hdot (c :: front)).
Qed.

Lemma not_endsWith name suffix :
  Js.endsWith name suffix = false ->
  forall front, Js.chars name <> front ++ Js.chars suffix.
Proof.
  intros Hends front Heq.
  assert (Js.endsWith name suffix = true) as Htrue
    by (apply endsWith_iff; by exists front).
  congruence.
Qed.

End ZipNames.

(** X16. The archive of a binary is named after it, with one trailing
    ".exe" or one trailing "." taken off and ".zip" put on; a name with
    neither ending just gets ".zip". So the name always ends in ".zip",
    and a binary and its ".exe" twin are given the same archive name. *)
Theorem archive_name (name : string) :
  Packager.zipNameOf (name +:+ ".exe") = name +:+ ".zip"
  /\ Packager.zipNameOf (name +:+ ".") = name +:+ ".zip"
  /\ (Js.endsWith name ".exe" = false -> Js.endsWith name "." = false ->
      Packager.zipNameOf name = name +:+ ".zip"
      /\ Packager.zipNameOf (name +:+ ".exe") = Packager.zipNameOf name)
  /\ Js.endsWith (Packager.zipNameOf name) ".zip" = true.
Proof.
  unfold Packager.zipNameOf.
  assert (Js.of_chars (Packager.stripExe (Js.chars (name +:+ ".exe"))) = name) as Hexe.
  { by rewrite chars_app, stripExe_exe, of_chars_chars. }
  split; [by rewrite Hexe|]. split.
  { by rewrite chars_app, stripExe_dot, of_chars_chars. }
  split; [|apply endsWith_append].
  intros Hnoexe Hnodot. rewrite Hexe.
  rewrite stripExe_other, of_chars_chars; [done|by apply not_endsWith..].
Qed.

Lemma archive_name_witness :
  Packager.zipNameOf "mjml-linux-x64-node20" = "mjml-linux-x64-node20.zip"
  /\ Packager.zipNameOf "mjml-win-x64-node20.exe"
     = Packager.zipNameOf "mjml-win-x64-node20".
Proof.
  destruct (proj1 (proj2 (proj2 (archive_name "mjml-linux-x64-node20")))
              eq_refl eq_refl) as [Hplain _].
  destruct (proj1 (proj2 (proj2 (archive_name "mjml-win-x64-node20")))
              eq_refl eq_refl) as [_ Htwin].
  split; [exact Hplain|exact Htwin].
Defined.

Section Packaging.
Import Packager.
Context `{Host} `{Archiver}.
Implicit Types (config : Config) (fs : Fs.t).

Lemma split_last_None (l : list ascii) :
  existsb (Ascii.eqb "/") l = false -> Path.split_last l = None.
Proof.
  induction l as [|c l IH]; [done|]. cbn [existsb Path.split_last].
  intros [Hc Hl]%orb_false_iff. rewrite (IH Hl).
  destruct (Ascii.eqb c "/") eqn:Hslash; [|done].
  apply Ascii.eqb_eq in Hslash as ->. by rewrite Ascii.eqb_refl in Hc.
Qed.

Lemma split_last_join (d n : list ascii) :
  existsb (Ascii.eqb "/") n = false ->
  Path.split_last (d ++ "/"%char :: n) = Some (d, n).
Proof.
  intros Hn. induction d as [|c d IH]; cbn [app Path.split_last].
  - by rewrite split_last_None, Ascii.eqb_refl.
  - by rewrite IH.
Qed.

Lemma chars_path_join' dir name :
  Js.chars (Fs.path_join dir name) = Js.chars dir ++ "/"%char :: Js.chars name.
Proof. unfold Fs.path_join. by rewrite !chars_app. Qed.

Lemma basename_path_join dir name :
  existsb (Ascii.eqb "/") (Js.chars name) = false ->
  Path.basename (Fs.path_join dir name) = name.
Proof.
  intros Hn. unfold Path.basename.
  by rewrite chars_path_join', split_last_join, of_chars_chars.
Qed.

Lemma dirname_path_join dir name :
  existsb (Ascii.eqb "/") (Js.chars name) = false -> dir <> "" ->
  Path.dirname (Fs.path_join dir name) = dir.
Proof.
  intros Hn Hdir. unfold Path.dirname.
  rewrite chars_path_join', split_last_join by done.
  destruct dir as [|c dir]; [done|]. simpl. by rewrite of_chars_chars.
Qed.

Lemma join_path_join dir name :
  dir <> "." -> dir <> "/" -> Path.join dir name = Fs.path_join dir name.
Proof.
  intros Hdot Hroot. unfold Path.join, Js.str_eq.
  apply String.eqb_neq in Hdot, Hroot. by rewrite Hdot, Hroot.
Qed.

(** The loop of [packageAll] pushes one result per file, in order. *)
Lemma packageEach_results config outputDir (files : list string) : forall fs,
  map fst (packageEach config outputDir files fs).1.2 = files.
Proof.
  induction files as [|file files IH]; intros fs; simpl; [done|].
  destruct (createZip config (Fs.path_join outputDir file) fs) as [result fs1].
  specialize (IH fs1).
  destruct (packageEach config outputDir files fs1) as [[lines results] fs2].
  simpl in IH. destruct result; simpl; by rewrite IH.
Qed.


End Packaging.

(** X17. The packaging script has nothing to do, and does not run the
    archiver (the file system is left as it was), in three cases: the
    output directory is missing (failure, exit code 1); it holds
    nothing but sidecars, .json and .zip files (success, exit code 0);
    the single file asked for does not exist (failure). *)
Theorem nothing_to_package `{Host} `{Archiver} (config : Config) (fs : Fs.t) :
  let outputDir := Packager.outputDirOf config in
  let bulk := fun verbose =>
    {| Packager.Opt.file := None; Packager.Opt.all := true;
       Packager.Opt.verbose := verbose |} in
  (fs !! outputDir = None ->
   forall verbose,
     Packager.main config (bulk verbose) fs
     = ([Packager.Banner; Packager.OutputDirNotFound outputDir;
         Packager.NotComplete], fs, 1))
  /\ (fs !! outputDir = Some Fs.Dir ->
      Forall (fun f => Packager.isBinary config f = false)
        (Fs.children fs outputDir) ->
      forall verbose,
        Packager.main config (bulk verbose) fs
        = ([Packager.Banner; Packager.NoBinaryFiles; Packager.Complete], fs, 0))
  /\ (forall filePath, fs !! filePath = None ->
        Packager.packageSingle config filePath fs
        = ([Packager.BinaryNotFound filePath], fs, Fs.Ok false)).
Proof.
  intros outputDir bulk. split; [|split].
  - intros Hnone verbose. unfold Packager.main, Packager.packageAll, Fs.existsSync.
    simpl. fold outputDir. by rewrite Hnone.
  - intros Hdir Hnone verbose.
    unfold Packager.main, Packager.packageAll, Fs.existsSync, Fs.readdirSync.
    simpl. fold outputDir. rewrite Hdir. simpl.
    by rewrite (filter_none _ _ Hnone).
  - intros filePath Hnone. unfold Packager.packageSingle, Fs.existsSync.
    by rewrite Hnone.
Qed.



(** X19. The archive of a binary of the output directory is written
    beside it, under the archive name of the binary; it is fed the
    binary under its bare name, then the hash sidecar, the README and
    the LICENSE, each only if it exists. *)
Theorem archive_is_beside_binary `{Host} `{Archiver} (config : Config)
    (fs : Fs.t) (dir file : string) :
  let algorithm := Output.hashAlgorithm (output config) in
  let binaryPath := Fs.path_join dir file in
  let zipPath := Fs.path_join dir (Packager.zipNameOf file) in
  let entries :=
    [(binaryPath, file)]
    ++ (if Fs.existsSync fs (binaryPath +:+ "." +:+ algorithm)
        then [(binaryPath +:+ "." +:+ algorithm, file +:+ "." +:+ algorithm)]
        else [])
    ++ (if Fs.existsSync fs (Fs.path_join projectRoot "README.md")
        then [(Fs.path_join projectRoot "README.md", "README.md")] else [])
    ++ (if Fs.existsSync fs (Fs.path_join projectRoot "LICENSE")
        then [(Fs.path_join projectRoot "LICENSE", "LICENSE")] else []) in
  existsb (Ascii.eqb "/") (Js.chars file) = false ->
  dir <> "" -> dir <> "." -> dir <> "/" ->
  Packager.createZip config binaryPath fs
  = match zip (Output.compressionLevel (output config)) zipPath entries fs with
    | Closed size fs' => (Packager.Zipped zipPath size, fs')
    | Errored message fs' => (Packager.ZipFailed message, fs')
    end.
Proof.
  intros algorithm binaryPath zipPath entries Hfile Hdir Hdot Hroot.
  subst binaryPath zipPath entries algorithm.
  unfold Packager.createZip, Packager.entriesOf.
  by rewrite !basename_path_join, !dirname_path_join, !join_path_join.
Qed.

Lemma archive_is_beside_binary_witness :
  let config := Demo.config [] [] false false 1 in
  let fs : Fs.t :=
    <["/repo/dist/mjml.exe" := Fs.File "MZ"]>
      (<["/repo/LICENSE" := Fs.File "MIT"]> ∅) in
  @Packager.createZip (Demo.host []) DemoZip.archiver config
    (Fs.path_join "/repo/dist" "mjml.exe") fs
  = (Packager.Zipped "/repo/dist/mjml.zip" 19,
     <["/repo/dist/mjml.zip" := Fs.File "PKmjml.exe;LICENSE;"]> fs).
Proof.
  intros config fs.
  rewrite (@archive_is_beside_binary (Demo.host []) DemoZip.archiver config fs
             "/repo/dist" "mjml.exe" eq_refl);
    [|discriminate..].
  vm_compute. reflexivity.
Defined.

(** ** The clean script *)

Section CleanFlat.
Implicit Types (fs : Fs.t) (dir name p : string).

Lemma removeDir_flat depth (options : Cleaner.Opt.t) dir fs :
  fs !! dir = Some Fs.Dir ->
  (forall name, In name (Fs.children fs dir) ->
     exists c, fs !! Fs.path_join dir name = Some (Fs.File c)) ->
  Cleaner.removeDir (S depth) options dir fs
  = Some (if Cleaner.Opt.verbose options
          then map Cleaner.Removing (Fs.children fs dir) else [],
          (Builder.unlinkEach dir (Fs.children fs dir) fs).1,
          Fs.Ok (length (Fs.children fs dir))).
Proof.
  intros Hdir Hfiles. cbn [Cleaner.removeDir].
  unfold Fs.existsSync, Fs.readdirSync. rewrite Hdir. cbn [negb].
  pose proof (children_NoDup fs dir) as Hnd.
  change (length (Fs.children fs dir)) with (0 + length (Fs.children fs dir)).
  match goal with |- ?each _ _ 0 = _ => set (loop := each) end.
  generalize 0 as count. subst loop.
  revert Hnd Hfiles. generalize (Fs.children fs dir) as files.
  intros files. revert fs Hdir.
  induction files as [|file files IH]; intros fs Hdir Hnd Hfiles count.
  - simpl. destruct (Cleaner.Opt.verbose options); by rewrite Nat.add_0_r.
  - apply NoDup_cons in Hnd as [Hfile Hnd]. rewrite list_elem_of_In in Hfile.
    destruct (Hfiles file (or_introl eq_refl)) as [c Hc].
    cbn [Builder.unlinkEach].
    unfold Cleaner.isDirectory, Fs.unlinkSync. rewrite Hc.
    rewrite IH; [| |done|].
    + cbn [length map]. destruct (Cleaner.Opt.verbose options); simpl;
        do 3 f_equal; lia.
    + rewrite lookup_delete_ne; [done|]. apply path_join_longer.
    + intros name Hin. destruct (Hfiles name (or_intror Hin)) as [c' Hc'].
      exists c'. rewrite lookup_delete_ne; [done|].
      intros Heq%path_join_inj. by subst.
Qed.

End CleanFlat.

Section CleanTree.
Implicit Types (fs : Fs.t) (dir name p : string) (l : list ascii).

Local Abbreviation slashFree name :=
  (existsb (Ascii.eqb "/") (Js.chars name) = false).

Lemma chars_join dir name :
  Js.chars (Fs.path_join dir name) = Js.chars dir ++ "/"%char :: Js.chars name.
Proof. unfold Fs.path_join. by rewrite !chars_app. Qed.

Lemma under_join dir name : More.under dir (Fs.path_join dir name).
Proof. by exists name. Qed.

Lemma under_trans dir name p :
  More.under (Fs.path_join dir name) p -> More.under dir p.
Proof.
  intros [rest ->]. exists (Fs.path_join name rest). apply chars_inj.
  rewrite !chars_join. by rewrite <- app_assoc.
Qed.

Lemma not_under_self dir : ~ More.under dir dir.
Proof. intros [rest Heq]. symmetry in Heq. by apply path_join_longer in Heq. Qed.

(** Two names without a slash that start the same path are the same
    name. *)
Lemma segment_inj l l' (t t' : list ascii) :
  existsb (Ascii.eqb "/") l = false ->
  existsb (Ascii.eqb "/") l' = false ->
  (t = [] \/ exists r, t = "/"%char :: r) ->
  (t' = [] \/ exists r, t' = "/"%char :: r) ->
  l ++ t = l' ++ t' -> l = l'.
Proof.
  revert l'. induction l as [|c l IH]; intros [|c' l']; cbn [existsb app].
  - done.
  - intros _ [Hc _]%orb_false_iff [->|[r ->]] _; [done|].
    intros [= <- _]. by rewrite Ascii.eqb_refl in Hc.
  - intros [Hc _]%orb_false_iff _ _ [->|[r ->]]; [done|].
    intros [= -> _]. by rewrite Ascii.eqb_refl in Hc.
  - intros [_ Hl]%orb_false_iff [_ Hl']%orb_false_iff Ht Ht' [= -> Heq].
    f_equal. by apply IH.
Qed.

(** The part of the tree that an entry [name] of [dir] stands for. *)
Lemma entry_disjoint dir name name' p :
  slashFree name -> slashFree name' ->
  (p = Fs.path_join dir name \/ More.under (Fs.path_join dir name) p) ->
  (p = Fs.path_join dir name' \/ More.under (Fs.path_join dir name') p) ->
  name = name'.
Proof.
  intros Hname Hname' Hp Hp'.
  assert (forall n, p = Fs.path_join dir n \/ More.under (Fs.path_join dir n) p ->
          exists t, (t = [] \/ exists r, t = "/"%char :: r)
                    /\ Js.chars p = Js.chars dir ++ "/"%char :: Js.chars n ++ t)
    as Hshape.
  { intros n [->|[rest ->]].
    - exists []. split; [by left|]. by rewrite chars_join, app_nil_r.
    - exists ("/"%char :: Js.chars rest). split; [right; by eexists|].
      rewrite !chars_join. by rewrite <- app_assoc. }
  destruct (Hshape _ Hp) as (t & Ht & Heq), (Hshape _ Hp') as (t' & Ht' & Heq').
  rewrite Heq in Heq'. apply app_inv_head in Heq'. injection Heq' as Heq'.
  apply chars_inj. by apply (segment_inj _ _ t t').
Qed.

Lemma children_slashFree fs dir name :
  In name (Fs.children fs dir) -> slashFree name.
Proof. intros [_ Hc]%In_children. by apply child_name_Some in Hc as (_ & _ & ?). Qed.

(** [treeWithin] looks at nothing but the paths below the directory. *)
Lemma treeWithin_agree depth : forall dir fs fs',
  (forall p, More.under dir p -> fs' !! p = fs !! p) ->
  More.treeWithin depth fs dir = true -> More.treeWithin depth fs' dir = true.
Proof.
  induction depth as [|depth IH]; intros dir fs fs' Hagree; simpl; [done|].
  rewrite !forallb_forall. intros Htree name Hin.
  rewrite Hagree by apply under_join.
  assert (In name (Fs.children fs dir)) as Hin'.
  { apply In_children. apply In_children in Hin as [Hsome Hc].
    by rewrite Hagree in Hsome by apply under_join. }
  specialize (Htree name Hin').
  destruct (fs !! Fs.path_join dir name) as [[c|]|]; [done| |done].
  apply (IH _ fs); [|done]. intros p Hp%under_trans. by apply Hagree.
Qed.

Lemma regularFiles_delete_file fs p c :
  fs !! p = Some (Fs.File c) ->
  More.regularFiles fs = S (More.regularFiles (delete p fs)).
Proof.
  intros Hp. unfold More.regularFiles.
  rewrite <- (Permutation_length
                (filter_Permutation' More.isFile _ _ (map_to_list_delete fs p _ Hp))).
  done.
Qed.

Lemma regularFiles_delete_dir fs p :
  fs !! p = Some Fs.Dir ->
  More.regularFiles (delete p fs) = More.regularFiles fs.
Proof.
  intros Hp. unfold More.regularFiles.
  rewrite <- (Permutation_length
                (filter_Permutation' More.isFile _ _ (map_to_list_delete fs p _ Hp))).
  done.
Qed.

Lemma removeDir_tree (options : Cleaner.Opt.t) : forall depth dir fs,
  More.treeWithin depth fs dir = true ->
  fs !! dir = Some Fs.Dir ->
  exists lines fs' n,
    Cleaner.removeDir depth options dir fs = Some (lines, fs', Fs.Ok n)
    /\ (forall p, ~ More.under dir p -> fs' !! p = fs !! p)
    /\ (forall p, fs' !! p = None \/ fs' !! p = fs !! p)
    /\ Fs.children fs' dir = []
    /\ n + More.regularFiles fs' = More.regularFiles fs.
Proof.
  induction depth as [|depth IH]; intros dir fs Htree Hdir; [done|].
  cbn [Cleaner.removeDir More.treeWithin] in *.
  unfold Fs.existsSync, Fs.readdirSync. rewrite Hdir. cbn [negb].
  rewrite forallb_forall in Htree.
  pose proof (children_NoDup fs dir) as Hnd.
  pose proof (children_slashFree fs dir) as Hfree.
  match goal with
  | |- context [?each (Fs.children fs dir) fs 0] => set (loop := each)
  end.
  assert (forall files fs1 count,
    NoDup files ->
    (forall name, In name files -> slashFree name) ->
    (forall name, In name files ->
       match fs1 !! Fs.path_join dir name with
       | Some (Fs.File _) => true
       | Some Fs.Dir => More.treeWithin depth fs1 (Fs.path_join dir name)
       | None => false
       end = true) ->
    exists lines fs' n,
      loop files fs1 count = Some (lines, fs', Fs.Ok (count + n))
      /\ (forall p, (forall name, In name files ->
                       p <> Fs.path_join dir name
                       /\ ~ More.under (Fs.path_join dir name) p) ->
            fs' !! p = fs1 !! p)
      /\ (forall p, fs' !! p = None \/ fs' !! p = fs1 !! p)
      /\ (forall name, In name files -> fs' !! Fs.path_join dir name = None)
      /\ n + More.regularFiles fs' = More.regularFiles fs1) as Hloop.
  { subst loop. clear Htree Hnd Hfree Hdir fs.
    induction files as [|file rest IHl]; intros fs1 count Hnd Hfree Hentry.
    - exists [], fs1, 0. rewrite Nat.add_0_r. split; [done|]. split; [done|].
      split; [by right|]. split; [intros ? []|done].
    - apply NoDup_cons in Hnd as [Hfile Hnd]. rewrite list_elem_of_In in Hfile.
      pose proof (Hentry file (or_introl eq_refl)) as Hhead.
      set (sub := Fs.path_join dir file) in *.
      assert (forall fs2,
        (forall p, p <> sub -> ~ More.under sub p -> fs2 !! p = fs1 !! p) ->
        forall name, In name rest ->
          match fs2 !! Fs.path_join dir name with
          | Some (Fs.File _) => true
          | Some Fs.Dir => More.treeWithin depth fs2 (Fs.path_join dir name)
          | None => false
          end = true) as Hnext.
      { intros fs2 Hsame name Hin.
        assert (name <> file) as Hne by (by intros ->).
        pose proof (Hfree name (or_intror Hin)) as Hslash.
        pose proof (Hfree file (or_introl eq_refl)) as Hslash'.
        assert (forall p, p = Fs.path_join dir name
                          \/ More.under (Fs.path_join dir name) p ->
                          fs2 !! p = fs1 !! p) as Hagree.
        { intros p Hp. apply Hsame.
          - intros ->. apply Hne.
            apply (entry_disjoint dir name file sub); auto.
          - intros Hu. apply Hne.
            apply (entry_disjoint dir name file p); auto. }
        rewrite Hagree by (by left).
        pose proof (Hentry name (or_intror Hin)) as Hname.
        destruct (fs1 !! Fs.path_join dir name) as [[c|]|]; [done| |done].
        apply (treeWithin_agree _ _ fs1); [|done]. intros p Hp. apply Hagree.
        by right. }
      assert (forall fs2 p,
        (forall p, p <> sub -> ~ More.under sub p -> fs2 !! p = fs1 !! p) ->
        (forall name, In name (file :: rest) ->
           p <> Fs.path_join dir name /\ ~ More.under (Fs.path_join dir name) p) ->
        fs2 !! p = fs1 !! p) as Hout.
      { intros fs2 p Hsame Hp. by apply Hsame; apply (Hp file); left. }
      simpl. fold sub.
      destruct (fs1 !! sub) as [[c|]|] eqn:Hsub; [| |done].
      + (* a regular file *)
        assert (Cleaner.isDirectory fs1 sub = Fs.Ok false) as ->
          by (unfold Cleaner.isDirectory; by rewrite Hsub).
        assert (Fs.unlinkSync fs1 sub = Fs.Ok (delete sub fs1)) as ->
          by (unfold Fs.unlinkSync; by rewrite Hsub).
        assert (forall p, p <> sub -> ~ More.under sub p ->
                          delete sub fs1 !! p = fs1 !! p) as Hsame.
        { intros p Hp _. by rewrite lookup_delete_ne. }
        destruct (IHl (delete sub fs1) (count + 1) Hnd
                    (fun name Hin => Hfree name (or_intror Hin))
                    (Hnext _ Hsame))
          as (more & fs' & n & -> & Hframe & Hdel & Hgone & Hcount).
        eexists _, fs', (1 + n). split; [by rewrite Nat.add_assoc|].
        split; [|split; [|split]].
        * intros p Hp. rewrite Hframe by (intros; apply Hp; by right).
          by apply Hout.
        * intros p. destruct (Hdel p) as [->| ->]; [by left|].
          destruct (decide (p = sub)) as [->|Hp];
            [left; by rewrite lookup_delete_eq|right; by rewrite lookup_delete_ne].
        * intros name [<-|Hin]; [|by apply Hgone]. fold sub.
          destruct (Hdel sub) as [->| ->]; [done|]. by rewrite lookup_delete_eq.
        * rewrite (regularFiles_delete_file fs1 sub c Hsub). lia.
      + (* a directory *)
        assert (Cleaner.isDirectory fs1 sub = Fs.Ok true) as ->
          by (unfold Cleaner.isDirectory; by rewrite Hsub).
        destruct (IH sub fs1 Hhead Hsub)
          as (lines & fsA & nA & -> & HframeA & HdelA & HemptyA & HcountA).
        assert (fsA !! sub = Some Fs.Dir) as HsubA.
        { rewrite HframeA; [done|]. apply not_under_self. }
        assert (Cleaner.rmdirSync fsA sub = Fs.Ok (delete sub fsA)) as ->
          by (unfold Cleaner.rmdirSync; by rewrite HsubA, HemptyA).
        assert (forall p, p <> sub -> ~ More.under sub p ->
                          delete sub fsA !! p = fs1 !! p) as Hsame.
        { intros p Hp Hu. rewrite lookup_delete_ne by done. by apply HframeA. }
        destruct (IHl (delete sub fsA) (count + nA) Hnd
                    (fun name Hin => Hfree name (or_intror Hin))
                    (Hnext _ Hsame))
          as (more & fs' & n & -> & Hframe & Hdel & Hgone & Hcount).
        eexists _, fs', (nA + n). split; [by rewrite Nat.add_assoc|].
        split; [|split; [|split]].
        * intros p Hp. rewrite Hframe by (intros; apply Hp; by right).
          by apply Hout.
        * intros p. destruct (Hdel p) as [->| ->]; [by left|].
          destruct (decide (p = sub)) as [->|Hp];
            [left; by rewrite lookup_delete_eq|].
          rewrite lookup_delete_ne by done. apply HdelA.
        * intros name [<-|Hin]; [|by apply Hgone]. fold sub.
          destruct (Hdel sub) as [->| ->]; [done|]. by rewrite lookup_delete_eq.
        * rewrite (regularFiles_delete_dir fsA sub HsubA) in Hcount. lia. }
  destruct (Hloop (Fs.children fs dir) fs 0 Hnd Hfree)
    as (lines & fs' & n & -> & Hframe & Hdel & Hgone & Hcount).
  { intros name Hin. by apply Htree. }
  exists lines, fs', n. split; [done|]. split; [|split; [done|split; [|done]]].
  - intros p Hp. apply Hframe. intros name _. split.
    + intros ->. apply Hp, under_join.
    + by intros Hu%under_trans.
  - apply no_children. intros name Hin.
    pose proof Hin as [Hsome Hc]%In_children.
    destruct (Hdel (Fs.path_join dir name)) as [Hnone|Hsame].
    + rewrite Hnone in Hsome. by destruct Hsome.
    + rewrite (Hgone name) in Hsome; [by destruct Hsome|].
      apply In_children. by rewrite <- Hsame.
Qed.

End CleanTree.

(** X20. The clean script deletes only when it is forced and the output
    directory has entries: without [--force], or when the output
    directory is not a directory or is empty, it returns whatever the
    depth allowed, the file system is exactly as it was and the
    cleaning is not announced; it fails only when the path is a regular
    file, and the names it lists are entries of the directory. *)
Theorem clean_changes_nothing_unless_forced `{Host} (depth : nat)
    (config : Config) (options : Cleaner.Opt.t) (fs : Fs.t) :
  let outputDir := Cleaner.outputDirOf config in
  Cleaner.Opt.force options = false
  \/ fs !! outputDir <> Some Fs.Dir
  \/ Fs.children fs outputDir = [] ->
  exists lines code,
    Cleaner.main depth config options fs = Some (lines, fs, code)
    /\ ~ In Cleaner.Cleaning lines
    /\ (code = 0 <-> forall c, fs !! outputDir <> Some (Fs.File c))
    /\ (forall file, In (Cleaner.Listed file) lines ->
          In file (Fs.children fs outputDir)).
Proof.
  intros outputDir Hquiet. unfold Cleaner.main, Fs.existsSync, Fs.readdirSync.
  fold outputDir. destruct (fs !! outputDir) as [[c|]|] eqn:Hdir; cbn [negb].
  - exists [Cleaner.Banner], 1. split; [done|]. split; [simpl; intuition congruence|].
    split; [|simpl; intuition congruence].
    split; [done|]. intros Hno. by destruct (Hno c).
  - destruct (Fs.children fs outputDir) as [|file files] eqn:Hfiles.
    { exists [Cleaner.Banner; Cleaner.AlreadyEmpty], 0. split; [done|].
      split; [simpl; intuition congruence|]. split; [done|].
      simpl; intuition congruence. }
    destruct Hquiet as [Hforce|[Hno|Hno]]; [|done..]. rewrite Hforce.
    cbn [length Nat.eqb negb]. eexists _, 0. split; [done|].
    split; [|split; [done|]].
    + rewrite !in_app_iff. cbn [In]. rewrite !in_app_iff, in_map_iff.
      intros [[?|[?|[?|[]]]]|[?|[(? & ? & _)|[Hin|[?|[]]]]]]; try done.
      destruct (_ <? _); [|done]. by destruct Hin as [?|[]].
    + intros name. rewrite !in_app_iff. cbn [In]. rewrite !in_app_iff, in_map_iff.
      intros [[?|[?|[?|[]]]]|[?|[(x & [= ->] & Hin)|[Hin|[?|[]]]]]]; try done.
      * apply list_elem_of_In, (subseteq_take 10) in Hin.
        by apply list_elem_of_In in Hin.
      * destruct (_ <? _); [|done]. by destruct Hin as [?|[]].
  - exists [Cleaner.Banner; Cleaner.NothingToClean], 0. split; [done|].
    split; [simpl; intuition congruence|]. split; [done|].
    simpl; intuition congruence.
Qed.

Lemma clean_changes_nothing_unless_forced_witness :
  let config := Demo.config [] [] false false 1 in
  let options := Cleaner.parseOptions ["--verbose"] in
  let fs : Fs.t :=
    <["/repo/dist" := Fs.Dir]>
      (<["/repo/dist/mjml" := Fs.File "binary"]>
         (<["/repo/dist/old" := Fs.Dir]> ∅)) in
  exists lines code,
    @Cleaner.main (Demo.host []) 0 config options fs = Some (lines, fs, code)
    /\ ~ In Cleaner.Cleaning lines.
Proof.
  intros config options fs.
  destruct (@clean_changes_nothing_unless_forced (Demo.host []) 0 config options fs
              (or_introl eq_refl))
    as (lines & code & Hmain & Hquiet & _).
  exists lines, code. split; [exact Hmain|exact Hquiet].
Defined.

(** X21. A forced clean of an output directory that holds regular
    files only deletes exactly what the build script's cleaning before
    a build deletes: both leave the same file system. It reports as
    many files as the directory listed, names each of them when it is
    verbose, and exits with code 0. *)
Theorem forced_clean_agrees_with_clean_before_build `{Host} (depth : nat)
    (config : Config) (options : Cleaner.Opt.t) (buildOptions : Builder.Opt.t)
    (fs : Fs.t) :
  let outputDir := Cleaner.outputDirOf config in
  let files := Fs.children fs outputDir in
  Cleaner.Opt.force options = true ->
  Build.cleanBeforeBuild (build config) = true ->
  Builder.Opt.single buildOptions = false ->
  fs !! outputDir = Some Fs.Dir ->
  files <> [] ->
  (forall name, In name files ->
     exists c, fs !! Fs.path_join outputDir name = Some (Fs.File c)) ->
  exists lines,
    Cleaner.main (S depth) config options fs
    = Some (lines ++ [Cleaner.Removed (length files)],
            (Builder.prepare config buildOptions fs).1, 0)
    /\ (forall file, In (Cleaner.Removing file) lines <->
          Cleaner.Opt.verbose options = true /\ In file files).
Proof.
  intros outputDir files Hforce Hclean Hsingle Hdir Hsome Hfiles.
  destruct (unlinkEach_files outputDir files fs (children_NoDup _ _) Hfiles)
    as (fs' & Hunlink & _ & Hkept).
  assert (fs' !! outputDir = Some Fs.Dir) as Hdir'.
  { rewrite Hkept; [done|]. intros name _ Heq. symmetry in Heq.
    by apply path_join_longer in Heq. }
  assert ((Builder.prepare config buildOptions fs).1 = fs') as ->.
  { unfold Builder.prepare, Builder.ensureOutputDir, Fs.existsSync.
    change (Builder.outputDirOf config) with outputDir.
    rewrite Hdir, Hclean, Hsingle. simpl. unfold Fs.readdirSync. rewrite Hdir.
    fold files. by rewrite Hunlink. }
  assert ((length files =? 0) = false) as Hlen.
  { apply Nat.eqb_neq. intros Hnil%length_zero_iff_nil. by apply Hsome. }
  unfold Cleaner.main. fold outputDir. unfold Fs.existsSync, Fs.readdirSync.
  rewrite Hdir, Hforce. fold files. rewrite Hlen. cbn [negb].
  rewrite (removeDir_flat depth options outputDir fs Hdir Hfiles).
  fold files. rewrite Hunlink. cbn [fst]. unfold Fs.mkdirSync. rewrite Hdir'.
  eexists ([_; _; _] ++ Cleaner.Cleaning :: _). split; [by rewrite <- !app_assoc|].
  intros name. rewrite in_app_iff. cbn [In].
  destruct (Cleaner.Opt.verbose options).
  - rewrite in_map_iff. split.
    + intros [[?|[?|[?|[]]]]|[?|(x & [= ->] & Hin)]]; done.
    + intros [_ Hin]. right. right. by exists name.
  - split; [|by intros [? _]]. intros [[?|[?|[?|[]]]]|[?|[]]]; done.
Qed.

Lemma forced_clean_agrees_with_clean_before_build_witness :
  let config := Demo.config [] [] true false 1 in
  let options := Cleaner.parseOptions ["--force"; "-v"] in
  let fs : Fs.t :=
    <["/repo/dist" := Fs.Dir]>
      (<["/repo/dist/mjml" := Fs.File "binary"]>
         (<["/repo/dist/mjml.sha256" := Fs.File "0000  mjml"]>
            (<["/repo/README.md" := Fs.File "readme"]> ∅))) in
  exists lines,
    @Cleaner.main (Demo.host []) 1 config options fs
    = Some (lines ++ [Cleaner.Removed 2],
            (@Builder.prepare (Demo.host []) config (Demo.options false) fs).1, 0).
Proof.
  intros config options fs.
  destruct (@forced_clean_agrees_with_clean_before_build (Demo.host []) 0 config
              options (Demo.options false) fs eq_refl eq_refl eq_refl)
    as (lines & Hmain & _).
  - vm_compute. reflexivity.
  - vm_compute. discriminate.
  - apply List.Forall_forall.
    replace (Fs.children fs _) with ["mjml.sha256"; "mjml"]
      by (vm_compute; reflexivity).
    repeat (constructor; [eexists; vm_compute; reflexivity|]). constructor.
  - exists lines.
    replace 2 with (length (Fs.children fs (@Cleaner.outputDirOf (Demo.host []) config)))
      by (vm_compute; reflexivity).
    exact Hmain.
Defined.

(** X22. A forced clean removes the whole tree under the output
    directory: when the entries reachable from it are regular files and
    directories nested within the depth, the script exits with code 0,
    the count it reports is the number of regular files that are gone,
    the output directory is left as an empty directory, nothing that
    is not below it has changed, and nothing was created or rewritten. *)
Theorem forced_clean_removes_tree `{Host} (depth : nat) (config : Config)
    (options : Cleaner.Opt.t) (fs : Fs.t) :
  let outputDir := Cleaner.outputDirOf config in
  Cleaner.Opt.force options = true ->
  fs !! outputDir = Some Fs.Dir ->
  Fs.children fs outputDir <> [] ->
  More.treeWithin depth fs outputDir = true ->
  exists lines fs' n,
    Cleaner.main depth config options fs
    = Some (lines ++ [Cleaner.Removed n], fs', 0)
    /\ n + More.regularFiles fs' = More.regularFiles fs
    /\ Fs.readdirSync fs' outputDir = Fs.Ok []
    /\ (forall p, ~ More.under outputDir p -> fs' !! p = fs !! p)
    /\ (forall p, fs' !! p = None \/ fs' !! p = fs !! p).
Proof.
  intros outputDir Hforce Hdir Hsome Htree.
  destruct (removeDir_tree options depth outputDir fs Htree Hdir)
    as (lines & fs' & n & Hremove & Hframe & Hdel & Hempty & Hcount).
  assert (fs' !! outputDir = Some Fs.Dir) as Hdir'.
  { rewrite Hframe; [done|]. apply not_under_self. }
  assert ((length (Fs.children fs outputDir) =? 0) = false) as Hlen.
  { apply Nat.eqb_neq. intros Hnil%length_zero_iff_nil. by apply Hsome. }
  exists ([Cleaner.Banner; Cleaner.OutputDirectory outputDir;
           Cleaner.FilesToRemove (length (Fs.children fs outputDir))]
          ++ Cleaner.Cleaning :: lines), fs', n.
  split; [|split; [done|split; [|done]]].
  - unfold Cleaner.main. fold outputDir. unfold Fs.existsSync, Fs.readdirSync.
    rewrite Hdir, Hforce, Hlen. cbn [negb]. rewrite Hremove.
    unfold Fs.mkdirSync. rewrite Hdir'. by rewrite <- !app_assoc.
  - unfold Fs.readdirSync. by rewrite Hdir', Hempty.
Qed.

Lemma forced_clean_removes_tree_witness :
  let config := Demo.config [] [] false false 1 in
  let options := Cleaner.parseOptions ["-f"] in
  let fs : Fs.t :=
    <["/repo/dist" := Fs.Dir]>
      (<["/repo/dist/mjml" := Fs.File "binary"]>
         (<["/repo/dist/old" := Fs.Dir]>
            (<["/repo/dist/old/mjml.exe" := Fs.File "MZ"]>
               (<["/repo/dist/old/logs" := Fs.Dir]>
                  (<["/repo/README.md" := Fs.File "readme"]> ∅))))) in
  exists lines fs' n,
    @Cleaner.main (Demo.host []) 3 config options fs
    = Some (lines ++ [Cleaner.Removed n], fs', 0)
    /\ n + More.regularFiles fs' = 3
    /\ Fs.readdirSync fs' "/repo/dist" = Fs.Ok []
    /\ fs' !! "/repo/README.md" = Some (Fs.File "readme").
Proof.
  intros config options fs.
  destruct (@forced_clean_removes_tree (Demo.host []) 3 config options fs eq_refl)
    as (lines & fs' & n & Hmain & Hcount & Hread & Hframe & _).
  - vm_compute. reflexivity.
  - vm_compute. discriminate.
  - vm_compute. reflexivity.
  - exists lines, fs', n. split; [exact Hmain|]. split; [|split; [exact Hread|]].
    + rewrite Hcount. vm_compute. reflexivity.
    + rewrite Hframe; [vm_compute; reflexivity|]. intros [rest Heq].
      discriminate Heq.
Defined.
